(** * ai_browser_agent: the observation compactor, the browser service and
      the agent control loop, embedded from the Python sources

    - [src/accessibility.py]: [AccessibilityParser] ([_collect_text],
      [_traverse], [scan]);
    - [src/browser.py]: [BrowserService.click_element], [type_text],
      [open_url], [switch_tab], [close_tab], [_dismiss_overlays];
    - [src/agent.py]: [Agent.run], [_prune_history], [_add_tool_result],
      [_tool_mark_done], [_tool_ask_user], [_get_error_hint].

    Conventions of the embedding.
    - A Python [str] is the list of its characters, a character being its
      Unicode code point.  A string literal of this file denotes that list:
      its UTF-8 bytes are decoded by [Unicode.utf8_decode].  A Python [int]
      is a [Z].
    - A Python exception is carried by its message ([str(e)]).
    - What the repository calls but does not define is an interface: the
      page is [Browser.PageAPI], the browser context with its tabs
      [Service.ContextAPI]; the JSON parser, [str()] of parsed values,
      the tokenizer, the browser tools, the model endpoint and the rich
      console are [AgentLoop.Environment].  A call of the console is an
      effect like any other: it may raise, and it does so in the place the
      source calls it. *)

From Stdlib Require Import ZArith NArith Lia String Ascii List Bool SpecFloat.
From stdpp Require Import base option list gmap strings pretty.
Import ListNotations.

(** ** Characters and strings *)

Module Unicode.

(** A character, by its code point. *)
Definition char := N.

(** A Python [str]. *)
Definition str := list char.

(** The characters a sequence of UTF-8 bytes encodes. *)
Fixpoint utf8_decode (bytes : list N) : str :=
  match bytes with
  | [] => []
  | b :: r =>
      if (b <? 128)%N then b :: utf8_decode r
      else if (b <? 224)%N then
        match r with
        | b1 :: r1 => ((b - 192) * 64 + (b1 - 128))%N :: utf8_decode r1
        | _ => [b]
        end
      else if (b <? 240)%N then
        match r with
        | b1 :: b2 :: r2 =>
            ((b - 224) * 4096 + (b1 - 128) * 64 + (b2 - 128))%N
              :: utf8_decode r2
        | _ => [b]
        end
      else
        match r with
        | b1 :: b2 :: b3 :: r3 =>
            ((b - 240) * 262144 + (b1 - 128) * 4096 + (b2 - 128) * 64
             + (b3 - 128))%N :: utf8_decode r3
        | _ => [b]
        end
  end.

(** The UTF-8 bytes of a character. *)
Definition utf8_encode_char (c : char) : list N :=
  (if c <? 128 then [c]
   else if c <? 2048 then [192 + c / 64; 128 + c mod 64]
   else if c <? 65536
   then [224 + c / 4096; 128 + (c / 64) mod 64; 128 + c mod 64]
   else [240 + c / 262144; 128 + (c / 4096) mod 64; 128 + (c / 64) mod 64;
         128 + c mod 64])%N.

(** A string as a literal shows it. *)
Inductive literal :=
| lit_nil
| lit_cons (c : char) (s : literal).

Fixpoint to_literal (s : str) : literal :=
  match s with
  | [] => lit_nil
  | c :: r => lit_cons c (to_literal r)
  end.

Fixpoint of_literal (l : literal) : str :=
  match l with
  | lit_nil => []
  | lit_cons c r => c :: of_literal r
  end.

Definition parse_literal (bytes : list Byte.byte) : literal :=
  to_literal (utf8_decode (map (fun b => N.of_nat (Byte.to_nat b)) bytes)).

Definition print_literal (l : literal) : option (list Byte.byte) :=
  let bytes := concat (map utf8_encode_char (of_literal l)) in
  let shown := omap Byte.of_N bytes in
  if (length shown =? length bytes)%nat then Some shown else None.

End Unicode.

Declare Scope str_scope.
Delimit Scope str_scope with str.
Bind Scope str_scope with Unicode.str.
#[warnings="-via-type-mismatch,-via-type-remapping"]
String Notation Unicode.str Unicode.parse_literal Unicode.print_literal
  (via Unicode.literal mapping [[nil] => Unicode.lit_nil,
                                [cons] => Unicode.lit_cons]) : str_scope.

Local Open Scope Z_scope.
Local Open Scope list_scope.
Local Open Scope str_scope.

(** ** Python string operations used by the sources *)

Module PyStr.
Export Unicode.

(** [len(s)] *)
Definition len (s : str) : Z := Z.of_nat (length s).

(** [a == b] *)
Fixpoint eqb (a b : str) : bool :=
  match a, b with
  | [], [] => true
  | x :: a', y :: b' => N.eqb x y && eqb a' b'
  | _, _ => false
  end.

(** The characters [str.strip()] removes, those Python counts as white
    space: U+0009..U+000D, U+001C..U+0020, U+0085, U+00A0, U+1680,
    U+2000..U+200A, U+2028, U+2029, U+202F, U+205F and U+3000. *)
Definition is_space (c : char) : bool :=
  ((9 <=? c) && (c <=? 13) || (28 <=? c) && (c <=? 32)
   || (c =? 133) || (c =? 160) || (c =? 5760)
   || (8192 <=? c) && (c <=? 8202)
   || (c =? 8232) || (c =? 8233) || (c =? 8239) || (c =? 8287)
   || (c =? 12288))%N.

Fixpoint lstrip (s : str) : str :=
  match s with
  | [] => []
  | c :: r => if is_space c then lstrip r else s
  end.

Fixpoint rstrip (s : str) : str :=
  match s with
  | [] => []
  | c :: r =>
      match rstrip r with
      | [] => if is_space c then [] else [c]
      | r' => c :: r'
      end
  end.

(** [s.strip()] *)
Definition strip (s : str) : str := rstrip (lstrip s).

(** Truth value of a string: [if s] *)
Definition truthy (s : str) : bool :=
  match s with [] => false | _ => true end.

(** [s.replace(old, new)] for one-character [old] and [new] *)
Fixpoint replace_char (old new : char) (s : str) : str :=
  match s with
  | [] => []
  | c :: r => (if N.eqb c old then new else c) :: replace_char old new r
  end.

(** [s[:n]] for [n >= 0] *)
Definition slice_to (n : Z) (s : str) : str := take (Z.to_nat n) s.

(** [s.startswith(p)] *)
Fixpoint startswith (p s : str) : bool :=
  match p, s with
  | [], _ => true
  | x :: p', y :: s' => N.eqb x y && startswith p' s'
  | _ :: _, [] => false
  end.

(** [sub in s] *)
Fixpoint contains (sub s : str) : bool :=
  startswith sub s ||
  match s with
  | [] => false
  | _ :: r => contains sub r
  end.

Definition lower_char (c : char) : char :=
  if ((65 <=? c) && (c <=? 90))%N then (c + 32)%N else c.

Definition upper_char (c : char) : char :=
  if ((97 <=? c) && (c <=? 122))%N then (c - 32)%N else c.

(** [s.lower()] and [s.upper()] on the letters A to Z and a to z.  The
    sources apply [upper] to the role ["heading"] only, and [lower] only to
    ask whether ["fail"] occurs in the outcome; [str.lower] turns no
    character outside A to Z into an f, an a or an l, and turns only U+0130
    into an i, which it lets a U+0307 follow, so the answer is the same. *)
Definition lower (s : str) : str := map lower_char s.
Definition upper (s : str) : str := map upper_char s.

(** [sep.join(l)] *)
Fixpoint join (sep : str) (l : list str) : str :=
  match l with
  | [] => []
  | [x] => x
  | x :: rest => x ++ sep ++ join sep rest
  end.

(** The line feed, ["\n"], and the space *)
Definition nl_char : char := 10%N.
Definition nl : str := [nl_char].
Definition space_char : char := 32%N.

(** A string of ASCII characters, such as the digits [pretty] gives. *)
Definition of_string (s : string) : str :=
  map N_of_ascii (list_ascii_of_string s).

(** [str(z)] and [f"{z}"] for an [int] *)
Definition py_int (z : Z) : str := of_string (pretty z).

End PyStr.

(** ** Effects: a state threaded through calls that may raise *)

Module Eff.
Import PyStr.

(** The outcome of a call: a value, or an exception of the class
    [Exception], the ones an [except Exception] clause catches, by its
    message. *)
Inductive result (A : Type) :=
| Ok (a : A)
| Exn (msg : str).
Arguments Ok {A} a.
Arguments Exn {A} msg.

(** A computation over a mutable state [S]; the state reached is part of
    the outcome also when the computation raises. *)
Definition M (S A : Type) : Type := S -> result A * S.

Definition ret {S A} (a : A) : M S A := fun s => (Ok a, s).

Definition raise {S A} (msg : str) : M S A := fun s => (Exn msg, s).

Definition bind {S A B} (c : M S A) (k : A -> M S B) : M S B :=
  fun s =>
    match c s with
    | (Ok a, s') => k a s'
    | (Exn msg, s') => (Exn msg, s')
    end.

(** [try: c  except Exception as e: h e] *)
Definition try_except {S A} (c : M S A) (h : str -> M S A) : M S A :=
  fun s =>
    match c s with
    | (Ok a, s') => (Ok a, s')
    | (Exn msg, s') => h msg s'
    end.

(** A pure outcome, raised or returned in any state. *)
Definition lift {S A} (r : result A) : M S A := fun s => (r, s).

End Eff.

Declare Scope eff_scope.
Delimit Scope eff_scope with eff.
Notation "'let*' x ':=' c 'in' k" := (Eff.bind c (fun x => k))
  (at level 10, x name, c at level 200, k at level 200,
   format "'[v' 'let*'  x  ':='  c  'in' '/' k ']'") : eff_scope.
Notation "'do' c 'then' k" := (Eff.bind c (fun _ => k))
  (at level 10, c at level 200, k at level 200,
   format "'[v' 'do'  c  'then' '/' k ']'") : eff_scope.

(** ** src/accessibility.py *)

Module Accessibility.
Import PyStr.

(** The [value] of a node of the accessibility snapshot: text, or a number
    (a whole one here). *)
Inductive AXValue :=
| VStr (s : str)
| VNum (z : Z).

(** The [checked] state of a node: a boolean, or the str ["mixed"]. *)
Inductive AXChecked :=
| CBool (b : bool)
| CMixed.

(** A node of the raw accessibility tree, a dict in the source.  The three
    keys read with a default carry it when absent: [role] is ["generic"],
    [name] is [""], [children] is [[]]. *)
#[warnings="-register-all"]
Inductive RawNode := mkNode {
  role : str;
  name : str;
  value : option AXValue;
  checked : option AXChecked;
  level : option Z;
  disabled : option bool;
  children : list RawNode
}.

Record ElementInfo := mkElementInfo {
  el_id : Z;
  el_role : str;
  el_name : str;
  el_attributes : str
}.

(** [ElementInfo(id=.., role=.., name=..)]: [attributes] defaults to [""]. *)
Definition ElementInfo_new (i : Z) (r n : str) : ElementInfo :=
  mkElementInfo i r n "".

Definition INTERACTIVE_ROLES : list str :=
  ["button"; "link"; "textbox"; "searchbox"; "combobox";
   "checkbox"; "radio"; "slider"; "tab"; "menuitem"; "switch"; "treeitem"].

Definition CONTEXT_ROLES : list str :=
  ["heading"; "img"; "statictext"; "text"; "paragraph"; "listitem"].

(** [x in roles] *)
Definition role_in (x : str) (roles : list str) : bool :=
  existsb (eqb x) roles.

(** Truth values of the optional attributes. *)
Definition value_truthy (v : option AXValue) : bool :=
  match v with
  | Some (VStr s) => truthy s
  | Some (VNum z) => negb (z =? 0)
  | None => false
  end.

Definition checked_truthy (c : option AXChecked) : bool :=
  match c with
  | Some (CBool b) => b
  | Some CMixed => true
  | None => false
  end.

Definition level_truthy (l : option Z) : bool :=
  match l with Some z => negb (z =? 0) | None => false end.

Definition disabled_truthy (d : option bool) : bool :=
  match d with Some b => b | None => false end.

(** [str(value)] and [f"{value}"] of a present value *)
Definition value_str (v : option AXValue) : str :=
  match v with
  | Some (VStr s) => s
  | Some (VNum z) => py_int z
  | None => "None"
  end.

(** [_collect_text].  The loop body (what one child appends to [text]) is
    the recursive function, so that the recursion descends through the
    node; [_collect_text] itself is the loop followed by the join. *)
Fixpoint collect_child (child : RawNode) : str :=
  let name := strip (name child) in
  if truthy name then name
  else
    strip (join " " (List.filter truthy
                                 (map collect_child (children child)))).

Definition _collect_text (children : list RawNode) : str :=
  let text := map collect_child children in
  strip (join " " (List.filter truthy text)).

(** [_traverse], lines 47 and 55-56: the stripped name, replaced for an
    unnamed interactive node with children by the text collected below. *)
Definition node_name (node : RawNode) : str :=
  let name := strip (name node) in
  if negb (truthy name)
     && negb (match children node with [] => true | _ => false end)
     && role_in (role node) INTERACTIVE_ROLES
  then _collect_text (children node)
  else name.

Definition is_interactive (node : RawNode) : bool :=
  role_in (role node) INTERACTIVE_ROLES.

Definition is_heading (node : RawNode) : bool :=
  eqb (role node) "heading".

Definition is_content (node : RawNode) : bool :=
  let name := node_name node in
  role_in (role node) CONTEXT_ROLES && truthy name && (2 <? len name).

(** Lines 68-69: the name after the [[Value: ...]] substitution; this is
    the value of [name] from there on. *)
Definition final_name (node : RawNode) : str :=
  let name := node_name node in
  if role_in (role node) ["textbox"; "searchbox"]
     && negb (truthy name) && value_truthy (value node)
  then "[Value: " ++ value_str (value node) ++ "]"
  else name.

(** Lines 67-75 *)
Definition node_attrs (node : RawNode) : list str :=
  let name := final_name node in
  (if value_truthy (value node)
      && negb (eqb (value_str (value node)) name)
   then ["val=" ++ value_str (value node)] else [])
  ++ (if checked_truthy (checked node) then ["checked"] else [])
  ++ (if disabled_truthy (disabled node) then ["disabled"] else [])
  ++ (if level_truthy (level node)
      then ["h" ++ match level node with Some z => py_int z | None => "" end]
      else []).

Definition attr_str (node : RawNode) : str :=
  match node_attrs node with
  | [] => ""
  | attrs => " (" ++ join ", " attrs ++ ")"
  end.

(** Lines 77-79 *)
Definition display_name (name : str) : str :=
  let display_name := replace_char nl_char space_char name in
  if 80 <? len display_name
  then slice_to 77 display_name ++ "..."
  else display_name.

(** [len(self.elements_map)] *)
Definition len_map (m : gmap Z ElementInfo) : Z := Z.of_nat (size m).

(** Lines 67-95: what [_traverse] does with a node that is interactive, a
    heading or content, before it descends into the children. *)
Definition emit (node : RawNode) (st : gmap Z ElementInfo * list str)
  : gmap Z ElementInfo * list str :=
  let '(elements_map, report) := st in
  let name := final_name node in
  let display_name := display_name name in
  let el_id :=
    if is_interactive node then Some (len_map elements_map + 1) else None in
  let elements_map :=
    match el_id with
    | Some i => <[i := ElementInfo_new i (role node) name]> elements_map
    | None => elements_map
    end in
  let prefix :=
    match el_id with Some i => py_int i ++ "." | None => "  -" end in
  let txt_line :=
    if contains "₽" display_name || contains "$" display_name
       || contains "€" display_name || (20 <? len display_name)
    then report ++ ["    (txt) " ++ display_name]
    else report in
  let report :=
    if is_heading node
    then report ++ [nl ++ "=== " ++ upper (role node) ++ " "
                       ++ display_name ++ " ==="]
    else
      match el_id with
      | Some i =>
          if negb (i =? 0)
          then report ++ [prefix ++ " [" ++ role node ++ "] "
                             ++ display_name ++ attr_str node]
          else txt_line
      | None => txt_line
      end in
  (elements_map, report).

(** [_traverse]: the state is [self.elements_map] and the [report] list,
    both mutated in place by the source. *)
Fixpoint _traverse (node : RawNode) (st : gmap Z ElementInfo * list str)
  : gmap Z ElementInfo * list str :=
  if 800 <=? len_map (fst st) then st
  else if negb (is_interactive node || is_heading node || is_content node)
  then fold_left (fun st child => _traverse child st) (children node) st
  else fold_left (fun st child => _traverse child st) (children node)
                 (emit node st).

(** What [page.accessibility.snapshot] gives [scan]: an exception, a false
    value ([None] or an empty dict), or a tree. *)
Inductive Snapshot :=
| SnapRaise (e : str)
| SnapFalsy
| SnapTree (tree : RawNode).

(** [scan]: the report and the elements map it leaves; [elements_map] is
    the map left by earlier scans. *)
Definition scan (elements_map : gmap Z ElementInfo) (snapshot : Snapshot)
  : str * gmap Z ElementInfo :=
  let elements_map : gmap Z ElementInfo := ∅ in
  match snapshot with
  | SnapRaise e => ("Error scanning page: " ++ e, elements_map)
  | SnapFalsy => ("Accessibility tree is empty.", elements_map)
  | SnapTree tree =>
      let '(elements_map, report_lines) := _traverse tree (elements_map, []) in
      match report_lines with
      | [] => ("No interactive elements found. Try scrolling.", elements_map)
      | _ =>
          ("Interactive Elements (" ++ py_int (len_map elements_map)
             ++ " items):" ++ nl ++ join nl report_lines,
           elements_map)
      end
  end.

End Accessibility.

(** ** src/browser.py *)

Module Browser.
Import PyStr Accessibility Eff.

(** The locators [click_element] and [type_text] build, each narrowed by
    [.first]. *)
Inductive Locator :=
| get_by_role (role : str) (name : option str)
| get_by_text (text : str).

(** The Playwright page as the two methods use it.  [Page] is the state of
    the page; a service that was never started ([self.page] is [None]) is a
    page all of whose operations raise. *)
Class PageAPI (Page : Type) := {
  loc_count : Locator -> M Page Z;
  loc_scroll_into_view_if_needed : Locator -> M Page unit;
  loc_click : Locator -> bool -> M Page unit;
  loc_evaluate_click : Locator -> M Page unit;
  loc_fill : Locator -> str -> M Page unit;
  keyboard_press : str -> M Page unit
}.

Section WithPage.
Context {Page : Type} {api : PageAPI Page}.
Local Open Scope eff_scope.

(** The locator [click_element] tries first (lines 73-76). *)
Definition click_locator (el_info : ElementInfo) : Locator :=
  if truthy (el_name el_info)
  then get_by_role (el_role el_info) (Some (el_name el_info))
  else get_by_role (el_role el_info) None.

(** The locator [type_text] uses (line 107). *)
Definition type_locator (el_info : ElementInfo) : Locator :=
  get_by_role (el_role el_info) (Some (el_name el_info)).

(** [click_element] *)
Definition click_element (elements_map : gmap Z ElementInfo)
    (element_id : Z) : M Page str :=
  match elements_map !! element_id with
  | None =>
      ret ("❌ Error: ID " ++ py_int element_id
             ++ " not found. Suggestion: Call 'scan_page' to refresh IDs.")
  | Some el_info =>
      let loc := click_locator el_info in
      let* n := loc_count loc in
      let loc :=
        if (n =? 0) && truthy (el_name el_info)
        then get_by_text (el_name el_info)
        else loc in
      let* n := loc_count loc in
      if n =? 0
      then ret ("❌ Error: Element '" ++ el_name el_info
                  ++ "' disappeared from DOM. Suggestion: Page might have updated. Call 'scan_page'.")
      else
        try_except
          (do loc_scroll_into_view_if_needed loc then
           do loc_click loc false then
           ret ("✅ Clicked " ++ el_role el_info ++ " '"
                  ++ el_name el_info ++ "' (Standard)"))
          (fun e_standard =>
             try_except
               (do loc_click loc true then
                ret ("⚠️ Clicked " ++ el_role el_info ++ " '"
                       ++ el_name el_info
                       ++ "' (Forced - element was obscured)"))
               (fun e_force =>
                  try_except
                    (do loc_evaluate_click loc then
                     ret ("⚠️ Clicked " ++ el_role el_info ++ " '"
                            ++ el_name el_info ++ "' (via JS Injection)"))
                    (fun e_js =>
                       ret ("❌ CRITICAL FAIL: Could not click '"
                              ++ el_name el_info ++ "'." ++ nl
                              ++ "Reasons:" ++ nl
                              ++ "1. Standard: " ++ e_standard ++ nl
                              ++ "2. Force: " ++ e_force ++ nl
                              ++ "3. JS: " ++ e_js ++ nl
                              ++ "👉 ADVICE: Don't try clicking this again. Use 'scroll' or check if it's the right element."))))
  end.

(** [type_text] *)
Definition type_text (elements_map : gmap Z ElementInfo)
    (element_id : Z) (text : str) (submit : bool) : M Page str :=
  match elements_map !! element_id with
  | None => ret ("ID " ++ py_int element_id ++ " not found.")
  | Some el_info =>
      try_except
        (let locator := type_locator el_info in
         do loc_click locator true then
         do loc_fill locator "" then
         do loc_fill locator text then
         if submit
         then do keyboard_press "Enter" then
              ret ("Typed '" ++ text ++ "' into " ++ el_name el_info
                     ++ " and pressed ENTER")
         else ret ("Typed '" ++ text ++ "' into " ++ el_name el_info))
        (fun e => ret ("Typing failed: " ++ e))
  end.

End WithPage.

End Browser.

(** ** src/browser.py: the methods on tabs and addresses *)

Module Service.
Import PyStr Eff.

(** The fields of [BrowserService] these methods read and assign:
    [self.context] by whether it is set, [self.page] by the page it names.
    Pages opened behind the service's back (the [page] event) are not part
    of the model. *)
Record BrowserService (PageRef : Type) := mkService {
  has_context : bool;
  page : option PageRef
}.
Arguments mkService {PageRef} _ _.
Arguments has_context {PageRef} _.
Arguments page {PageRef} _.

(** Playwright as these methods use it; [W] is the state of the browser. *)
Class ContextAPI (W PageRef : Type) := {
  (** [self.context.pages] *)
  context_pages : W -> list PageRef;
  (** [await page.title()] *)
  page_title : PageRef -> M W str;
  (** [await page.goto(url, wait_until="domcontentloaded", timeout=...)] *)
  page_goto : PageRef -> str -> M W unit;
  (** [await page.close()] *)
  page_close : PageRef -> M W unit;
  (** [await page.bring_to_front()] *)
  page_bring_to_front : PageRef -> M W unit;
  (** [await page.locator(sel).first.is_visible(timeout=500)] *)
  first_is_visible : PageRef -> str -> M W bool;
  (** [await page.locator(sel).first.click(force=True)] *)
  first_click_force : PageRef -> str -> M W unit
}.

(** Line 48 of [open_url] *)
Definition with_scheme (url : str) : str :=
  if negb (startswith "http" url) then "https://" ++ url else url.

(** The selectors [_dismiss_overlays] goes through. *)
Definition OVERLAY_SELECTORS : list str :=
  ["button[aria-label='Закрыть']";
   "div[data-apiary-widget-name='RegionPopup'] button";
   ".Cookie-Button";
   "button:has-text('Принять')";
   "button:has-text('Понятно')"].

Section WithContext.
Context {W PageRef : Type} {api : ContextAPI W PageRef}.
Local Open Scope eff_scope.

(** The loop of [_dismiss_overlays] over the selectors: [None] when it ran
    to its end, the text returned from the [except] clause otherwise. *)
Fixpoint dismiss_loop (p : PageRef) (selectors : list str)
  : M W (option str) :=
  match selectors with
  | [] => ret None
  | sel :: rest =>
      let* failed :=
        try_except
          (let* visible := first_is_visible p sel in
           do (if visible then first_click_force p sel else ret tt) then
           ret None)
          (fun e => ret (Some ("Failed: " ++ e))) in
      match failed with
      | Some text => ret (Some text)
      | None => dismiss_loop p rest
      end
  end.

(** [_dismiss_overlays] *)
Definition _dismiss_overlays (svc : BrowserService PageRef)
  : M W (option str) :=
  match page svc with
  | None => ret None
  | Some p =>
      try_except (dismiss_loop p OVERLAY_SELECTORS)
                 (fun e => ret (Some ("Failed: " ++ e)))
  end.

(** [open_url] *)
Definition open_url (svc : BrowserService PageRef) (url : str)
  : M W str :=
  match page svc with
  | None => ret "Browser not started."
  | Some p =>
      let url := with_scheme url in
      try_except
        (do page_goto p url then
         do _dismiss_overlays svc then
         let* title := page_title p in
         ret ("Opened " ++ url ++ " - Title: " ++ title))
        (fun e => ret ("Error opening url: " ++ e))
  end.

(** [pages[i]] for a Python list *)
Definition py_index (pages : list PageRef) (i : Z) : result PageRef :=
  let n := Z.of_nat (length pages) in
  let k := if i <? 0 then i + n else i in
  if (0 <=? k) && (k <? n)
  then match pages !! Z.to_nat k with
       | Some p => Ok p
       | None => Exn "list index out of range"
       end
  else Exn "list index out of range".

(** [switch_tab]: the service is part of the state, [self.page] being
    assigned. *)
Definition switch_tab (idx : Z)
  : M (BrowserService PageRef * W) str :=
  fun s =>
    let (svc, w) := s in
    if negb (has_context svc)
       || negb ((0 <=? idx) && (idx <? Z.of_nat (length (context_pages w))))
    then (Ok "Invalid tab index.", s)
    else
      match py_index (context_pages w) idx with
      | Exn e => (Exn e, s)
      | Ok p =>
          let svc := mkService (has_context svc) (Some p) in
          match page_bring_to_front p w with
          | (Exn e, w) => (Exn e, (svc, w))
          | (Ok _, w) =>
              match page_title p w with
              | (Exn e, w) => (Exn e, (svc, w))
              | (Ok title, w) => (Ok ("Active tab: " ++ title), (svc, w))
              end
          end
      end.

(** [close_tab] *)
Definition close_tab : M (BrowserService PageRef * W) str :=
  fun s =>
    let (svc, w) := s in
    if negb (has_context svc)
       || (Z.of_nat (length (context_pages w)) <=? 1)
    then (Ok "Cannot close last tab.", s)
    else
      match page svc with
      | None => (Exn "'NoneType' object has no attribute 'close'", s)
      | Some p =>
          match page_close p w with
          | (Exn e, w) => (Exn e, (svc, w))
          | (Ok _, w) =>
              match py_index (context_pages w) (-1) with
              | Exn e => (Exn e, (svc, w))
              | Ok last =>
                  (Ok "Tab closed.",
                   (mkService (has_context svc) (Some last), w))
              end
          end
      end.

End WithContext.
End Service.

(** ** src/agent.py *)

Module AgentLoop.
Import PyStr Eff.

(** What [json.loads] returns.  The keys of a [JDict] are distinct, as in a
    Python dict; a number with a fraction or an exponent is a binary64
    float. *)
#[warnings="-register-all"]
Inductive json :=
| JNull
| JBool (b : bool)
| JInt (z : Z)
| JFloat (f : spec_float)
| JStr (s : str)
| JList (l : list json)
| JDict (kv : list (str * json)).

(** [type(v).__name__] *)
Definition type_name (v : json) : str :=
  match v with
  | JNull => "NoneType"
  | JBool _ => "bool"
  | JInt _ => "int"
  | JFloat _ => "float"
  | JStr _ => "str"
  | JList _ => "list"
  | JDict _ => "dict"
  end.

(** Truth value of a parsed value: [if v], [not v] *)
Definition json_truthy (v : json) : bool :=
  match v with
  | JNull => false
  | JBool b => b
  | JInt z => negb (z =? 0)
  | JFloat f => match f with S754_zero _ => false | _ => true end
  | JStr s => truthy s
  | JList l => match l with [] => false | _ => true end
  | JDict kv => match kv with [] => false | _ => true end
  end.

Fixpoint dict_lookup (key : str) (kv : list (str * json)) : option json :=
  match kv with
  | [] => None
  | (k, v) :: rest => if eqb k key then Some v else dict_lookup key rest
  end.

(** [args.get(key, default)]; a value that is not a dict has no [get]. *)
Definition args_get (args : json) (key : str) (default : json) : result json :=
  match args with
  | JDict kv =>
      Ok (match dict_lookup key kv with Some v => v | None => default end)
  | _ => Exn ("'" ++ type_name args ++ "' object has no attribute 'get'")
  end.

(** A tool call of the model's turn: [tool_call.id],
    [tool_call.function.name], [tool_call.function.arguments]. *)
Record ToolCall := mkToolCall {
  tc_id : str;
  fn_name : str;
  fn_arguments : str
}.

(** An entry of [self.history]. [Assistant] is [msg.model_dump()]: an absent
    [tool_calls] is the empty list. *)
Inductive Message :=
| Assistant (content : option str) (tool_calls : list ToolCall)
| User (content : str)
| Tool (tool_call_id : str) (content : str).

Inductive Role := PLANNER | WORKER.

(** The role as [run] writes it. *)
Definition role_name (role : Role) : str :=
  match role with PLANNER => "PLANNER" | WORKER => "WORKER" end.

(** What [run] hands to the console: a string, which rich reads as markup;
    a [Panel] around a value, with its title and style (["none"] when the
    source gives none); a [Panel] around [Markdown(text)]. *)
Inductive Renderable :=
| Text (markup : str)
| Panel (body : json) (title style : str)
| MarkdownPanel (text : str) (title style : str).

(** The fields of [Agent] that [run] works on. *)
Record Agent := mkAgent {
  history : list Message;
  plan : json;
  notes : list str;
  main_goal : str;
  has_planned : bool;
  last_action : option (str * str);
  repeated_action_count : Z
}.

Definition with_history (h : list Message) (a : Agent) : Agent :=
  mkAgent h (plan a) (notes a) (main_goal a) (has_planned a)
          (last_action a) (repeated_action_count a).
Definition with_plan (p : json) (a : Agent) : Agent :=
  mkAgent (history a) p (notes a) (main_goal a) (has_planned a)
          (last_action a) (repeated_action_count a).
Definition with_notes (n : list str) (a : Agent) : Agent :=
  mkAgent (history a) (plan a) n (main_goal a) (has_planned a)
          (last_action a) (repeated_action_count a).
Definition with_has_planned (b : bool) (a : Agent) : Agent :=
  mkAgent (history a) (plan a) (notes a) (main_goal a) b
          (last_action a) (repeated_action_count a).
Definition with_last_action (l : option (str * str)) (a : Agent) : Agent :=
  mkAgent (history a) (plan a) (notes a) (main_goal a) (has_planned a)
          l (repeated_action_count a).
Definition with_repeated_action_count (c : Z) (a : Agent) : Agent :=
  mkAgent (history a) (plan a) (notes a) (main_goal a) (has_planned a)
          (last_action a) c.

(** The state [run] sets up for a task (lines 43-50). *)
Definition start_task (task : str) : Agent :=
  mkAgent [] (JList []) [] task false None 0.

(** [cfg.MAX_ITERATIONS] *)
Definition MAX_ITERATIONS : nat := 50.

Definition TOKEN_LIMIT : Z := 100000.

(** The result the loop guard substitutes for the tool's (line 119). *)
Definition SYSTEM_OVERRIDE : str :=
  "⛔ SYSTEM OVERRIDE: You are looping the exact same action 3 times. STOP. You MUST choose a DIFFERENT tool or strategy.".

(** [_get_error_hint] *)
Definition _get_error_hint (fname error_msg : str) : str :=
  let hint := nl ++ nl ++ "💡 ADAPTIVE STRATEGY: " in
  if eqb fname "click_element" then
    if contains "outside of the viewport" error_msg
    then hint ++ "The element is hidden. Call 'scroll(direction='down')' to reveal it."
    else if contains "obscured" error_msg
    then hint ++ "Something covers the element. Try closing popups first."
    else hint ++ "Click failed. Try: 1. Scroll closer. 2. Search by typing text instead. 3. Use 'open_url' to navigate directly."
  else if eqb fname "scan_page" then
    hint ++ "If the page is empty, try waiting a bit or reloading. If it's too big, ignore navigation elements and focus on content."
  else if eqb fname "type_text" then
    hint ++ "Typing failed. Try clicking the input field first, then type again."
  else "".

(** What [_add_tool_result] shows of a result (line 170). *)
Definition display_res (result : str) : str :=
  if len result <? 200 then result
  else "...large output (" ++ py_int (len result) ++ " chars)...".

(** The text [_add_tool_result] stores (lines 173-174). *)
Definition stored_result (result : str) : str :=
  if 20000 <? len result
  then slice_to 2000 result ++ nl
         ++ "...[TRUNCATED DUE TO LENGTH]... Call scan_page again if needed."
  else result.

(** The names of [BrowserService] entered in [self.tools_map]. *)
Definition BROWSER_TOOLS : list str :=
  ["open_url"; "scan_page"; "click_element"; "type_text"; "scroll";
   "get_tabs"; "switch_tab"; "close_tab"].

(** What the loop calls and the repository does not define. *)
Class Environment := {
  (** The browser, the operator's console and the model endpoint. *)
  World : Type;
  (** [json.loads] *)
  json_loads : str -> result json;
  (** [str(v)] and [f"{v}"] of a parsed value *)
  py_str : json -> str;
  (** [enc.encode], with the encoding [_prune_history] resolved *)
  encode : str -> list Z;
  (** [str(msg["tool_calls"])] *)
  str_tool_calls : list ToolCall -> str;
  (** [func( **args)] for a method of [BrowserService], by its name *)
  browser_tool : str -> json -> M World str;
  (** The message of the [TypeError] raised when [**args] does not fit the
      parameters of a tool of the agent itself, by the tool's name *)
  bind_error : str -> json -> str;
  (** [console.print] *)
  console_print : Renderable -> M World unit;
  (** [console.rule] *)
  console_rule : str -> M World unit;
  (** [console.input], by its prompt *)
  console_input : str -> M World str;
  (** [client.chat.completions.create] with the prompt and the tool
      definitions built for the role from the agent's fields; the answer
      is [msg.content] and [msg.tool_calls]. *)
  chat_completion : Role -> Agent -> M World (option str * list ToolCall)
}.

Section WithEnvironment.
Context {env : Environment}.

Local Open Scope eff_scope.

Definition get_agent : M (Agent * World) Agent :=
  fun s => (Ok (fst s), s).
Definition modify_agent (f : Agent -> Agent) : M (Agent * World) unit :=
  fun s => (Ok tt, (f (fst s), snd s)).
Definition on_world {A} (c : M World A) : M (Agent * World) A :=
  fun s => let (r, w) := c (snd s) in (r, (fst s, w)).

(** [console.print(r)] *)
Definition print (r : Renderable) : M (Agent * World) unit :=
  on_world (console_print r).

(** *** [_prune_history] *)

(** Lines 155-157 *)
Definition msg_content (msg : Message) : str :=
  match msg with
  | Assistant content tool_calls =>
      let msg_content := match content with Some c => c | None => "" end in
      match tool_calls with
      | [] => msg_content
      | _ => msg_content ++ str_tool_calls tool_calls
      end
  | User content => content
  | Tool _ content => content
  end.

(** Line 159 *)
Definition msg_tokens (msg : Message) : Z :=
  Z.of_nat (length (encode (msg_content msg))).

(** The loop of lines 154-165 over the reversed history *)
Fixpoint keep_loop (msgs : list Message) (total_tokens : Z)
    (kept_messages : list Message) : list Message :=
  match msgs with
  | [] => kept_messages
  | msg :: rest =>
      if TOKEN_LIMIT <? total_tokens + msg_tokens msg
      then kept_messages
      else keep_loop rest (total_tokens + msg_tokens msg)
                     (kept_messages ++ [msg])
  end.

(** [_prune_history], on the history *)
Definition prune (history : list Message) : list Message :=
  rev (keep_loop (rev history) 0 []).

Definition _prune_history (a : Agent) : Agent :=
  with_history (prune (history a)) a.

(** *** [_add_tool_result] *)

(** Lines 170-171 *)
Definition result_line (result : str) : Renderable :=
  Text ("   ℹ️ Result: [dim]" ++ display_res result ++ "[/dim]").

Definition _add_tool_result (tool_id result : str) : M (Agent * World) unit :=
  do print (result_line result) then
  modify_agent (fun a =>
    with_history (history a ++ [Tool tool_id (stored_result result)]) a).

(** *** The tools of the agent *)

(** [self.plan.pop(0)] *)
Definition plan_pop0 : M (Agent * World) json :=
  let* a := get_agent in
  match plan a with
  | JList (done_step :: rest) =>
      do modify_agent (with_plan (JList rest)) then ret done_step
  | JList [] => raise "pop from empty list"
  | JDict _ => raise "0"
  | v => raise ("'" ++ type_name v ++ "' object has no attribute 'pop'")
  end.

(** Line 185 *)
Definition done_line (done_step : json) : Renderable :=
  Text ("✅ [bold strike]" ++ py_str done_step ++ "[/bold strike]").

Definition _tool_mark_done (result_summary : json) : M (Agent * World) str :=
  let* a := get_agent in
  do (if json_truthy (plan a)
      then let* done_step := plan_pop0 in print (done_line done_step)
      else ret tt) then
  do modify_agent (fun a =>
       with_notes (notes a ++ ["Step done: " ++ py_str result_summary]) a) then
  ret "Step marked done.".

Definition _tool_finish (final_result : json) : M (Agent * World) str :=
  ret "Finished.".

Definition _tool_ask_user (question : json) : M (Agent * World) str :=
  do print (Panel question "❓ Question" "magenta") then
  let* ans := on_world (console_input "[bold magenta]Answer > [/bold magenta]") in
  do modify_agent (fun a =>
       with_notes (notes a ++ ["User Clarification (Q: " ++ py_str question
                                ++ " | A: " ++ ans ++ ")"]) a) then
  ret ("User Answer: " ++ ans).

(** [func( **args)] for a tool with the one parameter [param] *)
Definition call_kw (fname param : str)
    (func : json -> M (Agent * World) str) (args : json)
  : M (Agent * World) str :=
  match args with
  | JDict [(k, v)] =>
      if eqb k param then func v else raise (bind_error fname args)
  | _ => raise (bind_error fname args)
  end.

(** [self.tools_map.get(fname)], each entry applied as [func( **args)] *)
Definition tools_map (fname : str)
  : option (json -> M (Agent * World) str) :=
  if eqb fname "mark_step_done"
  then Some (call_kw fname "result_summary" _tool_mark_done)
  else if eqb fname "finish_task"
  then Some (call_kw fname "final_result" _tool_finish)
  else if eqb fname "ask_user"
  then Some (call_kw fname "question" _tool_ask_user)
  else if existsb (eqb fname) BROWSER_TOOLS
  then Some (fun args => on_world (browser_tool fname args))
  else None.

(** Lines 122-130 *)
Definition dispatch (fname : str) (args : json) : M (Agent * World) str :=
  match tools_map fname with
  | Some func => func args
  | None => ret ("Error: Tool " ++ fname ++ " not found")
  end.

(** *** [run] *)

(** How the [try] block of one tool call ends when it does not raise. *)
Inductive attempt :=
| PlanSet
| Finished
| Result (result : str).

(** Lines 112-117: the loop guard's counter *)
Definition count_repeat (current_action : str * str) (a : Agent) : Agent :=
  if decide (Some current_action = last_action a)
  then with_repeated_action_count (repeated_action_count a + 1) a
  else with_repeated_action_count 0 a.

(** Lines 132-133 *)
Definition add_hint (fname result : str) : str :=
  if contains "Error" result || contains "fail" (lower result)
  then result ++ _get_error_hint fname result
  else result.

(** Line 95 *)
Definition call_line (tool_call : ToolCall) : Renderable :=
  Text ("🔧 Call: [bold green]" ++ fn_name tool_call ++ "[/bold green] "
          ++ slice_to 100 (fn_arguments tool_call)).

(** Line 102 *)
Definition plan_panel (plan : json) : Renderable :=
  Panel (JStr ("Plan set: " ++ py_str plan)) "📝 Plan Updated" "green".

(** Line 109 *)
Definition done_panel (final_result : json) : Renderable :=
  Panel final_result "🏁 Done" "green".

(** Line 120 *)
Definition override_line : Renderable :=
  Text ("[bold red]" ++ SYSTEM_OVERRIDE ++ "[/bold red]").

(** Lines 138-139 *)
Definition error_result (fname e : str) : str :=
  "Error executing " ++ fname ++ ": " ++ e.
Definition error_line (result : str) : Renderable :=
  Text ("[red]" ++ result ++ "[/red]").

(** Lines 98-135: the [try] block *)
Definition try_block (tool_call : ToolCall) : M (Agent * World) attempt :=
  let fname := fn_name tool_call in
  let args_str := fn_arguments tool_call in
  let* args := lift (json_loads args_str) in
  if eqb fname "set_plan" then
    let* steps := lift (args_get args "steps" (JList [])) in
    do modify_agent (with_plan steps) then
    let* a := get_agent in
    do print (plan_panel (plan a)) then
    do modify_agent (with_history []) then
    do modify_agent (with_has_planned true) then
    ret PlanSet
  else if eqb fname "finish_task" then
    let* final_result := lift (args_get args "final_result" (JStr "Done")) in
    do print (done_panel final_result) then
    ret Finished
  else
    let current_action := (fname, py_str args) in
    do modify_agent (count_repeat current_action) then
    let* a := get_agent in
    let* result :=
      (if 3 <=? repeated_action_count a
       then do print override_line then ret SYSTEM_OVERRIDE
       else dispatch fname args) in
    let result := add_hint fname result in
    do modify_agent (with_last_action (Some current_action)) then
    ret (Result result).

(** How the body of the [for] loop hands control on. *)
Inductive flow :=
| Next
| Break
| Return.

(** Lines 93-142: the body of the loop over [msg.tool_calls].
    [reset_context] is the local flag of the turn; [set_plan] sets it
    and breaks at once. *)
Definition loop_body (reset_context : bool) (tool_call : ToolCall)
  : M (Agent * World) flow :=
  let fname := fn_name tool_call in
  do print (call_line tool_call) then
  let* outcome :=
    try_except (try_block tool_call)
      (fun e =>
         let result := error_result fname e in
         do print (error_line result) then
         ret (Result result)) in
  match outcome with
  | PlanSet => ret Break
  | Finished => ret Return
  | Result result =>
      do (if negb reset_context
          then _add_tool_result (tc_id tool_call) result
          else ret tt) then
      ret Next
  end.

(** Line 92: [for tool_call in msg.tool_calls] *)
Fixpoint for_tool_calls (reset_context : bool) (tool_calls : list ToolCall)
  : M (Agent * World) flow :=
  match tool_calls with
  | [] => ret Next
  | tool_call :: rest =>
      let* f := loop_body reset_context tool_call in
      match f with
      | Next => for_tool_calls reset_context rest
      | Break => ret Break
      | Return => ret Return
      end
  end.

(** Lines 57-60 *)
Definition current_role (a : Agent) : Role :=
  if negb (json_truthy (plan a)) && negb (has_planned a)
  then PLANNER else WORKER.

(** Line 62 *)
Definition rule_title (i : Z) (role : Role) : str :=
  "Step " ++ py_int (i + 1) ++ " | Role: " ++ role_name role.

(** Line 72 *)
Definition api_error_line (e : str) : Renderable :=
  Text ("[bold red]API Error: " ++ e ++ "[/bold red]").

(** Lines 85 and 87 *)
Definition nudge (role : Role) : str :=
  match role with
  | PLANNER => "You must call 'set_plan' or 'ask_user'."
  | WORKER => "Action required. Please call a tool to proceed."
  end.

(** Lines 55-90: an iteration up to the loop over the tool calls.  [None]
    when the iteration ends there by [continue], the tool calls of the
    turn otherwise. *)
Definition turn_head (i : Z) : M (Agent * World) (option (list ToolCall)) :=
  do modify_agent _prune_history then
  let* a := get_agent in
  let role := current_role a in
  do on_world (console_rule (rule_title i role)) then
  let* response :=
    try_except
      (let* msg := on_world (chat_completion role a) in ret (Some msg))
      (fun e => do print (api_error_line e) then ret None) in
  match response with
  | None => ret None
  | Some (content, tool_calls) =>
      do modify_agent (fun a =>
           with_history (history a ++ [Assistant content tool_calls]) a) then
      do (match content with
          | Some text =>
              if truthy text
              then print (MarkdownPanel text "🧠 Thought" "yellow")
              else ret tt
          | None => ret tt
          end) then
      match tool_calls with
      | [] =>
          do print (Text "[dim magenta]No tools called.[/dim magenta]") then
          do modify_agent (fun a =>
               with_history (history a ++ [User (nudge role)]) a) then
          ret None
      | _ => ret (Some tool_calls)
      end
  end.

(** Lines 55-142: one iteration of [run], [i] being the loop variable;
    [Return] when the task was finished. *)
Definition iteration (i : Z) : M (Agent * World) flow :=
  let* turn := turn_head i in
  match turn with
  | None => ret Next
  | Some tool_calls =>
      let reset_context := false in
      let* f := for_tool_calls reset_context tool_calls in
      match f with
      | Return => ret Return
      | _ => ret Next
      end
  end.

(** Line 54: [for i in range(cfg.MAX_ITERATIONS)], from the value [i] of
    the loop variable with [n] iterations ahead; [true] when [finish_task]
    ended the task, [false] when the iterations ran out. *)
Fixpoint iterations (n : nat) (i : Z) : M (Agent * World) bool :=
  match n with
  | O => ret false
  | S n' =>
      let* f := iteration i in
      match f with
      | Return => ret true
      | _ => iterations n' (i + 1)
      end
  end.

(** Line 52 *)
Definition task_panel (task : str) : Renderable :=
  Panel (JStr ("[bold cyan]Task:[/bold cyan] " ++ task)) "🤖 New Mission" "none".

(** [run] *)
Definition run (task : str) : M (Agent * World) bool :=
  do modify_agent (fun _ => start_task task) then
  do print (task_panel task) then
  iterations MAX_ITERATIONS 0.

End WithEnvironment.

End AgentLoop.

(** ** Reference definitions the statements are written against *)

Module Reference.
Import PyStr Accessibility.

(** The stripped names met first on each path below a node: a named node
    contributes its name and hides what lies below it. *)
Fixpoint nearest_names_of (n : RawNode) : list str :=
  let nm := strip (name n) in
  if truthy nm then [nm]
  else concat (map nearest_names_of (children n)).

Definition nearest_names (children : list RawNode) : list str :=
  concat (map nearest_names_of children).

(** The non-empty names of a node and of all its descendants,
    depth-first. *)
Fixpoint all_names_of (n : RawNode) : list str :=
  (if truthy (name n) then [name n] else [])
  ++ concat (map all_names_of (children n)).

(** The non-empty names of all descendants of a node, depth-first. *)
Definition descendant_names (n : RawNode) : list str :=
  concat (map all_names_of (children n)).

(** The interactive nodes of a tree in the order of the traversal. *)
Fixpoint interactive_nodes (n : RawNode) : list RawNode :=
  (if is_interactive n then [n] else [])
  ++ concat (map interactive_nodes (children n)).

(** The element a scan records for an interactive node under an id. *)
Definition element_of (id : Z) (n : RawNode) : ElementInfo :=
  ElementInfo_new id (role n) (final_name n).

(** The report line of an interactive node registered under an id. *)
Definition element_line (id : Z) (n : RawNode) : str :=
  py_int id ++ ". [" ++ role n ++ "] "
    ++ display_name (final_name n) ++ attr_str n.

(** A str is clean when it is not empty and [strip] leaves it alone at
    both ends. *)
Definition clean (s : str) : Prop :=
  truthy s = true /\ lstrip s = s /\ rstrip s = s.

(** Induction on a tree, with the property available for the children. *)
Fixpoint RawNode_forall_ind (P : RawNode -> Prop)
    (step : forall r n v c l d cs,
        Forall P cs -> P (mkNode r n v c l d cs))
    (node : RawNode) : P node :=
  match node with
  | mkNode r n v c l d cs =>
      step r n v c l d cs
        ((fix children_ok (cs : list RawNode) : Forall P cs :=
            match cs with
            | [] => @List.Forall_nil _ P
            | child :: rest =>
                @List.Forall_cons _ P child rest (RawNode_forall_ind P step child)
                            (children_ok rest)
            end) cs)
  end.

(** The map holding the given interactive nodes under the ids 1, 2, ... *)
Definition registry (l : list RawNode) : gmap Z ElementInfo :=
  fold_left
    (fun m n => <[len_map m + 1 := element_of (len_map m + 1) n]> m) l ∅.

(** What that map holds under the key [k]. *)
Definition registry_at (l : list RawNode) (k : Z) : option ElementInfo :=
  if decide (1 <= k) then element_of k <$> l !! Z.to_nat (k - 1) else None.

(** Every node of [l] has its line in the report. *)
Definition lines_ok (l : list RawNode) (report : list str) : Prop :=
  forall i n, l !! i = Some n -> In (element_line (Z.of_nat i + 1) n) report.

(** What the traversal reaches from the registry of [l]: the registry of
    [l'], with a report that has grown and holds the lines of [l']. *)
Definition reaches (l : list RawNode) (report : list str)
    (l' : list RawNode) (st : gmap Z ElementInfo * list str) : Prop :=
  exists report',
    st = (registry l', report')
    /\ incl report report'
    /\ (lines_ok l report -> lines_ok l' report').

(** The interactive nodes a snapshot offers to a scan, in order. *)
Definition scanned_nodes (snapshot : Snapshot) : list RawNode :=
  match snapshot with
  | SnapTree tree => interactive_nodes tree
  | _ => []
  end.

(** *** The agent loop *)

Section WithEnvironment.
Import Eff AgentLoop.
Context {env : Environment}.

(** The state a [set_plan] call leaves. *)
Definition plan_committed (steps : json) (a : Agent) : Agent :=
  with_has_planned true (with_history [] (with_plan steps a)).

(** The two fields of the loop guard. *)
Definition guard_of (a : Agent) : option (str * str) * Z :=
  (last_action a, repeated_action_count a).

(** A computation that leaves both as it found them, however it ends. *)
Definition keeps_guard {A} (c : M (Agent * World) A) : Prop :=
  forall s r s', c s = (r, s') -> guard_of (fst s') = guard_of (fst s).

(** The console prints [r] in the state [w] and leaves the state [w']. *)
Definition prints (r : Renderable) (w w' : World) : Prop :=
  console_print r w = (Ok tt, w').

(** The tool call selects the action [act]: it is a call that reaches the
    loop guard, neither [set_plan] nor [finish_task], its arguments parse,
    and [act] is the pair the guard compares (line 112). *)
Definition selects (act : str * str) (tc : ToolCall) : Prop :=
  fn_name tc <> "set_plan" /\ fn_name tc <> "finish_task"
  /\ exists args,
       json_loads (fn_arguments tc) = Ok args
       /\ act = (fn_name tc, py_str args).

(** A selection of [act]: the body of the loop runs on a call that selects
    it and hands on to the next call, and the action is the last one
    recorded then. *)
Definition selection (act : str * str) (s s' : Agent * World) : Prop :=
  exists tc,
    selects act tc
    /\ loop_body false tc s = (Ok Next, s')
    /\ last_action (fst s') = Some act.

(** [n] consecutive selections of [act] after a state in which the last
    action is another one, or none.  Between two of them anything may
    happen that leaves the two fields of the guard alone: the end of a turn
    and the start of the next, calls that do not reach the guard. *)
Inductive consecutive (act : str * str)
  : nat -> Agent * World -> Agent * World -> Prop :=
| consecutive_none (s : Agent * World) :
    last_action (fst s) <> Some act ->
    consecutive act 0 s s
| consecutive_next (n : nat) (s s1 s2 s3 : Agent * World) :
    consecutive act n s s1 ->
    guard_of (fst s2) = guard_of (fst s1) ->
    selection act s2 s3 ->
    consecutive act (S n) s s3.

(** [args.get("steps", [])] for the arguments [kv]: the steps a [set_plan]
    call commits. *)
Definition steps_of (kv : list (str * json)) : json :=
  match dict_lookup "steps" kv with
  | Some steps => steps
  | None => JList []
  end.

(** [args.get("final_result", "Done")] for the arguments [kv]. *)
Definition final_result_of (kv : list (str * json)) : json :=
  match dict_lookup "final_result" kv with
  | Some v => v
  | None => JStr "Done"
  end.

(** A computation out of which only what the console raised can come: when
    it raises, a [console.print] raised that exception and nothing was done
    after it. *)
Definition console_only {A} (c : M (Agent * World) A) : Prop :=
  forall s e s',
    c s = (Exn e, s') ->
    exists r w, console_print r w = (Exn e, snd s').

(** The state after a tool entry was appended. *)
Definition with_entry (tool_id content : str) (a : Agent) : Agent :=
  with_history (history a ++ [Tool tool_id content]) a.

End WithEnvironment.

End Reference.

(** ** Concrete trees, pages and environments for the instances *)

Module Examples.
Import PyStr Accessibility Browser Reference Eff.

Definition leaf (role name : str) : RawNode :=
  mkNode role name None None None None [].

Definition branch (role name : str) (children : list RawNode) : RawNode :=
  mkNode role name None None None None children.

(** An unnamed button over a named text that has a named text below it. *)
Definition nested_names : RawNode :=
  branch "button" "" [branch "text" "Hello" [leaf "text" "World"]].

(** An unnamed link over an unnamed group of two texts. *)
Definition grouped_names : RawNode :=
  branch "link" "" [branch "generic" "" [leaf "text" " Add "; leaf "text" "to cart"]].

Definition two_buttons : RawNode :=
  branch "generic" "" [leaf "button" "Buy"; leaf "button" "Sell"].

Definition one_button : RawNode :=
  branch "generic" "" [leaf "button" "Close"].

(** The no-break space, U+00A0 *)
Definition nbsp : str := [160%N].

(** A button named by a no-break space, over a text whose name has one at
    each end. *)
Definition padded_names : RawNode :=
  branch "button" nbsp [leaf "text" (nbsp ++ "Buy" ++ nbsp)].

(** A text of two characters, a rouble sign and a digit. *)
Definition short_price : RawNode := leaf "text" "₽5".

(** A search box without a name that holds a value. *)
Definition filled_box : RawNode :=
  mkNode "searchbox" "" (Some (VStr "laptop")) None None None [].

(** A page on which every locator matches one element and every operation
    succeeds; its state is the list of the locators it was asked to count,
    the latest last. *)
Definition obliging_page : PageAPI (list Locator) := {|
  loc_count loc := fun log => (Ok 1, log ++ [loc]);
  loc_scroll_into_view_if_needed loc := ret tt;
  loc_click loc force := ret tt;
  loc_evaluate_click loc := ret tt;
  loc_fill loc text := ret tt;
  keyboard_press key := ret tt
|}.

(** A button whose name runs over two lines and 95 characters. *)
Definition long_name : str :=
  "Add the selected laptop to the shopping cart" ++ nl
    ++ "and continue to the checkout page of the store now".

Definition long_button : RawNode := leaf "button" long_name.

End Examples.

Module AgentExamples.
Import PyStr Eff AgentLoop Service.

(** The double quote *)
Definition dq : str := [34%N].

(** [{"direction": "down"}] *)
Definition scroll_args : str :=
  "{" ++ dq ++ "direction" ++ dq ++ ": " ++ dq ++ "down" ++ dq ++ "}".

(** [{"steps": ["Open the shop", "Search for a laptop"]}] *)
Definition plan_args : str :=
  "{" ++ dq ++ "steps" ++ dq ++ ": [" ++ dq ++ "Open the shop" ++ dq
    ++ ", " ++ dq ++ "Search for a laptop" ++ dq ++ "]}".

(** [{"steps": ["Open \u005b/b]"]}]: the step is [Open [/b]], its opening
    bracket written as an escape. *)
Definition markup_plan_args : str :=
  "{" ++ dq ++ "steps" ++ dq ++ ": [" ++ dq ++ "Open \u005b/b]" ++ dq ++ "]}".

(** Not JSON: the closing brace is missing. *)
Definition broken_args : str :=
  "{" ++ dq ++ "steps" ++ dq ++ ": [".

(** Not JSON, and with a closing tag that nothing opened. *)
Definition markup_args : str := "x[/b]".

(** [{"result_summary": "Shop opened"}] *)
Definition summary_args : str :=
  "{" ++ dq ++ "result_summary" ++ dq ++ ": " ++ dq ++ "Shop opened"
    ++ dq ++ "}".

(** [{"final_result": "Bought"}] *)
Definition finish_args : str :=
  "{" ++ dq ++ "final_result" ++ dq ++ ": " ++ dq ++ "Bought"
    ++ dq ++ "}".

(** [{"final_result": 5}] *)
Definition number_finish_args : str :=
  "{" ++ dq ++ "final_result" ++ dq ++ ": 5}".

(** [json.loads] on the argument strings of the examples. *)
Definition json_loads (s : str) : result json :=
  if eqb s scroll_args
  then Ok (JDict [("direction", JStr "down")])
  else if eqb s plan_args
  then Ok (JDict [("steps", JList [JStr "Open the shop";
                                   JStr "Search for a laptop"])])
  else if eqb s markup_plan_args
  then Ok (JDict [("steps", JList [JStr "Open [/b]"])])
  else if eqb s summary_args
  then Ok (JDict [("result_summary", JStr "Shop opened")])
  else if eqb s finish_args
  then Ok (JDict [("final_result", JStr "Bought")])
  else if eqb s number_finish_args
  then Ok (JDict [("final_result", JInt 5)])
  else if eqb s "{}" then Ok (JDict [])
  else if eqb s "[1]" then Ok (JList [JInt 1])
  else if eqb s broken_args
  then Exn "Expecting value: line 1 column 12 (char 11)"
  else Exn "Expecting value: line 1 column 1 (char 0)".

(** [repr(v)] for the values of the examples: strings without quotes or
    escapes, and no float that is finite and not zero.  Such a float is
    written here by its mantissa and exponent, which is not the notation of
    Python. *)
Fixpoint py_repr (v : json) : str :=
  match v with
  | JNull => "None"
  | JBool true => "True"
  | JBool false => "False"
  | JInt z => py_int z
  | JFloat (S754_zero false) => "0.0"
  | JFloat (S754_zero true) => "-0.0"
  | JFloat (S754_infinity false) => "inf"
  | JFloat (S754_infinity true) => "-inf"
  | JFloat S754_nan => "nan"
  | JFloat (S754_finite sign m e) =>
      (if sign then "-" else "") ++ py_int (Z.pos m) ++ "*2**" ++ py_int e
  | JStr s => "'" ++ s ++ "'"
  | JList l => "[" ++ join ", " (map py_repr l) ++ "]"
  | JDict kv =>
      "{" ++ join ", " (map (fun item => "'" ++ fst item ++ "': "
                                            ++ py_repr (snd item)) kv)
          ++ "}"
  end.

(** [str(v)] *)
Definition py_str (v : json) : str :=
  match v with
  | JStr s => s
  | _ => py_repr v
  end.

(** One token for each character. *)
Definition encode (s : str) : list Z := map Z.of_N s.

Definition str_tool_calls (tool_calls : list ToolCall) : str :=
  "[" ++ join ", " (map (fun tc => "{'id': '" ++ tc_id tc
                                      ++ "', 'function': {'arguments': '"
                                      ++ fn_arguments tc ++ "', 'name': '"
                                      ++ fn_name tc
                                      ++ "'}, 'type': 'function'}")
                         tool_calls) ++ "]".

(** The world of the examples: the turns the endpoint has still to give,
    and the calls the browser has carried out, the latest last. *)
Definition ExampleWorld : Type :=
  list (option str * list ToolCall) * list (str * json).

(** A browser that carries every call out. *)
Definition browser_tool (fname : str) (args : json) : M ExampleWorld str :=
  fun w => (Ok ("Done: " ++ fname), (fst w, snd w ++ [(fname, args)])).

Definition bind_error (fname : str) (args : json) : str :=
  fname ++ "() got unexpected arguments".

(** [s.find(sub)], when [sub] occurs *)
Fixpoint find (sub s : str) : option Z :=
  if startswith sub s then Some 0
  else match s with
       | [] => None
       | _ :: r => Z.succ <$> find sub r
       end.

(** What rich raises on a closing tag that no tag before it opened; of such
    tags the console of the examples knows [[/b]], which no text of the
    source opens. *)
Definition markup_error (markup : str) : option str :=
  match find "[/b]" markup with
  | Some position =>
      Some ("closing tag '[/b]' at position " ++ py_int position
              ++ " doesn't match any open tag")
  | None => None
  end.

Definition render_str (markup : str) : M ExampleWorld unit :=
  match markup_error markup with
  | Some e => raise e
  | None => ret tt
  end.

(** The console of the examples: it reads a string, and a string in a
    panel, as markup, and fails on a panel around a value that is not a
    string as rich does. *)
Definition console_print (r : Renderable) : M ExampleWorld unit :=
  match r with
  | Text markup => render_str markup
  | Panel (JStr markup) _ _ => render_str markup
  | Panel v _ _ =>
      raise ("Unable to render " ++ py_repr v
               ++ "; A str, Segment or object with __rich_console__ method is required")
  | MarkdownPanel _ _ _ => ret tt
  end.

Definition console_rule (title : str) : M ExampleWorld unit :=
  render_str title.

(** The operator answers yes. *)
Definition console_input (prompt : str) : M ExampleWorld str :=
  bind (render_str prompt) (fun _ => ret "yes").

(** An endpoint that plays a script; when the script has run out the
    request fails. *)
Definition chat_completion (role : Role) (a : Agent)
  : M ExampleWorld (option str * list ToolCall) :=
  fun w =>
    match fst w with
    | [] => (Exn "Connection error.", w)
    | turn :: later => (Ok turn, (later, snd w))
    end.

Definition example_env : Environment := {|
  World := ExampleWorld;
  AgentLoop.json_loads := json_loads;
  AgentLoop.py_str := py_str;
  AgentLoop.encode := encode;
  AgentLoop.str_tool_calls := str_tool_calls;
  AgentLoop.browser_tool := browser_tool;
  AgentLoop.bind_error := bind_error;
  AgentLoop.console_print := console_print;
  AgentLoop.console_rule := console_rule;
  AgentLoop.console_input := console_input;
  AgentLoop.chat_completion := chat_completion
|}.

(** The endpoint that cannot be reached, with a console that keeps what
    it is given, the latest last, and raises on nothing. *)
Definition unreachable_env : Environment := {|
  World := list Renderable;
  AgentLoop.json_loads := json_loads;
  AgentLoop.py_str := py_str;
  AgentLoop.encode := encode;
  AgentLoop.str_tool_calls := str_tool_calls;
  AgentLoop.browser_tool := fun fname args => ret ("Done: " ++ fname);
  AgentLoop.bind_error := bind_error;
  AgentLoop.console_print := fun r w => (Ok tt, w ++ [r]);
  AgentLoop.console_rule := fun title w => (Ok tt, w ++ [Text title]);
  AgentLoop.console_input := fun prompt => ret "yes";
  AgentLoop.chat_completion := fun role a => raise "Connection error."
|}.

Definition scroll_call : ToolCall := mkToolCall "call_1" "scroll" scroll_args.

Definition set_plan_call : ToolCall := mkToolCall "call_2" "set_plan" plan_args.

Definition broken_set_plan_call : ToolCall :=
  mkToolCall "call_3" "set_plan" broken_args.

Definition mark_done_call : ToolCall :=
  mkToolCall "call_4" "mark_step_done" summary_args.

Definition finish_call : ToolCall :=
  mkToolCall "call_5" "finish_task" finish_args.

Definition list_plan_call : ToolCall := mkToolCall "call_6" "set_plan" "[1]".

Definition fly_call : ToolCall := mkToolCall "call_7" "fly" "{}".

Definition markup_call : ToolCall := mkToolCall "call_8" "scroll" markup_args.

Definition number_finish_call : ToolCall :=
  mkToolCall "call_9" "finish_task" number_finish_args.

Definition markup_plan_call : ToolCall :=
  mkToolCall "call_10" "set_plan" markup_plan_args.

(** The scroll again, as later turns ask for it. *)
Definition scroll_call_2 : ToolCall := mkToolCall "call_11" "scroll" scroll_args.
Definition scroll_call_3 : ToolCall := mkToolCall "call_12" "scroll" scroll_args.
Definition scroll_call_4 : ToolCall := mkToolCall "call_13" "scroll" scroll_args.

(** The action of the scrolls. *)
Definition scroll_action : str * str := ("scroll", "{'direction': 'down'}").

(** A string of [n] characters. *)
Definition filler (n : positive) : str := Pos.iter (cons 120%N) [] n.

(** A browser of numbered tabs: its state is the list of the open ones. *)
Definition tabs : ContextAPI (list nat) nat := {|
  context_pages := fun w => w;
  page_title := fun p => ret ("Tab " ++ py_int (Z.of_nat p));
  page_goto := fun p url => ret tt;
  page_close := fun p w => (Ok tt, List.filter (fun q => negb (Nat.eqb q p)) w);
  page_bring_to_front := fun p => ret tt;
  first_is_visible := fun p sel => ret false;
  first_click_force := fun p sel => ret tt
|}.

(** A browser whose visibility check times out. *)
Definition stuck_tabs : ContextAPI (list nat) nat := {|
  context_pages := fun w => w;
  page_title := fun p => ret ("Tab " ++ py_int (Z.of_nat p));
  page_goto := fun p url => ret tt;
  page_close := fun p => ret tt;
  page_bring_to_front := fun p => ret tt;
  first_is_visible := fun p sel => raise "Timeout 500ms exceeded.";
  first_click_force := fun p sel => ret tt
|}.

(** A browser that cannot load: its state is the list of the addresses it
    was sent to, the latest last. *)
Definition offline : ContextAPI (list str) nat := {|
  context_pages := fun w => [];
  page_title := fun p => ret "";
  page_goto := fun p url w => (Exn "net::ERR_INTERNET_DISCONNECTED", w ++ [url]);
  page_close := fun p => ret tt;
  page_bring_to_front := fun p => ret tt;
  first_is_visible := fun p sel => ret false;
  first_click_force := fun p sel => ret tt
|}.

End AgentExamples.

(** ** Further definitions the properties are written against *)

Module Checks.
Import PyStr Eff Accessibility AgentLoop.

(** *** Trees *)

(** [c in s], for a character *)
Fixpoint has_char (c : char) (s : str) : bool :=
  match s with
  | [] => false
  | x :: r => N.eqb x c || has_char c r
  end.

(** No node of the tree, the root included, has a name that is not blank. *)
Fixpoint all_blank (n : RawNode) : bool :=
  negb (truthy (strip (name n))) && forallb all_blank (children n).

(** The node puts a line of its own into the report. *)
Definition emits_line (n : RawNode) : bool :=
  let shown := display_name (final_name n) in
  is_interactive n || is_heading n
  || (is_content n
      && (contains "₽" shown || contains "$" shown || contains "€" shown
          || (20 <? len shown))).

(** No node of the tree puts a line into the report. *)
Fixpoint quiet (n : RawNode) : bool :=
  negb (emits_line n) && forallb quiet (children n).

(** The loop of [_traverse] over the children of a node. *)
Definition traverse_children (cs : list RawNode)
    (st : gmap Z ElementInfo * list str) :=
  fold_left (fun st child => _traverse child st) cs st.

(** *** The agent loop *)

Section WithEnvironment.
Context {env : Environment}.

(** The token cost of a list of entries. *)
Definition total_tokens (msgs : list Message) : Z :=
  fold_right (fun msg total => msg_tokens msg + total) 0 msgs.

(** A computation under which a property of the agent, once it holds, goes
    on holding, however the computation ends. *)
Definition preserves {A} (P : Agent -> Prop) (c : M (Agent * World) A) : Prop :=
  forall s r s', c s = (r, s') -> P (fst s) -> P (fst s').

(** A computation that never raises. *)
Definition returns {S A} (c : M S A) : Prop :=
  forall s, exists x s', c s = (Ok x, s').

(** The tool entries for the given calls, in order, with the given
    contents. *)
Fixpoint tool_entries (tool_calls : list ToolCall) (contents : list str)
  : list Message :=
  match tool_calls, contents with
  | tc :: tcs, c :: cs => Tool (tc_id tc) c :: tool_entries tcs cs
  | _, _ => []
  end.

(** A property of the agent that no assignment of the loop to a field can
    break: the loop assigns any value to the history, the plan, the notes
    and the two fields of the loop guard, and only [True] to
    [has_planned]. *)
Definition stable (P : Agent -> Prop) : Prop :=
  forall a, P a ->
    (forall h, P (with_history h a))
    /\ (forall p, P (with_plan p a))
    /\ (forall n, P (with_notes n a))
    /\ (forall l, P (with_last_action l a))
    /\ (forall c, P (with_repeated_action_count c a))
    /\ P (with_has_planned true a).

(** A name that [run] does not handle itself and [tools_map] does not
    hold. *)
Definition unknown_tool (fname : str) : bool :=
  negb (existsb (eqb fname)
          (["set_plan"; "finish_task"; "mark_step_done"; "ask_user"]
             ++ BROWSER_TOOLS)).

End WithEnvironment.

End Checks.

(** * Theorems *)

(** ** Facts about the string operations *)

Module StringFacts.
Import PyStr Reference.

Lemma eqb_eq (a b : str) : eqb a b = true <-> a = b.
Proof.
  revert b. induction a as [|x a IH]; intros [|y b]; simpl;
    try (split; [discriminate | discriminate]); [tauto |].
  rewrite andb_true_iff, N.eqb_eq, IH. split.
  - now intros [-> ->].
  - now intros [= -> ->].
Qed.

Lemma eqb_refl (a : str) : eqb a a = true.
Proof. now apply eqb_eq. Qed.

Lemma eqb_neq (a b : str) : eqb a b = false <-> a <> b.
Proof.
  rewrite <- eqb_eq. destruct (eqb a b); split; congruence.
Qed.

Lemma lstrip_length (s : str) : (length (lstrip s) <= length s)%nat.
Proof.
  induction s as [|c s IH]; simpl; [lia |].
  destruct (is_space c); simpl; lia.
Qed.

(** A string [lstrip] leaves alone is empty or starts with a character that
    is not white space. *)
Lemma lstrip_fixed_head (c : char) (r : str) :
  lstrip (c :: r) = c :: r -> is_space c = false.
Proof.
  simpl. destruct (is_space c); [|reflexivity].
  intros E. pose proof (lstrip_length r) as L. rewrite E in L. simpl in L. lia.
Qed.

Lemma lstrip_head (c : char) (r : str) :
  is_space c = false -> lstrip (c :: r) = c :: r.
Proof. intros E. simpl. now rewrite E. Qed.

Lemma lstrip_idem (s : str) : lstrip (lstrip s) = lstrip s.
Proof.
  induction s as [|c s IH]; simpl; [reflexivity |].
  destruct (is_space c) eqn:E; [exact IH | now apply lstrip_head].
Qed.

Lemma rstrip_idem (s : str) : rstrip (rstrip s) = rstrip s.
Proof.
  induction s as [|c s IH]; simpl; [reflexivity |].
  destruct (rstrip s) as [|c' r'] eqn:E.
  - destruct (is_space c) eqn:Ec; simpl; [reflexivity | now rewrite Ec].
  - simpl. simpl in IH. now rewrite IH.
Qed.

Lemma rstrip_keeps_head (c : char) (r : str) :
  is_space c = false -> exists r', rstrip (c :: r) = c :: r'.
Proof.
  intros E. simpl. destruct (rstrip r).
  - rewrite E. now exists [].
  - eauto.
Qed.

Lemma lstrip_rstrip (s : str) :
  lstrip s = s -> lstrip (rstrip s) = rstrip s.
Proof.
  destruct s as [|c r]; [reflexivity |].
  intros E. apply lstrip_fixed_head in E.
  destruct (rstrip_keeps_head c r E) as [r' ->]. now apply lstrip_head.
Qed.

Lemma strip_clean (s : str) : truthy (strip s) = true -> clean (strip s).
Proof.
  intros T. unfold strip in *. repeat split; [exact T | |].
  - apply lstrip_rstrip, lstrip_idem.
  - apply rstrip_idem.
Qed.

Lemma clean_strip (s : str) : clean s -> strip s = s.
Proof. intros (_ & L & R). unfold strip. now rewrite L, R. Qed.

Lemma truthy_app_r (a b : str) : truthy b = true -> truthy (a ++ b) = true.
Proof. destruct a; [trivial | reflexivity]. Qed.

Lemma truthy_app_l (a b : str) : truthy a = true -> truthy (a ++ b) = true.
Proof. destruct a; [discriminate | reflexivity]. Qed.

Lemma lstrip_app (a b : str) :
  truthy a = true -> lstrip a = a -> lstrip (a ++ b) = a ++ b.
Proof.
  destruct a as [|c r]; [discriminate |]. intros _ E.
  apply lstrip_fixed_head in E. now apply lstrip_head.
Qed.

Lemma rstrip_app (a b : str) :
  truthy b = true -> rstrip b = b -> rstrip (a ++ b) = a ++ b.
Proof.
  intros T E. induction a as [|c a IH]; [exact E |].
  simpl. rewrite IH. pose proof (truthy_app_r a b T) as T'.
  destruct (a ++ b); [discriminate | reflexivity].
Qed.




Lemma join_cons (sep x : str) (y : str) (l : list str) :
  join sep (x :: y :: l) = x ++ sep ++ join sep (y :: l).
Proof. reflexivity. Qed.

Lemma join_clean (l : list str) :
  Forall clean l -> l <> [] -> clean (join " " l).
Proof.
  induction 1 as [|x l Hx Hl IH]; [congruence |]. intros _.
  destruct l as [|y l].
  - exact Hx.
  - rewrite join_cons.
    destruct (IH ltac:(discriminate)) as (T & L & R).
    destruct Hx as (Tx & Lx & Rx).
    repeat split.
    + now apply truthy_app_l.
    + now apply lstrip_app.
    + apply rstrip_app; [now apply truthy_app_r |].
      set (J := join " " (y :: l)) in *.
      change (" " ++ J) with (32%N :: J).
      change (rstrip (32%N :: J)) with
        (match rstrip J with
         | [] => if is_space 32%N then [] else [32%N]
         | r' => 32%N :: r'
         end).
      rewrite R. destruct J; [discriminate | reflexivity].
Qed.

Lemma join_truthy_nil (l : list str) :
  Forall clean l -> truthy (join " " l) = false -> l = [].
Proof.
  intros H T. destruct l as [|x l]; [reflexivity |].
  destruct (join_clean (x :: l) H ltac:(discriminate)) as (T' & _).
  congruence.
Qed.

Lemma strip_join_clean (l : list str) :
  Forall clean l -> strip (join " " l) = join " " l.
Proof.
  intros H. destruct l as [|x l]; [reflexivity |].
  apply clean_strip, join_clean; [exact H | discriminate].
Qed.

Lemma join_app (l1 l2 : list str) :
  l1 <> [] -> l2 <> [] ->
  join " " (l1 ++ l2) = join " " l1 ++ " " ++ join " " l2.
Proof.
  intros H1 H2. induction l1 as [|x l1 IH]; [congruence |].
  destruct l1 as [|y l1].
  - destruct l2 as [|z l2]; [congruence | reflexivity].
  - change ((x :: y :: l1) ++ l2) with (x :: y :: (l1 ++ l2)).
    rewrite !join_cons.
    change (y :: l1 ++ l2) with ((y :: l1) ++ l2).
    rewrite IH by discriminate.
    now rewrite <- !app_assoc.
Qed.

(** Joining the non-empty joins of clean lists is joining their
    concatenation. *)
Lemma join_filter_joins (ls : list (list str)) :
  Forall (Forall clean) ls ->
  join " " (List.filter truthy (map (join " ") ls)) = join " " (concat ls).
Proof.
  induction 1 as [|l ls Hl Hls IH]; [reflexivity |].
  simpl map. simpl List.filter. simpl concat.
  destruct (truthy (join " " l)) eqn:T.
  - assert (l <> []) as Hne by (intros ->; discriminate).
    assert (Forall clean (concat ls)) as Hc.
    { clear -Hls. induction Hls; simpl; [constructor |].
      now apply Forall_app. }
    destruct (List.filter truthy (map (join " ") ls)) as [|y r] eqn:F.
    + simpl in IH. symmetry in IH.
      assert (concat ls = []) as ->
        by (apply join_truthy_nil; [exact Hc | now rewrite IH]).
      now rewrite app_nil_r.
    + destruct (concat ls) as [|z r'] eqn:C.
      * exfalso. simpl in IH.
        assert (truthy y = true) as Ty.
        { assert (In y (List.filter truthy (map (join " ") ls))) as I
            by (rewrite F; now left).
          apply filter_In in I. tauto. }
        destruct y as [|c y]; [discriminate |].
        destruct r; discriminate IH.
      * rewrite join_cons, IH. rewrite join_app; [reflexivity | exact Hne | discriminate].
  - apply join_truthy_nil in T as ->; [exact IH | exact Hl].
Qed.

Lemma replace_char_length (old new : char) (s : str) :
  length (replace_char old new s) = length s.
Proof. induction s as [|c s IH]; simpl; [reflexivity | now rewrite IH]. Qed.

Lemma slice_to_split (n : Z) (s : str) :
  exists rest,
    s = slice_to n s ++ rest
    /\ length (slice_to n s) = min (Z.to_nat n) (length s).
Proof.
  exists (drop (Z.to_nat n) s). unfold slice_to.
  now rewrite take_drop, length_take.
Qed.

End StringFacts.

Module AccessibilityFacts.
Import PyStr Accessibility Reference Checks StringFacts.

Lemma nearest_names_of_clean (n : RawNode) : Forall clean (nearest_names_of n).
Proof.
  induction n as [r n v c l d cs IH] using RawNode_forall_ind.
  simpl. destruct (truthy (strip n)) eqn:T.
  - constructor; [now apply strip_clean | constructor].
  - induction IH as [|child rest Hc _ IHrest]; simpl; [constructor |].
    now apply Forall_app.
Qed.

Lemma nearest_names_clean (cs : list RawNode) : Forall clean (nearest_names cs).
Proof.
  unfold nearest_names. induction cs as [|c cs IH]; simpl; [constructor |].
  apply Forall_app. split; [apply nearest_names_of_clean | exact IH].
Qed.

(** The loop and join of [_collect_text], once each child's item is the
    join of its nearest names. *)
Lemma collect_join (cs : list RawNode) :
  Forall (fun c => collect_child c = join " " (nearest_names_of c)) cs ->
  strip (join " " (List.filter truthy (map collect_child cs)))
  = join " " (nearest_names cs).
Proof.
  intros H.
  assert (map collect_child cs = map (join " ") (map nearest_names_of cs)) as ->.
  { induction H as [|c cs Hc _ IH]; simpl; [reflexivity | now rewrite Hc, IH]. }
  rewrite join_filter_joins.
  - apply strip_join_clean, nearest_names_clean.
  - apply Forall_map, Forall_forall. intros c _. apply nearest_names_of_clean.
Qed.

Lemma collect_child_nearest (n : RawNode) :
  collect_child n = join " " (nearest_names_of n).
Proof.
  induction n as [r n v c l d cs IH] using RawNode_forall_ind.
  simpl. destruct (truthy (strip n)) eqn:T; [reflexivity |].
  now apply collect_join.
Qed.

Lemma collect_text_nearest (cs : list RawNode) :
  _collect_text cs = join " " (nearest_names cs).
Proof.
  unfold _collect_text. apply collect_join, Forall_forall.
  intros c _. apply collect_child_nearest.
Qed.


(** *** The elements map as the traversal builds it *)

Lemma registry_snoc (l : list RawNode) (n : RawNode) :
  registry (l ++ [n])
  = <[len_map (registry l) + 1 := element_of (len_map (registry l) + 1) n]>
      (registry l).
Proof. unfold registry. now rewrite fold_left_app. Qed.

Lemma registry_spec (l : list RawNode) :
  size (registry l) = length l /\ forall k, registry l !! k = registry_at l k.
Proof.
  induction l as [|n l [IHs IHl]] using rev_ind.
  - split; [reflexivity |]. intros k. unfold registry_at.
    case_decide; [now rewrite lookup_nil | reflexivity].
  - rewrite registry_snoc. unfold len_map. rewrite IHs.
    assert (registry l !! (Z.of_nat (length l) + 1) = None) as Hfresh.
    { rewrite IHl. unfold registry_at. case_decide; [|reflexivity].
      rewrite lookup_ge_None_2; [reflexivity | lia]. }
    split.
    + rewrite map_size_insert_None by exact Hfresh.
      rewrite IHs, length_app. simpl. lia.
    + intros k. destruct (decide (k = Z.of_nat (length l) + 1)) as [->|Hne].
      * rewrite lookup_insert_eq. unfold registry_at.
        case_decide; [|lia].
        replace (Z.to_nat (Z.of_nat (length l) + 1 - 1)) with (length l) by lia.
        now rewrite list_lookup_middle.
      * rewrite lookup_insert_ne by congruence. rewrite IHl.
        unfold registry_at. case_decide; [|reflexivity].
        destruct (decide (Z.to_nat (k - 1) < length l)%nat) as [Hlt|Hge].
        -- now rewrite lookup_app_l.
        -- rewrite !lookup_ge_None_2; [reflexivity | | lia].
           rewrite length_app. simpl. lia.
Qed.

Lemma registry_size (l : list RawNode) : len_map (registry l) = Z.of_nat (length l).
Proof. unfold len_map. now rewrite (proj1 (registry_spec l)). Qed.

Lemma traverse_eq (node : RawNode) (st : gmap Z ElementInfo * list str) :
  _traverse node st
  = if 800 <=? len_map (fst st) then st
    else if negb (is_interactive node || is_heading node || is_content node)
    then fold_left (fun st child => _traverse child st) (children node) st
    else fold_left (fun st child => _traverse child st) (children node)
                   (emit node st).
Proof. destruct node; reflexivity. Qed.

Lemma interactive_nodes_eq (node : RawNode) :
  interactive_nodes node
  = (if is_interactive node then [node] else [])
    ++ concat (map interactive_nodes (children node)).
Proof. destruct node; reflexivity. Qed.

Lemma interactive_not_heading (n : RawNode) :
  is_interactive n = true -> is_heading n = false.
Proof.
  unfold is_interactive, is_heading, role_in, INTERACTIVE_ROLES.
  cbn [existsb]. rewrite !orb_true_iff.
  intros H. repeat (destruct H as [H|H]; [apply eqb_eq in H; now rewrite H |]).
  discriminate.
Qed.

Lemma emit_interactive (n : RawNode) (m : gmap Z ElementInfo)
    (report : list str) :
  is_interactive n = true ->
  emit n (m, report)
  = (<[len_map m + 1 := element_of (len_map m + 1) n]> m,
     report ++ [element_line (len_map m + 1) n]).
Proof.
  intros Hi. unfold emit. rewrite Hi, (interactive_not_heading n Hi).
  assert (negb (len_map m + 1 =? 0) = true) as ->.
  { unfold len_map. apply negb_true_iff, Z.eqb_neq. lia. }
  unfold element_line, element_of. now rewrite <- !app_assoc.
Qed.

Lemma emit_not_interactive (n : RawNode) (m : gmap Z ElementInfo)
    (report : list str) :
  is_interactive n = false ->
  exists added, emit n (m, report) = (m, report ++ added).
Proof.
  intros Hi. unfold emit. rewrite Hi.
  destruct (is_heading n); [eauto |].
  match goal with |- context [if ?c then _ else _] => destruct c end;
    [eauto | exists []; now rewrite app_nil_r].
Qed.

Lemma emit_registry (n : RawNode) (l : list RawNode) (report : list str) :
  reaches l report (l ++ if is_interactive n then [n] else [])
          (emit n (registry l, report)).
Proof.
  destruct (is_interactive n) eqn:Hi.
  - rewrite emit_interactive by exact Hi. rewrite <- registry_snoc.
    eexists. split; [reflexivity |]. split; [now apply incl_appl |].
    intros Hok i x Hx. apply in_or_app.
    destruct (decide (i < length l)%nat) as [Hlt|Hge].
    + left. apply Hok. now rewrite lookup_app_l in Hx.
    + right. left. rewrite registry_size.
      rewrite lookup_app_r in Hx by lia.
      destruct (i - length l)%nat as [|k] eqn:Hk; [|discriminate].
      injection Hx as <-. f_equal. lia.
  - destruct (emit_not_interactive n (registry l) report Hi) as [added ->].
    rewrite app_nil_r. eexists. split; [reflexivity |].
    split; [now apply incl_appl |].
    intros Hok i x Hx. apply in_or_app. left. now apply Hok.
Qed.

(** The children loop of [_traverse], given the statement for each child. *)
Lemma traverse_children_registry (cs : list RawNode) :
  Forall (fun c => forall l report, (length l <= 800)%nat ->
            reaches l report (take 800 (l ++ interactive_nodes c))
                    (_traverse c (registry l, report))) cs ->
  forall l report, (length l <= 800)%nat ->
    reaches l report (take 800 (l ++ concat (map interactive_nodes cs)))
      (fold_left (fun st child => _traverse child st) cs (registry l, report)).
Proof.
  induction 1 as [|c cs Hc _ IH]; intros l report Hl; simpl.
  - rewrite app_nil_r, take_ge by exact Hl.
    exists report. split; [reflexivity |]. split; [apply incl_refl | auto].
  - destruct (Hc l report Hl) as (r1 & -> & Hinc1 & Hok1).
    destruct (IH (take 800 (l ++ interactive_nodes c)) r1)
      as (r2 & -> & Hinc2 & Hok2).
    { rewrite length_take. lia. }
    assert (take 800 (take 800 (l ++ interactive_nodes c)
                        ++ concat (map interactive_nodes cs))
            = take 800 (l ++ interactive_nodes c
                          ++ concat (map interactive_nodes cs))) as E.
    { rewrite app_assoc.
      destruct (decide (length (l ++ interactive_nodes c) <= 800)%nat)
        as [Hle|Hgt].
      - now rewrite (take_ge (l ++ interactive_nodes c)) by exact Hle.
      - rewrite (take_app_le (take 800 (l ++ interactive_nodes c)))
          by (rewrite length_take; lia).
        rewrite (take_app_le (l ++ interactive_nodes c)) by lia.
        now rewrite take_take. }
    rewrite E in *.
    exists r2. split; [reflexivity |].
    split; [eapply incl_tran; eassumption | auto].
Qed.

Lemma traverse_registry (n : RawNode) :
  forall l report, (length l <= 800)%nat ->
    reaches l report (take 800 (l ++ interactive_nodes n))
            (_traverse n (registry l, report)).
Proof.
  induction n as [r nm v c lv d cs IH] using RawNode_forall_ind.
  intros l report Hl. rewrite traverse_eq. cbn [fst].
  rewrite registry_size.
  destruct (800 <=? Z.of_nat (length l)) eqn:Hcap.
  - rewrite take_app_le by lia. rewrite take_ge by lia.
    exists report. split; [reflexivity |]. split; [apply incl_refl | auto].
  - apply Z.leb_gt in Hcap. rewrite interactive_nodes_eq. cbn [children].
    set (node := mkNode r nm v c lv d cs).
    destruct (negb (is_interactive node || is_heading node || is_content node))
      eqn:Htransparent.
    + assert (is_interactive node = false) as ->.
      { destruct (is_interactive node); [discriminate | reflexivity]. }
      now apply traverse_children_registry.
    + destruct (emit_registry node l report) as (r1 & -> & Hinc1 & Hok1).
      destruct (traverse_children_registry cs IH
                  (l ++ if is_interactive node then [node] else []) r1)
        as (r2 & -> & Hinc2 & Hok2).
      { rewrite length_app. destruct (is_interactive node); simpl; lia. }
      rewrite <- app_assoc in *.
      exists r2. split; [reflexivity |].
      split; [eapply incl_tran; eassumption | auto].
Qed.

(** A scan of a tree, from whatever an earlier scan left. *)
Lemma traverse_scan (tree : RawNode) :
  exists report_lines,
    _traverse tree (∅, []) 
    = (registry (take 800 (interactive_nodes tree)), report_lines)
    /\ lines_ok (take 800 (interactive_nodes tree)) report_lines.
Proof.
  destruct (traverse_registry tree [] [] ltac:(simpl; lia))
    as (r & E & _ & Hok).
  exists r. split; [exact E |]. apply Hok. intros i n Hn.
  now rewrite lookup_nil in Hn.
Qed.

Lemma scan_registry (prior : gmap Z ElementInfo) (snapshot : Snapshot) :
  snd (scan prior snapshot) = registry (take 800 (scanned_nodes snapshot)).
Proof.
  destruct snapshot as [e| |tree]; [reflexivity | reflexivity |].
  unfold scan. destruct (traverse_scan tree) as (r & -> & _).
  now destruct r.
Qed.




(** *** Names and lines *)

Lemma replace_char_gone (old new : char) (s : str) :
  N.eqb new old = false -> has_char old (replace_char old new s) = false.
Proof.
  intros Hne. induction s as [|c s IH]; simpl; [reflexivity |].
  rewrite IH, orb_false_r.
  destruct (N.eqb c old) eqn:E; [exact Hne | exact E].
Qed.

Lemma has_char_app (c : char) (a b : str) :
  has_char c (a ++ b) = has_char c a || has_char c b.
Proof.
  induction a as [|x a IH]; [reflexivity |].
  simpl. rewrite IH. now rewrite orb_assoc.
Qed.

Lemma has_char_slice (c : char) (n : Z) (s : str) :
  has_char c s = false -> has_char c (slice_to n s) = false.
Proof.
  unfold slice_to. generalize (Z.to_nat n) as k.
  induction s as [|x s IH]; intros [|k]; simpl; auto.
  rewrite orb_false_iff. intros [Hx Hs]. rewrite Hx. now apply IH.
Qed.

Lemma nearest_names_of_nil (n : RawNode) :
  nearest_names_of n = [] <-> all_blank n = true.
Proof.
  induction n as [r nm v c l d cs IH] using RawNode_forall_ind.
  simpl. destruct (truthy (strip nm)); simpl.
  - split; discriminate.
  - induction IH as [|child rest Hc _ IHrest]; simpl; [tauto |].
    rewrite andb_true_iff, <- Hc, <- IHrest.
    split.
    + intros H. apply app_eq_nil in H. tauto.
    + intros [-> ->]. reflexivity.
Qed.

Lemma nearest_names_nil (cs : list RawNode) :
  nearest_names cs = [] <-> forallb all_blank cs = true.
Proof.
  unfold nearest_names. induction cs as [|c cs IH]; simpl; [tauto |].
  rewrite andb_true_iff, <- IH, <- nearest_names_of_nil.
  split.
  - intros H. apply app_eq_nil in H. tauto.
  - intros [-> ->]. reflexivity.
Qed.

(** *** Trees that leave no line *)

Lemma emits_line_not_transparent (n : RawNode) :
  emits_line n = true ->
  negb (is_interactive n || is_heading n || is_content n) = false.
Proof.
  unfold emits_line. cbv zeta.
  destruct (is_interactive n), (is_heading n), (is_content n);
    simpl; auto.
Qed.

Lemma emit_appends (n : RawNode) (m : gmap Z ElementInfo)
    (report : list str) :
  exists m' added, emit n (m, report) = (m', report ++ added).
Proof.
  unfold emit.
  destruct (is_heading n); [eauto |].
  destruct (is_interactive n).
  - destruct (negb _); [eauto |].
    match goal with |- context [if ?c then _ else _] => destruct c end;
      [eauto | eexists _, []; now rewrite app_nil_r].
  - match goal with |- context [if ?c then _ else _] => destruct c end;
      [eauto | eexists _, []; now rewrite app_nil_r].
Qed.

Lemma emit_one_line (n : RawNode) (m : gmap Z ElementInfo)
    (report : list str) :
  emits_line n = true ->
  exists m' line, emit n (m, report) = (m', report ++ [line]).
Proof.
  intros He. destruct (is_interactive n) eqn:Hi.
  - rewrite emit_interactive by exact Hi. eauto.
  - unfold emits_line in He. cbv zeta in He. rewrite Hi in He. simpl in He.
    unfold emit. rewrite Hi. destruct (is_heading n); [eauto |].
    simpl in He. apply andb_true_iff in He as [_ He]. rewrite He. eauto.
Qed.

(** A node without a line of its own hands the state on to its children as
    it got it. *)
Lemma traverse_silent_node (n : RawNode)
    (st : gmap Z ElementInfo * list str) :
  emits_line n = false ->
  len_map (fst st) < 800 ->
  _traverse n st = traverse_children (children n) st.
Proof.
  intros He Hcap. rewrite traverse_eq.
  apply Z.leb_gt in Hcap. rewrite Hcap.
  destruct (negb (is_interactive n || is_heading n || is_content n)) eqn:Ht;
    [reflexivity |].
  unfold emits_line in He. cbv zeta in He.
  apply orb_false_iff in He as [He Hc].
  apply orb_false_iff in He as [Hi Hh].
  rewrite Hi, Hh in Ht. simpl in Ht. apply negb_false_iff in Ht.
  rewrite Ht in Hc. simpl in Hc.
  destruct st as [m report]. unfold emit. now rewrite Hi, Hh, Hc.
Qed.

Lemma traverse_quiet (n : RawNode) :
  quiet n = true -> forall st, _traverse n st = st.
Proof.
  induction n as [r nm v c l d cs IH] using RawNode_forall_ind.
  intros Hq st. simpl in Hq. apply andb_true_iff in Hq as [He Hcs].
  apply negb_true_iff in He.
  destruct (800 <=? len_map (fst st)) eqn:Hcap.
  - rewrite traverse_eq. now rewrite Hcap.
  - apply Z.leb_gt in Hcap. rewrite traverse_silent_node by assumption.
    cbn [children]. clear He Hcap.
    induction IH as [|child rest Hc _ IHrest]; [reflexivity |].
    simpl in Hcs. apply andb_true_iff in Hcs as [Hq1 Hq2].
    unfold traverse_children. simpl. rewrite Hc by exact Hq1.
    now apply IHrest.
Qed.

Lemma traverse_children_appends (cs : list RawNode) :
  Forall (fun c => forall m report,
            exists m' added, _traverse c (m, report) = (m', report ++ added))
         cs ->
  forall m report,
    exists m' added, traverse_children cs (m, report) = (m', report ++ added).
Proof.
  induction 1 as [|c cs Hc _ IH]; intros m report.
  - exists m, []. now rewrite app_nil_r.
  - unfold traverse_children. simpl.
    destruct (Hc m report) as (m1 & a1 & ->).
    destruct (IH m1 (report ++ a1)) as (m2 & a2 & E).
    unfold traverse_children in E. rewrite E.
    exists m2, (a1 ++ a2). now rewrite app_assoc.
Qed.

(** The traversal only ever adds lines at the end of the report. *)
Lemma traverse_appends (n : RawNode) :
  forall m report,
    exists m' added, _traverse n (m, report) = (m', report ++ added).
Proof.
  induction n as [r nm v c l d cs IH] using RawNode_forall_ind.
  intros m report. rewrite traverse_eq. cbn [fst children].
  destruct (800 <=? len_map m); [exists m, []; now rewrite app_nil_r |].
  destruct (negb _).
  - now apply traverse_children_appends.
  - destruct (emit_appends (mkNode r nm v c l d cs) m report)
      as (m1 & a1 & ->).
    destruct (traverse_children_appends cs IH m1 (report ++ a1))
      as (m2 & a2 & E).
    unfold traverse_children in E. rewrite E.
    exists m2, (a1 ++ a2). now rewrite app_assoc.
Qed.

(** A tree that is not quiet adds a line, as long as the cap leaves room
    when the traversal enters it. *)
Lemma traverse_not_quiet (n : RawNode) :
  quiet n = false ->
  forall m report,
    len_map m < 800 ->
    exists m' line added,
      _traverse n (m, report) = (m', report ++ line :: added).
Proof.
  induction n as [r nm v c l d cs IH] using RawNode_forall_ind.
  intros Hq m report Hcap.
  set (node := mkNode r nm v c l d cs) in *.
  destruct (emits_line node) eqn:He.
  - rewrite traverse_eq. cbn [fst].
    apply Z.leb_gt in Hcap. rewrite Hcap.
    rewrite (emits_line_not_transparent node He).
    destruct (emit_one_line node m report He) as (m1 & line & ->).
    destruct (traverse_children_appends (children node)
                ltac:(apply Forall_forall; intros x _; apply traverse_appends)
                m1 (report ++ [line])) as (m2 & a2 & E).
    unfold traverse_children in E. rewrite E.
    exists m2, line, a2. now rewrite <- app_assoc.
  - rewrite (traverse_silent_node node (m, report) He Hcap).
    assert (forallb quiet cs = false) as Hcs.
    { simpl in Hq. unfold node in He. simpl in He. fold node in He.
      change (emits_line node) with (emits_line (mkNode r nm v c l d cs)) in He.
      rewrite He in Hq. exact Hq. }
    cbn [children]. clear Hq He. revert m report Hcap.
    induction IH as [|child rest Hc _ IHrest]; intros m report Hcap;
      [discriminate |].
    simpl in Hcs. unfold traverse_children. simpl.
    destruct (quiet child) eqn:Hq1.
    + rewrite (traverse_quiet child Hq1). now apply IHrest.
    + destruct (Hc eq_refl m report Hcap) as (m1 & line & a1 & ->).
      destruct (traverse_children_appends rest
                  ltac:(apply Forall_forall; intros x _; apply traverse_appends)
                  m1 (report ++ line :: a1)) as (m2 & a2 & E).
      unfold traverse_children in E. rewrite E.
      exists m2, line, (a1 ++ a2). now rewrite <- app_assoc.
Qed.

End AccessibilityFacts.

Module HistoryFacts.
Import PyStr Eff AgentLoop Reference Checks StringFacts.

Section WithTokenizer.
Context {env : Environment}.

(** The loop only ever appends to what it has kept. *)
Lemma keep_loop_acc (msgs : list Message) (total : Z) (kept : list Message) :
  keep_loop msgs total kept
  = kept ++ keep_loop msgs total [].
Proof.
  revert total kept. induction msgs as [|msg rest IH]; intros total kept; simpl.
  - now rewrite app_nil_r.
  - destruct (TOKEN_LIMIT <? total + msg_tokens msg).
    + now rewrite app_nil_r.
    + rewrite (IH _ (kept ++ [msg])), (IH _ [msg]).
      now rewrite <- app_assoc.
Qed.

(** Going over what the loop kept, with the same running total, keeps
    all of it. *)
Lemma keep_loop_fixed (msgs : list Message) (total : Z) :
  keep_loop
            (keep_loop msgs total []) total []
  = keep_loop msgs total [].
Proof.
  revert total. induction msgs as [|msg rest IH]; intros total; simpl.
  - reflexivity.
  - destruct (TOKEN_LIMIT <? total + msg_tokens msg)
      eqn:E; [reflexivity |].
    rewrite (keep_loop_acc rest _ [msg]). simpl. rewrite E.
    rewrite (keep_loop_acc _ _ [msg]). now rewrite IH.
Qed.

Lemma prune_idempotent (history : list Message) :
  prune (prune history)
  = prune history.
Proof.
  unfold prune. rewrite rev_involutive. now rewrite keep_loop_fixed.
Qed.

Lemma prune_snoc (history : list Message) (msg : Message) :
  prune (history ++ [msg])
  = if TOKEN_LIMIT <? msg_tokens msg then []
    else rev (keep_loop (rev history)
                        (msg_tokens msg) [])
         ++ [msg].
Proof.
  unfold prune. rewrite rev_app_distr. simpl. rewrite Z.add_0_l.
  destruct (TOKEN_LIMIT <? msg_tokens msg);
    [reflexivity |].
  rewrite keep_loop_acc. now rewrite rev_app_distr.
Qed.

Lemma msg_tokens_nonneg (msg : Message) : 0 <= msg_tokens msg.
Proof. unfold msg_tokens. lia. Qed.

Lemma total_tokens_nonneg (msgs : list Message) : 0 <= total_tokens msgs.
Proof.
  induction msgs as [|m msgs IH]; simpl; [lia |].
  pose proof (msg_tokens_nonneg m). lia.
Qed.

Lemma total_tokens_app (l1 l2 : list Message) :
  total_tokens (l1 ++ l2) = total_tokens l1 + total_tokens l2.
Proof. induction l1 as [|m l1 IH]; simpl; [reflexivity | rewrite IH; lia]. Qed.

Lemma total_tokens_rev (l : list Message) :
  total_tokens (rev l) = total_tokens l.
Proof.
  induction l as [|m l IH]; simpl; [reflexivity |].
  rewrite total_tokens_app, IH. simpl. lia.
Qed.

(** What the loop keeps is a front part of what it walks. *)
Lemma keep_loop_front (msgs : list Message) (total : Z) :
  exists rest, msgs = keep_loop msgs total [] ++ rest.
Proof.
  revert total. induction msgs as [|m msgs IH]; intros total; simpl.
  - now exists [].
  - destruct (TOKEN_LIMIT <? total + msg_tokens m).
    + now exists (m :: msgs).
    + destruct (IH (total + msg_tokens m)) as [rest E].
      exists rest. rewrite (keep_loop_acc msgs _ [m]). simpl. now rewrite <- E.
Qed.

Lemma keep_loop_within (msgs : list Message) (total : Z) :
  total <= TOKEN_LIMIT ->
  total + total_tokens (keep_loop msgs total []) <= TOKEN_LIMIT.
Proof.
  revert total. induction msgs as [|m msgs IH]; intros total Ht; simpl.
  - lia.
  - destruct (TOKEN_LIMIT <? total + msg_tokens m) eqn:E; simpl; [lia |].
    apply Z.ltb_ge in E. rewrite (keep_loop_acc msgs _ [m]). simpl.
    specialize (IH (total + msg_tokens m) E). lia.
Qed.

Lemma keep_loop_stops (msgs rest : list Message) (m : Message) (total : Z) :
  msgs = keep_loop msgs total [] ++ m :: rest ->
  TOKEN_LIMIT < total + total_tokens (keep_loop msgs total []) + msg_tokens m.
Proof.
  revert total. induction msgs as [|x msgs IH]; intros total; simpl.
  - discriminate.
  - destruct (TOKEN_LIMIT <? total + msg_tokens x) eqn:E.
    + simpl. intros [= -> ->]. apply Z.ltb_lt in E. lia.
    + rewrite (keep_loop_acc msgs _ [x]). simpl. intros [= Hx].
      specialize (IH _ Hx). lia.
Qed.

Lemma keep_loop_all (msgs : list Message) (total : Z) :
  total + total_tokens msgs <= TOKEN_LIMIT ->
  keep_loop msgs total [] = msgs.
Proof.
  revert total. induction msgs as [|m msgs IH]; intros total Ht; simpl.
  - reflexivity.
  - simpl in Ht. pose proof (total_tokens_nonneg msgs).
    destruct (TOKEN_LIMIT <? total + msg_tokens m) eqn:E.
    + apply Z.ltb_lt in E. lia.
    + rewrite (keep_loop_acc msgs _ [m]). simpl. rewrite IH; [reflexivity | lia].
Qed.

End WithTokenizer.

End HistoryFacts.

Create HintDb guard.
Create HintDb keep.
Create HintDb console.

Module LoopFacts.
Import PyStr Eff AgentLoop Reference Checks StringFacts.

Ltac run_eff :=
  cbv [bind try_except lift ret raise get_agent modify_agent on_world print];
  cbn [fst snd].

Section WithEnvironment.
Context {env : Environment}.

(** *** [_add_tool_result] *)

Lemma add_tool_result_prints (tool_id result : str) (s : Agent * World)
    (w' : World) :
  prints (result_line result) (snd s) w' ->
  _add_tool_result tool_id result s
  = (Ok tt, (with_entry tool_id (stored_result result) (fst s), w')).
Proof.
  unfold prints, _add_tool_result. intros H. run_eff. now rewrite H.
Qed.

Lemma add_tool_result_raises (tool_id result e : str) (s : Agent * World)
    (w' : World) :
  console_print (result_line result) (snd s) = (Exn e, w') ->
  _add_tool_result tool_id result s = (Exn e, (fst s, w')).
Proof.
  unfold _add_tool_result. intros H. run_eff. now rewrite H.
Qed.

(** *** The [try] block, case by case *)

Lemma try_block_parse_error (tc : ToolCall) (e : str) (s : Agent * World) :
  json_loads (fn_arguments tc) = Exn e ->
  try_block tc s = (Exn e, s).
Proof. intros He. unfold try_block. run_eff. now rewrite He. Qed.

Lemma try_block_not_object (tc : ToolCall) (args : json) (s : Agent * World) :
  fn_name tc = "set_plan" \/ fn_name tc = "finish_task" ->
  json_loads (fn_arguments tc) = Ok args ->
  (forall kv, args <> JDict kv) ->
  try_block tc s
  = (Exn ("'" ++ type_name args ++ "' object has no attribute 'get'"), s).
Proof.
  intros Hn Ha Hobj. unfold try_block. run_eff. rewrite Ha.
  destruct Hn as [-> | ->]; cbn [eqb N.eqb Pos.eqb andb];
    destruct args; try reflexivity; now destruct (Hobj kv).
Qed.

Lemma try_block_set_plan (tc : ToolCall) (kv : list (str * json))
    (s : Agent * World) :
  fn_name tc = "set_plan" ->
  json_loads (fn_arguments tc) = Ok (JDict kv) ->
  try_block tc s
  = match console_print (plan_panel (steps_of kv)) (snd s) with
    | (Ok _, w') => (Ok PlanSet, (plan_committed (steps_of kv) (fst s), w'))
    | (Exn e, w') => (Exn e, (with_plan (steps_of kv) (fst s), w'))
    end.
Proof.
  intros Hn Ha. unfold try_block. run_eff. rewrite Ha, Hn.
  cbn [eqb N.eqb Pos.eqb andb args_get]. fold (steps_of kv).
  cbn [plan with_plan].
  destruct (console_print (plan_panel (steps_of kv)) (snd s)) as [[u|e] w'];
    reflexivity.
Qed.

Lemma try_block_finish (tc : ToolCall) (kv : list (str * json))
    (s : Agent * World) :
  fn_name tc = "finish_task" ->
  json_loads (fn_arguments tc) = Ok (JDict kv) ->
  try_block tc s
  = match console_print (done_panel (final_result_of kv)) (snd s) with
    | (Ok _, w') => (Ok Finished, (fst s, w'))
    | (Exn e, w') => (Exn e, (fst s, w'))
    end.
Proof.
  intros Hn Ha. unfold try_block. run_eff. rewrite Ha, Hn.
  cbn [eqb N.eqb Pos.eqb andb args_get]. fold (final_result_of kv).
  destruct (console_print (done_panel (final_result_of kv)) (snd s))
    as [[u|e] w']; reflexivity.
Qed.

(** The override text carries no failure keyword and is short. *)
Lemma override_kept (fname : str) :
  add_hint fname SYSTEM_OVERRIDE = SYSTEM_OVERRIDE
  /\ stored_result SYSTEM_OVERRIDE = SYSTEM_OVERRIDE.
Proof. split; reflexivity. Qed.

(** A call that reaches the loop guard. *)
Lemma try_block_guarded (tc : ToolCall) (args : json) (s : Agent * World) :
  fn_name tc <> "set_plan" ->
  fn_name tc <> "finish_task" ->
  json_loads (fn_arguments tc) = Ok args ->
  let current_action := (fn_name tc, py_str args) in
  let a1 := count_repeat current_action (fst s) in
  try_block tc s
  = if 3 <=? repeated_action_count a1
    then
      match console_print override_line (snd s) with
      | (Ok _, w') =>
          (Ok (Result SYSTEM_OVERRIDE),
           (with_last_action (Some current_action) a1, w'))
      | (Exn e, w') => (Exn e, (a1, w'))
      end
    else
      match dispatch (fn_name tc) args (a1, snd s) with
      | (Ok result, s2) =>
          (Ok (Result (add_hint (fn_name tc) result)),
           (with_last_action (Some current_action) (fst s2), snd s2))
      | (Exn e, s2) => (Exn e, s2)
      end.
Proof.
  intros Hp Hf Ha. cbv zeta. unfold try_block. run_eff.
  apply eqb_neq in Hp, Hf. rewrite Ha, Hp, Hf. cbn [fst snd].
  destruct (3 <=? repeated_action_count
                    (count_repeat (fn_name tc, py_str args) (fst s)));
    cbn [fst snd].
  - destruct (console_print override_line (snd s)) as [[u|e] w'];
      [|reflexivity].
    now rewrite (proj1 (override_kept (fn_name tc))).
  - destruct (dispatch (fn_name tc) args
                (count_repeat (fn_name tc, py_str args) (fst s), snd s))
      as [[result|e] [a2 w2]]; reflexivity.
Qed.

(** *** The body of the loop, by how its parts end *)

Lemma loop_body_call_raises (b : bool) (tc : ToolCall) (e : str)
    (s : Agent * World) (w1 : World) :
  console_print (call_line tc) (snd s) = (Exn e, w1) ->
  loop_body b tc s = (Exn e, (fst s, w1)).
Proof. intros H. unfold loop_body. run_eff. now rewrite H. Qed.

Lemma loop_body_result (tc : ToolCall) (result : str)
    (s s2 : Agent * World) (w1 w3 : World) :
  prints (call_line tc) (snd s) w1 ->
  try_block tc (fst s, w1) = (Ok (Result result), s2) ->
  prints (result_line result) (snd s2) w3 ->
  loop_body false tc s
  = (Ok Next, (with_entry (tc_id tc) (stored_result result) (fst s2), w3)).
Proof.
  unfold prints. intros H1 H2 H3. unfold loop_body. run_eff.
  rewrite H1, H2. cbn [negb].
  rewrite (add_tool_result_prints _ _ s2 w3 H3). reflexivity.
Qed.

Lemma loop_body_raised (tc : ToolCall) (e : str)
    (s s2 : Agent * World) (w1 w3 w4 : World) :
  prints (call_line tc) (snd s) w1 ->
  try_block tc (fst s, w1) = (Exn e, s2) ->
  prints (error_line (error_result (fn_name tc) e)) (snd s2) w3 ->
  prints (result_line (error_result (fn_name tc) e)) w3 w4 ->
  loop_body false tc s
  = (Ok Next,
     (with_entry (tc_id tc) (stored_result (error_result (fn_name tc) e))
        (fst s2), w4)).
Proof.
  unfold prints. intros H1 H2 H3 H4. unfold loop_body. run_eff.
  rewrite H1, H2, H3. cbn [negb].
  rewrite (add_tool_result_prints _ _ (fst s2, w3) w4 H4). reflexivity.
Qed.

Lemma loop_body_plan_set (tc : ToolCall) (s s2 : Agent * World) (w1 : World) :
  prints (call_line tc) (snd s) w1 ->
  try_block tc (fst s, w1) = (Ok PlanSet, s2) ->
  loop_body false tc s = (Ok Break, s2).
Proof.
  unfold prints. intros H1 H2. unfold loop_body. run_eff.
  rewrite H1, H2. now destruct s2.
Qed.

Lemma loop_body_finished (tc : ToolCall) (s s2 : Agent * World) (w1 : World) :
  prints (call_line tc) (snd s) w1 ->
  try_block tc (fst s, w1) = (Ok Finished, s2) ->
  loop_body false tc s = (Ok Return, s2).
Proof.
  unfold prints. intros H1 H2. unfold loop_body. run_eff.
  rewrite H1, H2. now destruct s2.
Qed.

Lemma for_tool_calls_app (reset_context : bool) (pre post : list ToolCall)
    (s s1 : Agent * World) :
  for_tool_calls reset_context pre s = (Ok Next, s1) ->
  for_tool_calls reset_context (pre ++ post) s
  = for_tool_calls reset_context post s1.
Proof.
  revert s. induction pre as [|tc pre IH]; intros s; simpl.
  - unfold ret. now intros [= ->].
  - unfold bind. destruct (loop_body reset_context tc s) as [[f|e] s'].
    + destruct f; [apply IH | discriminate | discriminate].
    + discriminate.
Qed.


(** *** No tool touches the loop guard's two fields *)

Lemma keeps_guard_ret {A} (x : A) : keeps_guard (ret x).
Proof. intros s r s' [= <- <-]. reflexivity. Qed.

Lemma keeps_guard_raise {A} (e : str) : keeps_guard (@raise _ A e).
Proof. intros s r s' [= <- <-]. reflexivity. Qed.

Lemma keeps_guard_get : keeps_guard get_agent.
Proof. intros s r s' [= <- <-]. reflexivity. Qed.

Lemma keeps_guard_modify (f : Agent -> Agent) :
  (forall a, guard_of (f a) = guard_of a) -> keeps_guard (modify_agent f).
Proof. intros Hf s r s' [= <- <-]. apply Hf. Qed.

Lemma keeps_guard_on_world {A} (c : M World A) : keeps_guard (on_world c).
Proof.
  intros s r s'. unfold on_world. destruct (c (snd s)) as [r' w].
  intros [= <- <-]. reflexivity.
Qed.

Lemma keeps_guard_print (r : Renderable) : keeps_guard (print r).
Proof. apply keeps_guard_on_world. Qed.

Lemma keeps_guard_bind {A B} (c : M (Agent * World) A)
    (k : A -> M (Agent * World) B) :
  keeps_guard c -> (forall x, keeps_guard (k x)) -> keeps_guard (bind c k).
Proof.
  intros Hc Hk s r s'. unfold bind.
  destruct (c s) as [[x|e] s1] eqn:E.
  - intros Hk'. rewrite (Hk x s1 r s' Hk'). exact (Hc s _ s1 E).
  - intros [= <- <-]. exact (Hc s _ s1 E).
Qed.

Lemma keeps_guard_try_except {A} (c : M (Agent * World) A)
    (h : str -> M (Agent * World) A) :
  keeps_guard c -> (forall e, keeps_guard (h e)) ->
  keeps_guard (try_except c h).
Proof.
  intros Hc Hh s r s'. unfold try_except.
  destruct (c s) as [[x|e] s1] eqn:E.
  - intros [= <- <-]. exact (Hc s _ s1 E).
  - intros Hh'. rewrite (Hh e s1 r s' Hh'). exact (Hc s _ s1 E).
Qed.

Lemma keeps_guard_if {A} (b : bool) (c1 c2 : M (Agent * World) A) :
  keeps_guard c1 -> keeps_guard c2 -> keeps_guard (if b then c1 else c2).
Proof. now destruct b. Qed.

#[local] Hint Resolve keeps_guard_ret keeps_guard_raise keeps_guard_get
  keeps_guard_on_world keeps_guard_print keeps_guard_bind
  keeps_guard_try_except keeps_guard_if : guard.

Lemma keeps_guard_plan_pop0 : keeps_guard plan_pop0.
Proof.
  unfold plan_pop0. apply keeps_guard_bind; [auto with guard |].
  intros a. destruct (plan a) as [| | | | |[|x rest]|]; auto with guard.
  apply keeps_guard_bind; [|auto with guard]. now apply keeps_guard_modify.
Qed.

Lemma keeps_guard_mark_done (v : json) : keeps_guard (_tool_mark_done v).
Proof.
  unfold _tool_mark_done.
  apply keeps_guard_bind; [auto with guard |]. intros a.
  apply keeps_guard_bind.
  - apply keeps_guard_if; [|auto with guard].
    apply keeps_guard_bind; [apply keeps_guard_plan_pop0 | auto with guard].
  - intros _. apply keeps_guard_bind; [|auto with guard].
    now apply keeps_guard_modify.
Qed.

Lemma keeps_guard_ask_user (v : json) : keeps_guard (_tool_ask_user v).
Proof.
  unfold _tool_ask_user.
  apply keeps_guard_bind; [auto with guard |]. intros _.
  apply keeps_guard_bind; [auto with guard |]. intros ans.
  apply keeps_guard_bind; [|auto with guard].
  now apply keeps_guard_modify.
Qed.

Lemma keeps_guard_call_kw (fname param : str)
    (func : json -> M (Agent * World) str) (args : json) :
  (forall v, keeps_guard (func v)) ->
  keeps_guard (call_kw fname param func args).
Proof.
  intros Hf. unfold call_kw.
  destruct args as [| | | | | |[|[k v] [|]]]; auto with guard.
Qed.

Lemma keeps_guard_dispatch (fname : str) (args : json) :
  keeps_guard (dispatch fname args).
Proof.
  unfold dispatch, tools_map.
  repeat match goal with
         | |- context [if ?c then _ else _] => destruct c
         end;
    auto using keeps_guard_call_kw, keeps_guard_mark_done,
      keeps_guard_ask_user with guard.
  apply keeps_guard_call_kw. intros v. unfold _tool_finish.
  auto with guard.
Qed.

Lemma keeps_guard_add_tool_result (tool_id result : str) :
  keeps_guard (_add_tool_result tool_id result).
Proof.
  unfold _add_tool_result. apply keeps_guard_bind; [auto with guard |].
  intros _. now apply keeps_guard_modify.
Qed.

(** An iteration leaves the guard alone up to its first tool call. *)
Lemma keeps_guard_turn_head (i : Z) : keeps_guard (turn_head i).
Proof.
  unfold turn_head.
  apply keeps_guard_bind; [now apply keeps_guard_modify |]. intros _.
  apply keeps_guard_bind; [auto with guard |]. intros a.
  apply keeps_guard_bind; [auto with guard |]. intros _.
  apply keeps_guard_bind; [auto 6 with guard |].
  intros [[content tool_calls]|]; [|auto with guard].
  apply keeps_guard_bind; [now apply keeps_guard_modify |]. intros _.
  apply keeps_guard_bind.
  { destruct content as [text|]; [destruct (truthy text) |]; auto with guard. }
  intros _. destruct tool_calls as [|tc tcs]; [|auto with guard].
  apply keeps_guard_bind; [auto with guard |]. intros _.
  apply keeps_guard_bind; [now apply keeps_guard_modify | auto with guard].
Qed.

(** A call that does not reach the guard leaves it alone: one whose
    arguments do not parse, a [set_plan], a [finish_task]. *)
Lemma keeps_guard_unguarded (b : bool) (tc : ToolCall) :
  (forall args, json_loads (fn_arguments tc) = Ok args ->
                fn_name tc = "set_plan" \/ fn_name tc = "finish_task") ->
  keeps_guard (loop_body b tc).
Proof.
  intros Hun. unfold loop_body.
  apply keeps_guard_bind; [auto with guard |]. intros _.
  apply keeps_guard_bind.
  - apply keeps_guard_try_except; [|auto with guard].
    unfold try_block. intros s r s'. unfold bind at 1, lift at 1.
    destruct (json_loads (fn_arguments tc)) as [args|e] eqn:Ha;
      [|now intros [= <- <-]].
    destruct (Hun args eq_refl) as [-> | ->];
      cbn [eqb N.eqb Pos.eqb andb]; revert s r s';
      change (keeps_guard ?c) with (keeps_guard c).
    + apply keeps_guard_bind; [unfold lift; intros s r s' [= <- <-]; reflexivity |].
      intros steps.
      apply keeps_guard_bind; [now apply keeps_guard_modify |]. intros _.
      apply keeps_guard_bind; [auto with guard |]. intros a.
      apply keeps_guard_bind; [auto with guard |]. intros _.
      apply keeps_guard_bind; [now apply keeps_guard_modify |]. intros _.
      apply keeps_guard_bind; [now apply keeps_guard_modify | auto with guard].
    + apply keeps_guard_bind; [unfold lift; intros s r s' [= <- <-]; reflexivity |].
      intros v. auto with guard.
  - intros [| |result]; auto with guard.
    apply keeps_guard_bind; [|auto with guard].
    apply keeps_guard_if; [apply keeps_guard_add_tool_result | auto with guard].
Qed.

(** *** Consecutive selections of one action *)

Lemma count_repeat_same (act : str * str) (a : Agent) :
  last_action a = Some act ->
  count_repeat act a
  = with_repeated_action_count (repeated_action_count a + 1) a.
Proof.
  intros E. unfold count_repeat. rewrite E. case_decide; congruence.
Qed.

Lemma count_repeat_other (act : str * str) (a : Agent) :
  last_action a <> Some act ->
  count_repeat act a = with_repeated_action_count 0 a.
Proof.
  intros E. unfold count_repeat. case_decide; congruence.
Qed.

(** What the [try] block of a call that selects [act] leaves, however it
    ends: the counter as [count_repeat] set it; and it ends in a result or
    an exception. *)
Lemma try_block_selects (act : str * str) (tc : ToolCall)
    (s s2 : Agent * World) (r : result attempt) :
  selects act tc ->
  try_block tc s = (r, s2) ->
  repeated_action_count (fst s2)
  = repeated_action_count (count_repeat act (fst s))
  /\ ((exists result, r = Ok (Result result)
                      /\ last_action (fst s2) = Some act)
      \/ exists e, r = Exn e).
Proof.
  intros (Hp & Hf & args & Ha & ->).
  rewrite (try_block_guarded tc args s Hp Hf Ha). cbv zeta.
  set (a1 := count_repeat (fn_name tc, py_str args) (fst s)).
  destruct (3 <=? repeated_action_count a1).
  - destruct (console_print override_line (snd s)) as [[u|e] w'];
      intros [= <- <-]; (split; [reflexivity |]); eauto.
  - destruct (dispatch (fn_name tc) args (a1, snd s)) as [[res|e] s3] eqn:D;
      apply keeps_guard_dispatch in D; injection D as _ D; cbn [fst] in D;
      intros [= <- <-]; (split; [exact D |]); eauto.
Qed.

Lemma bind_inv {S A B} (c : M S A) (k : A -> M S B) (s s' : S)
    (r : result B) :
  bind c k s = (r, s') ->
  (exists x s1, c s = (Ok x, s1) /\ k x s1 = (r, s'))
  \/ (exists e, c s = (Exn e, s') /\ r = Exn e).
Proof.
  unfold bind. destruct (c s) as [[x|e] s1].
  - eauto.
  - intros [= <- <-]. eauto.
Qed.

Lemma try_except_inv {S A} (c : M S A) (h : str -> M S A) (s s' : S)
    (r : result A) :
  try_except c h s = (r, s') ->
  (exists x, c s = (Ok x, s') /\ r = Ok x)
  \/ (exists e s1, c s = (Exn e, s1) /\ h e s1 = (r, s')).
Proof.
  unfold try_except. destruct (c s) as [[x|e] s1].
  - intros [= <- <-]. eauto.
  - eauto.
Qed.

(** The counter a state carries. *)
Lemma guard_count (a a' : Agent) :
  guard_of a' = guard_of a -> repeated_action_count a' = repeated_action_count a.
Proof. now intros [= _ ->]. Qed.

Lemma guard_last (a a' : Agent) :
  guard_of a' = guard_of a -> last_action a' = last_action a.
Proof. now intros [= -> _]. Qed.

Lemma count_repeat_guard (act : str * str) (a a' : Agent) :
  guard_of a' = guard_of a ->
  repeated_action_count (count_repeat act a')
  = repeated_action_count (count_repeat act a).
Proof.
  intros H. unfold count_repeat. rewrite (guard_last _ _ H).
  case_decide; cbn; [now rewrite (guard_count _ _ H) | reflexivity].
Qed.

(** A call that selects [act] and does not raise hands on to the next
    call, with the counter as [count_repeat] set it. *)
Lemma selection_counts (act : str * str) (tc : ToolCall)
    (s s' : Agent * World) (f : flow) :
  selects act tc ->
  loop_body false tc s = (Ok f, s') ->
  f = Next
  /\ repeated_action_count (fst s')
     = repeated_action_count (count_repeat act (fst s)).
Proof.
  intros Hsel Hb. unfold loop_body in Hb.
  apply bind_inv in Hb as [(u & s1 & Hcall & Hb) | (e & _ & [=])].
  apply keeps_guard_print in Hcall.
  apply bind_inv in Hb as [(o & s2 & Htry & Hb) | (e & _ & [=])].
  assert (repeated_action_count (fst s2)
          = repeated_action_count (count_repeat act (fst s))
          /\ exists result, o = Result result) as [Hc [result ->]].
  { apply try_except_inv in Htry as [(x & Hblock & [= <-])
                                     | (e & s1' & Hblock & Hh)].
    - destruct (try_block_selects act tc s1 s2 _ Hsel Hblock)
        as [Hc [(res & [= ->] & _) | (e & [=])]].
      split; [|eauto]. rewrite Hc. now apply count_repeat_guard.
    - destruct (try_block_selects act tc s1 s1' _ Hsel Hblock) as [Hc _].
      apply bind_inv in Hh as [(u' & s3 & Hp & [= <- <-]) | (e' & _ & [=])].
      apply keeps_guard_print in Hp. split; [|eauto].
      rewrite (guard_count _ _ Hp), Hc. now apply count_repeat_guard. }
  cbn [negb] in Hb.
  apply bind_inv in Hb as [(u' & s3 & Hadd & [= <- <-]) | (e & _ & [=])].
  apply keeps_guard_add_tool_result in Hadd.
  split; [reflexivity |]. now rewrite (guard_count _ _ Hadd).
Qed.

(** *** Properties kept by the computations of the loop *)

Lemma preserves_ret {A} (P : Agent -> Prop) (x : A) : preserves P (ret x).
Proof. intros s r s' [= <- <-]. auto. Qed.

Lemma preserves_raise {A} (P : Agent -> Prop) (e : str) :
  preserves P (@raise _ A e).
Proof. intros s r s' [= <- <-]. auto. Qed.

Lemma preserves_lift {A} (P : Agent -> Prop) (x : result A) :
  preserves P (lift x).
Proof. intros s r s' [= <- <-]. auto. Qed.

Lemma preserves_get (P : Agent -> Prop) : preserves P get_agent.
Proof. intros s r s' [= <- <-]. auto. Qed.

Lemma preserves_modify (P : Agent -> Prop) (f : Agent -> Agent) :
  (forall a, P a -> P (f a)) -> preserves P (modify_agent f).
Proof. intros Hf s r s' [= <- <-]. apply Hf. Qed.

Lemma preserves_on_world {A} (P : Agent -> Prop) (c : M World A) :
  preserves P (on_world c).
Proof.
  intros s r s'. unfold on_world. destruct (c (snd s)) as [r' w].
  intros [= <- <-]. auto.
Qed.

Lemma preserves_print (P : Agent -> Prop) (r : Renderable) :
  preserves P (print r).
Proof. apply preserves_on_world. Qed.

Lemma preserves_bind {A B} (P : Agent -> Prop) (c : M (Agent * World) A)
    (k : A -> M (Agent * World) B) :
  preserves P c -> (forall x, preserves P (k x)) -> preserves P (bind c k).
Proof.
  intros Hc Hk s r s'. unfold bind.
  destruct (c s) as [[x|e] s1] eqn:E.
  - intros Hk' HP. exact (Hk x s1 r s' Hk' (Hc s _ s1 E HP)).
  - intros [= <- <-] HP. exact (Hc s _ s1 E HP).
Qed.

Lemma preserves_try_except {A} (P : Agent -> Prop) (c : M (Agent * World) A)
    (h : str -> M (Agent * World) A) :
  preserves P c -> (forall e, preserves P (h e)) ->
  preserves P (try_except c h).
Proof.
  intros Hc Hh s r s'. unfold try_except.
  destruct (c s) as [[x|e] s1] eqn:E.
  - intros [= <- <-] HP. exact (Hc s _ s1 E HP).
  - intros Hh' HP. exact (Hh e s1 r s' Hh' (Hc s _ s1 E HP)).
Qed.

Lemma preserves_if {A} (P : Agent -> Prop) (b : bool)
    (c1 c2 : M (Agent * World) A) :
  preserves P c1 -> preserves P c2 -> preserves P (if b then c1 else c2).
Proof. now destruct b. Qed.

#[local] Hint Resolve preserves_ret preserves_raise preserves_lift
  preserves_get preserves_on_world preserves_print preserves_bind
  preserves_try_except preserves_if : keep.

(** The tools assign the plan and the notes, and nothing else. *)
Lemma preserves_dispatch (P : Agent -> Prop) (fname : str) (args : json) :
  (forall a p, P a -> P (with_plan p a)) ->
  (forall a n, P a -> P (with_notes n a)) ->
  preserves P (dispatch fname args).
Proof.
  intros Hplan Hnotes.
  assert (preserves P plan_pop0) as Hpop.
  { unfold plan_pop0. apply preserves_bind; [auto with keep |].
    intros a. destruct (plan a) as [| | | | |[|x rest]|]; auto with keep.
    apply preserves_bind; [|auto with keep]. apply preserves_modify. auto. }
  assert (forall v, preserves P (_tool_mark_done v)) as Hdone.
  { intros v. unfold _tool_mark_done.
    apply preserves_bind; [auto with keep |]. intros a.
    apply preserves_bind; [auto with keep |]. intros _.
    apply preserves_bind; [|auto with keep].
    apply preserves_modify. auto. }
  assert (forall v, preserves P (_tool_ask_user v)) as Hask.
  { intros v. unfold _tool_ask_user.
    apply preserves_bind; [auto with keep |]. intros _.
    apply preserves_bind; [auto with keep |]. intros ans.
    apply preserves_bind; [|auto with keep].
    apply preserves_modify. auto. }
  assert (forall f p func a,
             (forall v, preserves P (func v)) ->
             preserves P (call_kw f p func a)) as Hkw.
  { intros f p func a Hf. unfold call_kw.
    destruct a as [| | | | | |[|[k v] [|]]]; auto with keep. }
  unfold dispatch, tools_map.
  repeat match goal with
         | |- context [if ?c then _ else _] => destruct c
         end; auto with keep.
  apply Hkw. intros v. unfold _tool_finish. auto with keep.
Qed.

Lemma preserves_add_tool_result (P : Agent -> Prop) (tool_id result : str) :
  (forall a h, P a -> P (with_history h a)) ->
  preserves P (_add_tool_result tool_id result).
Proof.
  intros HP. unfold _add_tool_result.
  apply preserves_bind; [auto with keep |]. intros _.
  apply preserves_modify. intros a Ha. now apply HP.
Qed.

Lemma preserves_try_block (P : Agent -> Prop) (tc : ToolCall) :
  stable P -> preserves P (try_block tc).
Proof.
  intros HP. unfold try_block.
  apply preserves_bind; [auto with keep |]. intros args.
  repeat apply preserves_if.
  - apply preserves_bind; [auto with keep |]. intros steps.
    apply preserves_bind.
    { apply preserves_modify. intros a Ha. now apply HP. }
    intros _. apply preserves_bind; [auto with keep |]. intros a.
    apply preserves_bind; [auto with keep |]. intros _.
    apply preserves_bind.
    { apply preserves_modify. intros a' Ha'. now apply HP. }
    intros _. apply preserves_bind; [|auto with keep].
    apply preserves_modify. intros a' Ha'. now apply HP.
  - auto with keep.
  - apply preserves_bind.
    { apply preserves_modify. intros a Ha. unfold count_repeat.
      case_decide; apply HP; exact Ha. }
    intros _. apply preserves_bind; [auto with keep |]. intros a.
    apply preserves_bind.
    { apply preserves_if; [auto with keep |].
      apply preserves_dispatch; intros; now apply HP. }
    intros result. apply preserves_bind; [|auto with keep].
    apply preserves_modify. intros a' Ha'. now apply HP.
Qed.

Lemma preserves_loop_body (P : Agent -> Prop) (b : bool) (tc : ToolCall) :
  stable P -> preserves P (loop_body b tc).
Proof.
  intros HP. unfold loop_body.
  apply preserves_bind; [auto with keep |]. intros _.
  apply preserves_bind.
  - apply preserves_try_except; [now apply preserves_try_block |].
    auto with keep.
  - intros [| |result]; auto with keep.
    apply preserves_bind; [|auto with keep].
    apply preserves_if; [|auto with keep].
    apply preserves_add_tool_result. intros a h Ha. now apply HP.
Qed.

Lemma preserves_for_tool_calls (P : Agent -> Prop) (b : bool)
    (tcs : list ToolCall) :
  stable P -> preserves P (for_tool_calls b tcs).
Proof.
  intros HP. induction tcs as [|tc tcs IH]; simpl; [auto with keep |].
  apply preserves_bind; [now apply preserves_loop_body |].
  intros [| |]; auto with keep.
Qed.

Lemma preserves_turn_head (P : Agent -> Prop) (i : Z) :
  stable P -> preserves P (turn_head i).
Proof.
  intros HP. unfold turn_head.
  apply preserves_bind.
  { apply preserves_modify. intros a Ha. unfold _prune_history. now apply HP. }
  intros _. apply preserves_bind; [auto with keep |]. intros a.
  apply preserves_bind; [auto with keep |]. intros _.
  apply preserves_bind; [auto 6 with keep |].
  intros [[content tool_calls]|]; [|auto with keep].
  apply preserves_bind.
  { apply preserves_modify. intros a' Ha'. now apply HP. }
  intros _. apply preserves_bind.
  { destruct content as [text|]; [destruct (truthy text) |]; auto with keep. }
  intros _. destruct tool_calls as [|tc tcs]; [|auto with keep].
  apply preserves_bind; [auto with keep |]. intros _.
  apply preserves_bind; [|auto with keep].
  apply preserves_modify. intros a' Ha'. now apply HP.
Qed.

Lemma preserves_iteration (P : Agent -> Prop) (i : Z) :
  stable P -> preserves P (iteration i).
Proof.
  intros HP. unfold iteration.
  apply preserves_bind; [now apply preserves_turn_head |].
  intros [tool_calls|]; [|auto with keep].
  apply preserves_bind; [now apply preserves_for_tool_calls |].
  intros [| |]; auto with keep.
Qed.

Lemma preserves_iterations (P : Agent -> Prop) (n : nat) (i : Z) :
  stable P -> preserves P (iterations n i).
Proof.
  intros HP. revert i. induction n as [|n IH]; intros i; simpl;
    [auto with keep |].
  apply preserves_bind; [now apply preserves_iteration |].
  intros [| |]; auto with keep.
Qed.

(** *** What can raise out of the loop *)

Lemma console_only_ret {A} (x : A) : console_only (ret x).
Proof. intros s e s' [=]. Qed.

Lemma console_only_modify (f : Agent -> Agent) : console_only (modify_agent f).
Proof. intros s e s' [=]. Qed.

Lemma console_only_print (r : Renderable) : console_only (print r).
Proof.
  intros s e s'. unfold print, on_world.
  destruct (console_print r (snd s)) as [[u|e'] w] eqn:E; intros [= <- <-].
  cbn [snd]. eauto.
Qed.

Lemma console_only_bind {A B} (c : M (Agent * World) A)
    (k : A -> M (Agent * World) B) :
  console_only c -> (forall x, console_only (k x)) -> console_only (bind c k).
Proof.
  intros Hc Hk s e s' H.
  apply bind_inv in H as [(x & s1 & _ & H) | (e' & H & [= <-])].
  - exact (Hk x s1 e s' H).
  - exact (Hc s e s' H).
Qed.

Lemma console_only_try_except {A} (c : M (Agent * World) A)
    (h : str -> M (Agent * World) A) :
  (forall e, console_only (h e)) -> console_only (try_except c h).
Proof.
  intros Hh s e s' H.
  apply try_except_inv in H as [(x & _ & [=]) | (e' & s1 & _ & H)].
  exact (Hh e' s1 e s' H).
Qed.

#[local] Hint Resolve console_only_ret console_only_modify console_only_print
  console_only_bind console_only_try_except : console.

Lemma console_only_add_tool_result (tool_id result : str) :
  console_only (_add_tool_result tool_id result).
Proof. unfold _add_tool_result. auto with console. Qed.

Lemma console_only_loop_body (b : bool) (tc : ToolCall) :
  console_only (loop_body b tc).
Proof.
  unfold loop_body. apply console_only_bind; [auto with console |]. intros _.
  apply console_only_bind; [auto with console |].
  intros [| |result]; auto with console.
  apply console_only_bind; [|auto with console].
  destruct (negb b); [apply console_only_add_tool_result | auto with console].
Qed.

Lemma console_only_for_tool_calls (b : bool) (tcs : list ToolCall) :
  console_only (for_tool_calls b tcs).
Proof.
  induction tcs as [|tc tcs IH]; simpl; [auto with console |].
  apply console_only_bind; [apply console_only_loop_body |].
  intros [| |]; auto with console.
Qed.

(** *** The history under the body of the loop *)

Lemma count_repeat_history (act : str * str) (a : Agent) :
  history (count_repeat act a) = history a.
Proof. unfold count_repeat. case_decide; reflexivity. Qed.

(** How the [try] block can end, and what it has done to the history. *)
Lemma try_block_history (tc : ToolCall) (s s2 : Agent * World)
    (r : result attempt) :
  try_block tc s = (r, s2) ->
  (r = Ok PlanSet /\ fn_name tc = "set_plan" /\ history (fst s2) = [])
  \/ (r = Ok Finished /\ fn_name tc = "finish_task" /\ fst s2 = fst s)
  \/ (((exists result, r = Ok (Result result)) \/ exists e, r = Exn e)
      /\ history (fst s2) = history (fst s)).
Proof.
  assert (forall args', (forall kv, args' <> JDict kv) \/ exists kv, args' = JDict kv)
    as Hshape.
  { intros [| | | | | |kv]; try (left; intros kv'; discriminate). right. eauto. }
  destruct (json_loads (fn_arguments tc)) as [args|e] eqn:Ha.
  2:{ rewrite (try_block_parse_error tc e s Ha). intros [= <- <-].
      right. right. eauto. }
  destruct (eqb (fn_name tc) "set_plan") eqn:Hp.
  { apply eqb_eq in Hp. destruct (Hshape args) as [Hno | [kv ->]].
    - rewrite (try_block_not_object tc args s (or_introl Hp) Ha Hno).
      intros [= <- <-]. right. right. eauto.
    - rewrite (try_block_set_plan tc kv s Hp Ha).
      destruct (console_print _ _) as [[u|e] w']; intros [= <- <-].
      + left. auto.
      + right. right. eauto. }
  destruct (eqb (fn_name tc) "finish_task") eqn:Hf.
  { apply eqb_eq in Hf. destruct (Hshape args) as [Hno | [kv ->]].
    - rewrite (try_block_not_object tc args s (or_intror Hf) Ha Hno).
      intros [= <- <-]. right. right. eauto.
    - rewrite (try_block_finish tc kv s Hf Ha).
      destruct (console_print _ _) as [[u|e] w']; intros [= <- <-].
      + right. left. auto.
      + right. right. eauto. }
  apply eqb_neq in Hp, Hf.
  rewrite (try_block_guarded tc args s Hp Hf Ha). cbv zeta.
  pose proof (count_repeat_history (fn_name tc, py_str args) (fst s)) as Hc.
  destruct (3 <=? _).
  - destruct (console_print _ _) as [[u|e] w']; intros [= <- <-];
      right; right; eauto.
  - destruct (dispatch _ _ _) as [[res|e] s3] eqn:D;
      apply (preserves_dispatch
               (fun a => history a = history (fst s))) in D;
      try (intros; assumption); try exact Hc;
      intros [= <- <-]; right; right; eauto.
Qed.

(** What one pass through the body does to the history. *)
Lemma loop_body_history (tc : ToolCall) (s s' : Agent * World) (f : flow) :
  loop_body false tc s = (Ok f, s') ->
  (f = Next
   /\ exists content,
       history (fst s') = history (fst s) ++ [Tool (tc_id tc) content])
  \/ (f = Return /\ fn_name tc = "finish_task" /\ fst s' = fst s)
  \/ (f = Break /\ fn_name tc = "set_plan" /\ history (fst s') = []).
Proof.
  intros Hb. unfold loop_body in Hb.
  apply bind_inv in Hb as [(u & s1 & Hcall & Hb) | (e & _ & [=])].
  pose proof (preserves_print (fun a => a = fst s) _ s _ s1 Hcall eq_refl)
    as Hs1.
  cbn beta in Hs1.
  apply bind_inv in Hb as [(o & s2 & Htry & Hb) | (e & _ & [=])].
  assert ((o = PlanSet /\ fn_name tc = "set_plan" /\ history (fst s2) = [])
          \/ (o = Finished /\ fn_name tc = "finish_task" /\ fst s2 = fst s)
          \/ ((exists result, o = Result result)
              /\ history (fst s2) = history (fst s))) as Hcases.
  { apply try_except_inv in Htry as [(x & Hblock & [= <-])
                                     | (e & s1' & Hblock & Hh)].
    - apply try_block_history in Hblock
        as [([= ->] & Hn & Hh) | [([= ->] & Hn & Hh) | ([[res [= ->]] | [e [=]]] & Hh)]].
      + left. auto.
      + right. left. split; [reflexivity |]. split; [exact Hn | congruence].
      + right. right. split; [eauto | congruence].
    - apply try_block_history in Hblock
        as [([=] & _) | [([=] & _) | (_ & Hh')]].
      apply bind_inv in Hh as [(u' & s3 & Hp & [= <- <-]) | (e' & _ & [=])].
      pose proof (preserves_print (fun a => history a = history (fst s))
                    _ _ _ _ Hp ltac:(congruence)) as Hs3.
      cbn beta in Hs3. right. right. eauto. }
  destruct Hcases as [(-> & Hn & Hh) | [(-> & Hn & Hh) | ([res ->] & Hh)]].
  - injection Hb as <- <-. right. right. auto.
  - injection Hb as <- <-. right. left. auto.
  - cbn [negb] in Hb.
    apply bind_inv in Hb as [(u' & s3 & Hadd & [= <- <-]) | (e & _ & [=])].
    left. split; [reflexivity |].
    unfold _add_tool_result in Hadd.
    apply bind_inv in Hadd as [(u2 & s4 & Hp & [= _ <-]) | (e & _ & [=])].
    pose proof (preserves_print (fun a => history a = history (fst s))
                  _ _ _ _ Hp Hh) as Hs4.
    cbn beta in Hs4. eexists. cbn. now rewrite Hs4.
Qed.

(** *** Computations that never raise *)

Lemma returns_ret {S A} (x : A) : returns (@ret S A x).
Proof. intros s. now exists x, s. Qed.

Lemma returns_bind {S A B} (c : M S A) (k : A -> M S B) :
  returns c -> (forall x, returns (k x)) -> returns (bind c k).
Proof.
  intros Hc Hk s. unfold bind. destruct (Hc s) as (x & s1 & ->). apply Hk.
Qed.

Lemma returns_try_except {S A} (c : M S A) (h : str -> M S A) :
  (forall e, returns (h e)) -> returns (try_except c h).
Proof.
  intros Hh s. unfold try_except. destruct (c s) as [[x|e] s1]; [eauto |].
  apply Hh.
Qed.

(** The head of an iteration that hands tool calls on has pruned the
    history and appended the turn of the model. *)
Lemma turn_head_appends (i : Z) (s s1 : Agent * World)
    (tool_calls : list ToolCall) :
  turn_head i s = (Ok (Some tool_calls), s1) ->
  tool_calls <> []
  /\ exists content,
       fst s1
       = with_history
           (prune (history (fst s)) ++ [Assistant content tool_calls]) (fst s).
Proof.
  unfold turn_head. intros H.
  apply bind_inv in H as [(u & s2 & E1 & H1) | (e & _ & [=])].
  injection E1 as _ <-.
  apply bind_inv in H1 as [(a & s3 & E2 & H2) | (e & _ & [=])].
  injection E2 as <- <-. cbn [fst] in H2.
  apply bind_inv in H2 as [(u1 & s4 & Hrule & H3) | (e & _ & [=])].
  pose proof (preserves_on_world (fun a => a = _prune_history (fst s))
                _ _ _ _ Hrule eq_refl) as Hs4.
  cbn beta in Hs4.
  apply bind_inv in H3 as [(resp & s5 & Hchat & H4) | (e & _ & [=])].
  assert (fst s5 = _prune_history (fst s)) as H5.
  { revert Hchat. intros Hchat.
    refine (preserves_try_except (fun a => a = _prune_history (fst s))
              _ _ _ _ _ _ _ Hchat Hs4); auto with keep. }
  destruct resp as [[content tcs]|]; [|discriminate].
  apply bind_inv in H4 as [(u2 & s6 & E6 & H6) | (e & _ & [=])].
  injection E6 as _ <-. cbn [fst snd] in H6.
  apply bind_inv in H6 as [(u3 & s7 & Hthought & H7) | (e & _ & [=])].
  assert (fst s7 = with_history
                     (history (fst s5) ++ [Assistant content tcs]) (fst s5))
    as E7.
  { assert (forall c : M (Agent * World) unit,
               preserves (fun a => a = with_history
                                         (history (fst s5)
                                            ++ [Assistant content tcs])
                                         (fst s5)) c ->
               forall s6 r, c s6 = (r, s7) ->
               fst s6 = with_history
                          (history (fst s5) ++ [Assistant content tcs])
                          (fst s5) ->
               fst s7 = with_history
                          (history (fst s5) ++ [Assistant content tcs])
                          (fst s5)) as Hgen
      by (intros c Hc s6 r E; exact (Hc _ _ _ E)).
    eapply Hgen; [|exact Hthought | reflexivity].
    destruct content as [text|]; [destruct (truthy text) |]; auto with keep. }
  destruct tcs as [|tc tcs].
  - apply bind_inv in H7 as [(u4 & s8 & _ & H8) | (e & _ & [=])].
    apply bind_inv in H8 as [(u5 & s9 & _ & [=]) | (e & _ & [=])].
  - injection H7 as <- <-. split; [discriminate |].
    exists content. rewrite E7, H5. reflexivity.
Qed.

End WithEnvironment.
End LoopFacts.

Module ServiceFacts.
Import PyStr Eff Service Checks StringFacts LoopFacts.

Section WithContext.
Context {W PageRef : Type} {api : ContextAPI W PageRef}.

Lemma dismiss_loop_returns (p : PageRef) (selectors : list str) :
  returns (dismiss_loop p selectors).
Proof.
  induction selectors as [|sel rest IH]; intros w; cbn [dismiss_loop].
  - eexists _, _. reflexivity.
  - unfold bind at 1.
    match goal with
    | |- context [try_except ?c ?h w] =>
        destruct (returns_try_except c h (fun e => returns_ret _) w)
          as (failed & w1 & E)
    end.
    rewrite E.
    destruct failed; [eexists _, _; reflexivity | apply IH].
Qed.

Lemma dismiss_overlays_returns (svc : BrowserService PageRef) :
  returns (_dismiss_overlays svc).
Proof.
  unfold _dismiss_overlays. destruct (page svc).
  - apply returns_try_except. intros e. apply returns_ret.
  - apply returns_ret.
Qed.

End WithContext.
End ServiceFacts.

(** ** The claims *)

Import PyStr Eff Accessibility Browser Service AgentLoop Reference Checks.
Import StringFacts AccessibilityFacts HistoryFacts LoopFacts ServiceFacts.

(** After [n] consecutive selections of an action the next selection of it
    finds the counter at [n]. *)
Lemma consecutive_counter {env : Environment} (act : str * str) (n : nat)
    (s0 s : Agent * World) :
  consecutive act n s0 s ->
  repeated_action_count (count_repeat act (fst s)) = Z.of_nat n
  /\ ((1 <= n)%nat ->
      last_action (fst s) = Some act
      /\ repeated_action_count (fst s) = Z.of_nat n - 1).
Proof.
  induction 1 as [s Hlast | n s s1 s2 s3 _ [IHc IHl] Hguard Hsel].
  - split; [|lia]. now rewrite count_repeat_other.
  - destruct Hsel as (tc & Hsel & Hb & Hact).
    destruct (selection_counts act tc s2 s3 Next Hsel Hb) as [_ Hc].
    rewrite (count_repeat_guard act _ _ Hguard), IHc in Hc.
    split.
    + rewrite count_repeat_same by exact Hact. cbn. lia.
    + intros _. split; [exact Hact | lia].
Qed.

(** C1 (as amended).  Let an action, other than [set_plan] and
    [finish_task] and with arguments that parse, have been selected [n]
    times in a row, in one turn or over several, after a different last
    action or at the start of the task.  Then the counter is [n - 1].  When
    it is selected once more and the console prints the call, then for
    [n < 3] the tool is called, so the first three selections are carried
    out; for [3 <= n] the fourth and every later selection is answered with
    the SYSTEM OVERRIDE text, the tool not being called: the state of the
    world goes through the three prints and nothing else.  A selection of
    another action then sets the counter to zero. *)
Theorem C1_loop_guard {env : Environment} (act : str * str) (n : nat)
    (s0 s s2 : Agent * World) (tc : ToolCall) (args : json) (w1 : World) :
  consecutive act n s0 s ->
  guard_of (fst s2) = guard_of (fst s) ->
  fn_name tc <> "set_plan" ->
  fn_name tc <> "finish_task" ->
  json_loads (fn_arguments tc) = Ok args ->
  act = (fn_name tc, py_str args) ->
  prints (call_line tc) (snd s2) w1 ->
  ((1 <= n)%nat ->
   last_action (fst s) = Some act
   /\ repeated_action_count (fst s) = Z.of_nat n - 1)
  /\ ((n < 3)%nat ->
      forall result a3 w3 w4,
        dispatch (fn_name tc) args
          (with_repeated_action_count (Z.of_nat n) (fst s2), w1)
        = (Ok result, (a3, w3)) ->
        prints (result_line (add_hint (fn_name tc) result)) w3 w4 ->
        loop_body false tc s2
        = (Ok Next,
           (with_entry (tc_id tc)
              (stored_result (add_hint (fn_name tc) result))
              (with_last_action (Some act) a3),
            w4)))
  /\ ((3 <= n)%nat ->
      forall w2 w3,
        prints override_line w1 w2 ->
        prints (result_line SYSTEM_OVERRIDE) w2 w3 ->
        loop_body false tc s2
        = (Ok Next,
           (with_entry (tc_id tc) SYSTEM_OVERRIDE
              (with_repeated_action_count (Z.of_nat n) (fst s2)),
            w3)))
  /\ (forall other tc' f s3,
        other <> act ->
        selects other tc' ->
        ((1 <= n)%nat \/ last_action (fst s2) <> Some other) ->
        loop_body false tc' s2 = (Ok f, s3) ->
        f = Next /\ repeated_action_count (fst s3) = 0).
Proof.
  intros Hchain Hguard Hp Hf Ha Hact Hcall.
  destruct (consecutive_counter act n s0 s Hchain) as [Hcount Hafter].
  rewrite <- (count_repeat_guard act _ _ Hguard) in Hcount.
  assert (count_repeat act (fst s2)
          = with_repeated_action_count (Z.of_nat n) (fst s2)) as Hrep.
  { unfold count_repeat in *. case_decide; cbn in Hcount; now rewrite Hcount. }
  pose proof (try_block_guarded tc args (fst s2, w1) Hp Hf Ha) as Hblock.
  cbv zeta in Hblock. cbn [fst snd] in Hblock.
  rewrite <- Hact, Hrep in Hblock.
  cbn [repeated_action_count with_repeated_action_count] in Hblock.
  split; [exact Hafter |]. split; [|split].
  - intros Hn result a3 w3 w4 Hd Hres.
    assert ((3 <=? Z.of_nat n) = false) as E by (apply Z.leb_gt; lia).
    rewrite E, Hd in Hblock. cbn [fst snd] in Hblock.
    now rewrite (loop_body_result tc _ s2 _ w1 w4 Hcall Hblock Hres).
  - intros Hn w2 w3 Hover Hres.
    assert ((3 <=? Z.of_nat n) = true) as E by (apply Z.leb_le; lia).
    unfold prints in Hover. rewrite E, Hover in Hblock.
    rewrite (loop_body_result tc _ s2 _ w1 w3 Hcall Hblock Hres).
    rewrite (proj2 (override_kept (fn_name tc))).
    do 2 f_equal. unfold with_entry, with_history, with_last_action. cbn.
    f_equal. destruct (le_lt_dec 1 n) as [H1 | H0].
    + destruct (Hafter H1) as [Hl _]. now rewrite (guard_last _ _ Hguard), Hl.
    + lia.
  - intros other tc' f s3 Hne Hsel Hlast Hb.
    destruct (selection_counts other tc' s2 s3 f Hsel Hb) as [-> Hc].
    split; [reflexivity |]. rewrite Hc, count_repeat_other; [reflexivity |].
    destruct Hlast as [H1 | Hl]; [|exact Hl].
    destruct (Hafter H1) as [Hl _]. rewrite (guard_last _ _ Hguard), Hl.
    congruence.
Qed.

(** C1, as stated, fails: selected three times in a row from the start of a
    task, the same scroll is carried out three times; the third result is
    the browser's, the browser was called three times, and the counter
    stands at 2. *)
Lemma C1_counterexample :
  @for_tool_calls AgentExamples.example_env false
    [AgentExamples.scroll_call; AgentExamples.scroll_call;
     AgentExamples.scroll_call]
    (start_task "Buy a laptop", ([], []))
  = (Ok Next,
     (mkAgent
        [Tool "call_1" "Done: scroll"; Tool "call_1" "Done: scroll";
         Tool "call_1" "Done: scroll"]
        (JList []) [] "Buy a laptop" false
        (Some ("scroll", "{'direction': 'down'}")) 2,
      ([],
       [("scroll", JDict [("direction", JStr "down")]);
        ("scroll", JDict [("direction", JStr "down")]);
        ("scroll", JDict [("direction", JStr "down")])]))).
Proof. vm_compute. reflexivity. Qed.

(** C1 on a scroll that the model asks for in three turns, once, twice and
    once again under four different ids: when the third turn starts three
    scrolls have been carried out, and the fourth is overridden. *)
Lemma C1_witness :
  let env := AgentExamples.example_env in
  let start :=
    (start_task "Buy a laptop",
     ([(None, [AgentExamples.scroll_call]);
       (None, [AgentExamples.scroll_call_2; AgentExamples.scroll_call_3]);
       (None, [AgentExamples.scroll_call_4])], [])) in
  let turn_1 := snd (@turn_head env 0 start) in
  let scrolled_1 := snd (@loop_body env false AgentExamples.scroll_call turn_1) in
  let turn_2 := snd (@turn_head env 1 scrolled_1) in
  let scrolled_2 :=
    snd (@loop_body env false AgentExamples.scroll_call_2 turn_2) in
  let scrolled_3 :=
    snd (@loop_body env false AgentExamples.scroll_call_3 scrolled_2) in
  let turn_3 := snd (@turn_head env 2 scrolled_3) in
  repeated_action_count (fst scrolled_3) = 2
  /\ @loop_body env false AgentExamples.scroll_call_4 turn_3
     = (Ok Next,
        (with_entry "call_13" SYSTEM_OVERRIDE
           (with_repeated_action_count 3 (fst turn_3)),
         snd turn_3))
  /\ snd (snd turn_3)
     = [("scroll", JDict [("direction", JStr "down")]);
        ("scroll", JDict [("direction", JStr "down")]);
        ("scroll", JDict [("direction", JStr "down")])].
Proof.
  cbv zeta.
  set (env := AgentExamples.example_env).
  set (start := (start_task "Buy a laptop", _)).
  set (turn_1 := snd (@turn_head env 0 start)).
  set (scrolled_1 := snd (@loop_body env false AgentExamples.scroll_call turn_1)).
  set (turn_2 := snd (@turn_head env 1 scrolled_1)).
  set (scrolled_2 := snd (@loop_body env false AgentExamples.scroll_call_2 turn_2)).
  set (scrolled_3 :=
         snd (@loop_body env false AgentExamples.scroll_call_3 scrolled_2)).
  set (turn_3 := snd (@turn_head env 2 scrolled_3)).
  assert (forall tc : ToolCall,
             fn_name tc = "scroll" ->
             fn_arguments tc = AgentExamples.scroll_args ->
             @selects env AgentExamples.scroll_action tc) as Hscroll.
  { intros tc Hn Ha. unfold selects. rewrite Hn, Ha.
    split; [discriminate |]. split; [discriminate |].
    exists (JDict [("direction", JStr "down")]). split; reflexivity. }
  assert (@consecutive env AgentExamples.scroll_action 3 turn_1 scrolled_3)
    as Hchain.
  { apply (consecutive_next _ 2 turn_1 scrolled_2 scrolled_2 scrolled_3);
      [|reflexivity
       |exists AgentExamples.scroll_call_3;
        split; [now apply Hscroll | split; vm_compute; reflexivity]].
    apply (consecutive_next _ 1 turn_1 scrolled_1 turn_2 scrolled_2);
      [|vm_compute; reflexivity
       |exists AgentExamples.scroll_call_2;
        split; [now apply Hscroll | split; vm_compute; reflexivity]].
    apply (consecutive_next _ 0 turn_1 turn_1 turn_1 scrolled_1);
      [|reflexivity
       |exists AgentExamples.scroll_call;
        split; [now apply Hscroll | split; vm_compute; reflexivity]].
    apply consecutive_none. discriminate. }
  destruct (@C1_loop_guard env AgentExamples.scroll_action 3
              turn_1 scrolled_3 turn_3 AgentExamples.scroll_call_4
              (JDict [("direction", JStr "down")]) (snd turn_3) Hchain)
    as ([_ Hcount] & _ & Hover & _).
  - vm_compute. reflexivity.
  - discriminate.
  - discriminate.
  - reflexivity.
  - reflexivity.
  - vm_compute. reflexivity.
  - lia.
  - split; [exact Hcount |]. split.
    + apply (Hover ltac:(lia) (snd turn_3) (snd turn_3));
        vm_compute; reflexivity.
    + vm_compute. reflexivity.
Defined.

(** The guard counts [mark_step_done] as any other action: marked done
    four times in a row with one summary, three steps are taken off the
    plan and noted, and the fourth call is overridden. *)
Example loop_guard_mark_step_done :
  @for_tool_calls AgentExamples.example_env false
    [AgentExamples.mark_done_call; AgentExamples.mark_done_call;
     AgentExamples.mark_done_call; AgentExamples.mark_done_call]
    (with_plan (JList [JStr "a"; JStr "b"; JStr "c"; JStr "d"; JStr "e"])
       (start_task "Buy a laptop"), ([], []))
  = (Ok Next,
     (mkAgent
        [Tool "call_4" "Step marked done."; Tool "call_4" "Step marked done.";
         Tool "call_4" "Step marked done."; Tool "call_4" SYSTEM_OVERRIDE]
        (JList [JStr "d"; JStr "e"])
        ["Step done: Shop opened"; "Step done: Shop opened";
         "Step done: Shop opened"]
        "Buy a laptop" false
        (Some ("mark_step_done", "{'result_summary': 'Shop opened'}")) 3,
      ([], []))).
Proof. vm_compute. reflexivity. Qed.

(** C2, as stated, fails: with one token for each character, a latest entry
    of 100001 characters is dropped, and the whole history with it. *)
Lemma C2_counterexample :
  @prune AgentExamples.example_env
        [User "Find a laptop"; Tool "call_1" (AgentExamples.filler 100001)]
  = [].
Proof. vm_compute. reflexivity. Qed.

(** C2 (as amended).  Pruning keeps the most recent entry exactly when its
    own token cost does not exceed the limit, and then keeps it last; when
    its cost alone exceeds the limit, the pruned history is empty. *)
Theorem C2_prune_most_recent {env : Environment}
    (history : list Message) (msg : Message) :
  (msg_tokens msg <= TOKEN_LIMIT ->
   exists older, prune (history ++ [msg]) = older ++ [msg])
  /\ (TOKEN_LIMIT < msg_tokens msg ->
      prune (history ++ [msg]) = []).
Proof.
  rewrite prune_snoc. split; intros H.
  - apply Z.ltb_ge in H. rewrite H. eauto.
  - apply Z.ltb_lt in H. now rewrite H.
Qed.

(** C2 on the history of one greeting and one short tool result, whose
    cost is within the limit. *)
Lemma C2_witness :
  @msg_tokens AgentExamples.example_env (Tool "call_1" "Done: scroll")
  <= TOKEN_LIMIT
  /\ exists older,
       @prune AgentExamples.example_env
         ([User "Find a laptop"] ++ [Tool "call_1" "Done: scroll"])
       = older ++ [Tool "call_1" "Done: scroll"].
Proof.
  assert (@msg_tokens AgentExamples.example_env (Tool "call_1" "Done: scroll")
          <= TOKEN_LIMIT) as Hcost
    by (apply Z.leb_le; vm_compute; reflexivity).
  split; [exact Hcost |].
  exact (proj1 (@C2_prune_most_recent AgentExamples.example_env
                  [User "Find a laptop"] (Tool "call_1" "Done: scroll"))
               Hcost).
Defined.

(** C3, as stated, fails: below the unnamed button of [nested_names] lie the
    names "Hello" and "World", and the synthesized name is "Hello". *)
Lemma C3_counterexample :
  ~ (forall node : RawNode,
       is_interactive node = true ->
       name node = "" ->
       descendant_names node <> [] ->
       node_name node = join " " (descendant_names node)).
Proof.
  intros H. specialize (H Examples.nested_names eq_refl eq_refl).
  vm_compute in H. specialize (H ltac:(discriminate)). discriminate H.
Qed.

(** C3 (as amended).  For an interactive node whose own name is empty once
    stripped, the name [_traverse] synthesizes is the space-joined,
    depth-first concatenation of the stripped names of the nearest named
    descendants: a named descendant contributes its name and nothing from
    below it.  When there is such a descendant the synthesized name is not
    empty and is the name the node keeps. *)
Theorem C3_synthesized_name (node : RawNode) :
  is_interactive node = true ->
  truthy (strip (name node)) = false ->
  node_name node = join " " (nearest_names (children node))
  /\ (nearest_names (children node) <> [] ->
      truthy (node_name node) = true /\ final_name node = node_name node).
Proof.
  intros Hi Hn.
  assert (node_name node = join " " (nearest_names (children node))) as E.
  { unfold node_name. unfold is_interactive in Hi. rewrite Hn, Hi.
    destruct (children node) as [|c cs] eqn:Hc.
    - cbn. destruct (strip (name node)); [reflexivity | discriminate].
    - cbn [negb andb]. apply collect_text_nearest. }
  split; [exact E |]. intros Hne.
  assert (truthy (node_name node) = true) as T.
  { rewrite E. apply (join_clean _ (nearest_names_clean _) Hne). }
  split; [exact T |]. unfold final_name. rewrite T.
  now rewrite andb_false_r.
Qed.

(** C3 on [grouped_names]. *)
Lemma C3_witness :
  node_name Examples.grouped_names
  = join " " (nearest_names (children Examples.grouped_names))
  /\ (nearest_names (children Examples.grouped_names) <> [] ->
      truthy (node_name Examples.grouped_names) = true
      /\ final_name Examples.grouped_names = node_name Examples.grouped_names).
Proof. exact (C3_synthesized_name Examples.grouped_names eq_refl eq_refl). Defined.

(** What [grouped_names] and [nested_names] are named. *)
Example synthesized_names :
  node_name Examples.grouped_names = "Add to cart"
  /\ node_name Examples.nested_names = "Hello".
Proof. vm_compute. split; reflexivity. Qed.

(** White space is what Python counts as such: a button named by a
    no-break space has no name of its own, and takes the name of the text
    below it without the no-break spaces at its ends. *)
Example padded_name :
  node_name Examples.padded_names = "Buy"
  /\ nearest_names (children Examples.padded_names) = ["Buy"].
Proof. vm_compute. split; reflexivity. Qed.

(** C4.  A scan keeps nothing of the map an earlier scan left.  An id the
    most recent scan did not assign, be it out of the range or left over
    from an earlier scan, makes [click_element] return the not-found message
    that suggests a new scan: it does not raise, and it returns before it
    touches the page. *)
Theorem C4_click_unassigned_id {Page : Type} {api : PageAPI Page}
    (prior : gmap Z ElementInfo) (snapshot : Snapshot) (element_id : Z)
    (page : Page) :
  snd (scan prior snapshot) !! element_id = None ->
  click_element (snd (scan prior snapshot)) element_id page
  = (Ok ("❌ Error: ID " ++ py_int element_id
           ++ " not found. Suggestion: Call 'scan_page' to refresh IDs."),
     page)
  /\ snd (scan prior snapshot) = snd (scan ∅ snapshot).
Proof.
  intros Hnone. split.
  - unfold click_element. now rewrite Hnone.
  - now rewrite !scan_registry.
Qed.

(** C4 at the id 2, which a scan of [two_buttons] had assigned and the scan
    of [one_button] that followed did not. *)
Lemma C4_witness :
  let prior := snd (scan ∅ (SnapTree Examples.two_buttons)) in
  let current := snd (scan prior (SnapTree Examples.one_button)) in
  is_Some (prior !! 2) /\ current !! 2 = None
  /\ @click_element _ Examples.obliging_page current 2 []
     = (Ok "❌ Error: ID 2 not found. Suggestion: Call 'scan_page' to refresh IDs.", [])
  /\ current = snd (scan ∅ (SnapTree Examples.one_button)).
Proof.
  cbv zeta. split; [vm_compute; eauto |]. split; [vm_compute; reflexivity |].
  apply (@C4_click_unassigned_id _ Examples.obliging_page
           (snd (scan ∅ (SnapTree Examples.two_buttons)))
           (SnapTree Examples.one_button) 2 []).
  vm_compute. reflexivity.
Defined.

(** An id that the most recent scan assigned again names the element of
    that scan: after [two_buttons], then [one_button], the id 1 is the
    button "Close". *)
Example reassigned_id :
  let prior := snd (scan ∅ (SnapTree Examples.two_buttons)) in
  let current := snd (scan prior (SnapTree Examples.one_button)) in
  prior !! 1 = Some (ElementInfo_new 1 "button" "Buy")
  /\ current !! 1 = Some (ElementInfo_new 1 "button" "Close").
Proof. vm_compute. split; reflexivity. Qed.

(** C5.  One scan registers at most 800 interactive elements, and the ids
    are exactly 1..k, with k the smaller of 800 and the number of
    interactive nodes: the i-th interactive node of the traversal is
    stored under the id i, and no other id is assigned. *)
Theorem C5_scan_ids_dense (prior : gmap Z ElementInfo) (snapshot : Snapshot) :
  let m := snd (scan prior snapshot) in
  let nodes := scanned_nodes snapshot in
  len_map m <= 800
  /\ len_map m = Z.min 800 (Z.of_nat (length nodes))
  /\ (forall id, is_Some (m !! id) <-> 1 <= id <= len_map m)
  /\ (forall i n, (i < 800)%nat -> nodes !! i = Some n ->
        m !! (Z.of_nat i + 1) = Some (element_of (Z.of_nat i + 1) n)).
Proof.
  cbv zeta. rewrite scan_registry.
  set (l := take 800 (scanned_nodes snapshot)).
  assert (length l = min 800 (length (scanned_nodes snapshot))) as Hlen
    by apply length_take.
  rewrite registry_size.
  split; [lia |]. split; [lia |]. split.
  - intros id. rewrite (proj2 (registry_spec l)). unfold registry_at.
    case_decide.
    + rewrite fmap_is_Some, lookup_lt_is_Some. lia.
    + split; [intros [? [=]] | lia].
  - intros i n Hi Hn. rewrite (proj2 (registry_spec l)). unfold registry_at.
    case_decide; [|lia].
    replace (Z.to_nat (Z.of_nat i + 1 - 1)) with i by lia.
    unfold l. rewrite lookup_take_lt by exact Hi. now rewrite Hn.
Qed.

(** C5 on a scan of [two_buttons] that follows a scan of [one_button]. *)
Lemma C5_witness :
  let m := snd (scan (snd (scan ∅ (SnapTree Examples.one_button)))
                     (SnapTree Examples.two_buttons)) in
  let nodes := scanned_nodes (SnapTree Examples.two_buttons) in
  len_map m <= 800
  /\ len_map m = Z.min 800 (Z.of_nat (length nodes))
  /\ (forall id, is_Some (m !! id) <-> 1 <= id <= len_map m)
  /\ (forall i n, (i < 800)%nat -> nodes !! i = Some n ->
        m !! (Z.of_nat i + 1) = Some (element_of (Z.of_nat i + 1) n)).
Proof.
  exact (C5_scan_ids_dense (snd (scan ∅ (SnapTree Examples.one_button)))
           (SnapTree Examples.two_buttons)).
Defined.




(** C7.  The content [_add_tool_result] stores is the first 2000 characters
    of the result, the truncation marker and the advice to call [scan_page]
    again when the result has more than 20000 characters, and the result
    itself otherwise.  It appends one tool entry with that content when the
    console prints the line that shows the result; when that print raises,
    [_add_tool_result] raises with it and appends nothing. *)
Theorem C7_tool_result_truncation {env : Environment}
    (tool_id result : str) (s : Agent * World) :
  ((20000 < len result ->
    exists head rest,
      result = head ++ rest /\ len head = 2000
      /\ stored_result result
         = head ++ nl ++ "...[TRUNCATED DUE TO LENGTH]... Call scan_page again if needed.")
   /\ (len result <= 20000 -> stored_result result = result))
  /\ (forall w',
         prints (result_line result) (snd s) w' ->
         exists a',
           _add_tool_result tool_id result s = (Ok tt, (a', w'))
           /\ history a'
              = history (fst s) ++ [Tool tool_id (stored_result result)]
           /\ with_history (history (fst s)) a' = fst s)
  /\ (forall e w',
         console_print (result_line result) (snd s) = (Exn e, w') ->
         _add_tool_result tool_id result s = (Exn e, (fst s, w'))).
Proof.
  split; [split |split].
  - intros H. unfold stored_result. apply Z.ltb_lt in H as H'. rewrite H'.
    destruct (slice_to_split 2000 result) as (rest & E & L).
    exists (slice_to 2000 result), rest. unfold len in *.
    split; [exact E |]. split; [lia | reflexivity].
  - intros H. unfold stored_result. apply Z.ltb_ge in H. now rewrite H.
  - intros w' Hp. eexists. split; [now apply add_tool_result_prints |].
    split; [reflexivity |]. now destruct s as [[] w].
  - intros e w'. apply add_tool_result_raises.
Qed.

(** C7 on the result of opening a page whose title holds a closing tag:
    the print raises, and the result is not stored. *)
Lemma C7_witness :
  @_add_tool_result AgentExamples.example_env "call_1"
    "Opened https://shop.example - Title: Sale [/b] today"
    (start_task "Buy a laptop", ([], []))
  = (Exn "closing tag '[/b]' at position 61 doesn't match any open tag",
     (start_task "Buy a laptop", ([], []))).
Proof.
  apply (proj2 (proj2 (@C7_tool_result_truncation AgentExamples.example_env
                         "call_1"
                         "Opened https://shop.example - Title: Sale [/b] today"
                         (start_task "Buy a laptop", ([], []))))).
  vm_compute. reflexivity.
Defined.

(** A result of 25000 characters is stored as its first 2000 and the
    marker; one of 20000 characters is stored whole. *)
Example truncation_at_the_bound :
  stored_result (AgentExamples.filler 25000)
  = AgentExamples.filler 2000 ++ nl
      ++ "...[TRUNCATED DUE TO LENGTH]... Call scan_page again if needed."
  /\ stored_result (AgentExamples.filler 20000) = AgentExamples.filler 20000
  /\ stored_result (AgentExamples.filler 20001)
     = AgentExamples.filler 2000 ++ nl
         ++ "...[TRUNCATED DUE TO LENGTH]... Call scan_page again if needed.".
Proof. repeat split; apply eqb_eq; vm_compute; reflexivity. Qed.

(** With the console of the examples a result of 25000 characters is
    stored, cut to 2064 characters. *)
Example long_result_stored :
  exists a',
    @_add_tool_result AgentExamples.example_env "call_1"
      (AgentExamples.filler 25000) (start_task "Buy a laptop", ([], []))
    = (Ok tt, (a', ([], [])))
    /\ history a'
       = [Tool "call_1" (stored_result (AgentExamples.filler 25000))].
Proof.
  eexists. split.
  - apply (@add_tool_result_prints AgentExamples.example_env "call_1"
             (AgentExamples.filler 25000)
             (start_task "Buy a laptop", ([], [])) ([], [])).
    unfold prints, result_line, display_res. cbn [snd].
    assert ((len (AgentExamples.filler 25000) <? 200) = false) as ->
      by (vm_compute; reflexivity).
    assert (len (AgentExamples.filler 25000) = 25000) as ->
      by (vm_compute; reflexivity).
    vm_compute. reflexivity.
  - reflexivity.
Qed.

(** C8.  Pruning a pruned history again, with the same limit, returns it
    unchanged. *)
Theorem C8_prune_idempotent {env : Environment} (history : list Message) :
  prune (prune history)
  = prune history.
Proof. apply prune_idempotent. Qed.

(** C9.  A tool call whose arguments [json.loads] rejects is answered with
    a tool entry that names the tool and carries the parser's message, and
    the loop goes on with the next call of the turn, when the console prints
    the three lines of the call: the call, the error, the result.  The
    first of them is printed before the [try]: when it raises, the
    exception leaves the loop over the calls, no entry is appended and no
    further call is processed. *)
Theorem C9_malformed_arguments {env : Environment}
    (tc : ToolCall) (e : str) (rest : list ToolCall) (s : Agent * World) :
  json_loads (fn_arguments tc) = Exn e ->
  let error := "Error executing " ++ fn_name tc ++ ": " ++ e in
  (forall w1 w2 w3,
      prints (call_line tc) (snd s) w1 ->
      prints (error_line error) w1 w2 ->
      prints (result_line error) w2 w3 ->
      let s' := (with_entry (tc_id tc) (stored_result error) (fst s), w3) in
      loop_body false tc s = (Ok Next, s')
      /\ for_tool_calls false (tc :: rest) s = for_tool_calls false rest s'
      /\ for_tool_calls false [tc] s = (Ok Next, s'))
  /\ (forall e' w1,
         console_print (call_line tc) (snd s) = (Exn e', w1) ->
         loop_body false tc s = (Exn e', (fst s, w1))
         /\ for_tool_calls false (tc :: rest) s = (Exn e', (fst s, w1))).
Proof.
  intros He. cbv zeta. split.
  - intros w1 w2 w3 H1 H2 H3.
    pose proof (loop_body_raised tc e s (fst s, w1) w1 w2 w3 H1
                  (try_block_parse_error tc e _ He) H2 H3) as Hb.
    cbn [fst] in Hb.
    split; [exact Hb |]. split; simpl; unfold bind; now rewrite Hb.
  - intros e' w1 H1.
    pose proof (loop_body_call_raises false tc e' s w1 H1) as Hb.
    split; [exact Hb |]. simpl. unfold bind. now rewrite Hb.
Qed.

(** C9 on a turn of a scroll whose arguments are [x[/b]] and a second
    scroll: the exception of the console leaves the loop, nothing is
    appended and the second scroll is not carried out. *)
Lemma C9_witness :
  @loop_body AgentExamples.example_env false AgentExamples.markup_call
    (start_task "Buy a laptop", ([], []))
  = (Exn "closing tag '[/b]' at position 41 doesn't match any open tag",
     (start_task "Buy a laptop", ([], [])))
  /\ @for_tool_calls AgentExamples.example_env false
       [AgentExamples.markup_call; AgentExamples.scroll_call]
       (start_task "Buy a laptop", ([], []))
     = (Exn "closing tag '[/b]' at position 41 doesn't match any open tag",
        (start_task "Buy a laptop", ([], []))).
Proof.
  apply (proj2 (@C9_malformed_arguments AgentExamples.example_env
                  AgentExamples.markup_call
                  "Expecting value: line 1 column 1 (char 0)"
                  [AgentExamples.scroll_call]
                  (start_task "Buy a laptop", ([], [])) eq_refl)).
  vm_compute. reflexivity.
Defined.

(** The same turn in a task: [run] raises. *)
Example malformed_arguments_abort :
  fst (@run AgentExamples.example_env "Buy a laptop"
         (start_task "",
          ([(None, [AgentExamples.markup_call; AgentExamples.scroll_call])],
           [])))
  = Exn "closing tag '[/b]' at position 41 doesn't match any open tag".
Proof. vm_compute. reflexivity. Qed.

(** A [set_plan] call with broken arguments that hold no tag is answered,
    and the scroll after it is carried out. *)
Example malformed_arguments_answered :
  let s := (start_task "Buy a laptop", ([], [])) in
  let error :=
    "Error executing set_plan: Expecting value: line 1 column 12 (char 11)" in
  let s' := (with_entry "call_3" error (fst s), snd s) in
  @loop_body AgentExamples.example_env false
     AgentExamples.broken_set_plan_call s = (Ok Next, s')
  /\ @for_tool_calls AgentExamples.example_env false
       [AgentExamples.broken_set_plan_call; AgentExamples.scroll_call] s
     = @for_tool_calls AgentExamples.example_env false
         [AgentExamples.scroll_call] s'
  /\ @for_tool_calls AgentExamples.example_env false
       [AgentExamples.broken_set_plan_call] s = (Ok Next, s').
Proof. cbv zeta. repeat split; vm_compute; reflexivity. Qed.




(** The long, two-line name of [long_button] is stored whole; its report
    line carries the first 77 characters on one line, then three dots; a
    click asks the page for the stored name. *)
Example long_button_scan :
  snd (scan ∅ (SnapTree Examples.long_button)) !! 1
  = Some (ElementInfo_new 1 "button" Examples.long_name)
  /\ len Examples.long_name = 95
  /\ fst (scan ∅ (SnapTree Examples.long_button))
     = "Interactive Elements (1 items):" ++ nl
         ++ "1. [button] Add the selected laptop to the shopping cart and continue to the checkout pag..."
  /\ @click_element _ Examples.obliging_page
       (snd (scan ∅ (SnapTree Examples.long_button))) 1 []
     = (Ok ("✅ Clicked button '" ++ Examples.long_name ++ "' (Standard)"),
        [get_by_role "button" (Some Examples.long_name);
         get_by_role "button" (Some Examples.long_name)]).
Proof. vm_compute. repeat split. Qed.

(** A search box that has no name and holds the value "laptop" is stored
    under the name [[Value: laptop]]. *)
Example filled_box_scan :
  snd (scan ∅ (SnapTree Examples.filled_box)) !! 1
  = Some (ElementInfo_new 1 "searchbox" "[Value: laptop]")
  /\ fst (scan ∅ (SnapTree Examples.filled_box))
     = "Interactive Elements (1 items):" ++ nl
         ++ "1. [searchbox] [Value: laptop] (val=laptop)".
Proof. vm_compute. split; reflexivity. Qed.

(** ** Further properties of the code *)

(** X1.  Pruning keeps an end part of the history, in its order: what it
    drops are the oldest entries. *)
Theorem X1_prune_keeps_suffix {env : Environment} (history : list Message) :
  exists dropped, history = dropped ++ prune history.
Proof.
  unfold prune. destruct (keep_loop_front (rev history) 0) as [rest E].
  exists (rev rest).
  rewrite <- (rev_involutive history) at 1. rewrite E at 1.
  now rewrite rev_app_distr.
Qed.

(** X2.  The token cost of a pruned history never exceeds the limit. *)
Theorem X2_prune_within_limit {env : Environment} (history : list Message) :
  total_tokens (prune history) <= TOKEN_LIMIT.
Proof.
  unfold prune. rewrite total_tokens_rev.
  pose proof (keep_loop_within (rev history) 0 ltac:(unfold TOKEN_LIMIT; lia)).
  lia.
Qed.

(** X3.  Pruning drops nothing it could keep: the newest dropped entry does
    not fit beside the kept ones, and a history whose cost is within the
    limit is left as it is. *)
Theorem X3_prune_drops_only_overflow {env : Environment}
    (history : list Message) :
  (forall older msg,
      history = older ++ msg :: prune history ->
      TOKEN_LIMIT < total_tokens (prune history) + msg_tokens msg)
  /\ (total_tokens history <= TOKEN_LIMIT -> prune history = history).
Proof.
  split.
  - intros older msg E. unfold prune in *.
    rewrite total_tokens_rev.
    assert (rev history
            = keep_loop (rev history) 0 [] ++ msg :: rev older) as E'.
    { rewrite E at 1. rewrite rev_app_distr. simpl.
      rewrite rev_involutive. now rewrite <- app_assoc. }
    pose proof (keep_loop_stops _ _ _ _ E'). lia.
  - intros H. unfold prune.
    rewrite keep_loop_all; [apply rev_involutive |].
    rewrite total_tokens_rev. lia.
Qed.

(** X3 on a history of two short entries. *)
Lemma X3_witness :
  @prune AgentExamples.example_env
    [User "Buy a laptop"; Tool "call_1" "Done: scroll"]
  = [User "Buy a laptop"; Tool "call_1" "Done: scroll"].
Proof.
  apply (proj2 (@X3_prune_drops_only_overflow AgentExamples.example_env
                  [User "Buy a laptop"; Tool "call_1" "Done: scroll"])).
  vm_compute. discriminate.
Defined.

(** X4.  What [_add_tool_result] stores is never longer than 20000
    characters: a longer result is cut to 2000 characters and the marker. *)
Theorem X4_stored_result_bounded (result : str) :
  len (stored_result result) <= 20000
  /\ (20000 < len result -> len (stored_result result) = 2064).
Proof.
  unfold stored_result.
  destruct (20000 <? len result) eqn:E.
  - apply Z.ltb_lt in E.
    destruct (slice_to_split 2000 result) as (rest & _ & L).
    unfold len in *. rewrite !length_app, L. simpl length.
    split; [lia | intros _; lia].
  - apply Z.ltb_ge in E. split; [exact E | lia].
Qed.

(** X4 on a result of 25000 characters. *)
Lemma X4_witness :
  len (stored_result (AgentExamples.filler 25000)) = 2064.
Proof.
  apply (proj2 (X4_stored_result_bounded (AgentExamples.filler 25000))).
  apply Z.ltb_lt. vm_compute. reflexivity.
Defined.
(** X5.  Only the console can make the loop over the tool calls of a turn
    raise: an exception of [json.loads], of the binding of the arguments or
    of a tool is answered inside the loop, and what leaves the loop was
    raised by a [console.print], after which nothing more was done.  With
    a console that prints whatever it is given, the loop ends by handing
    on, by the break of [set_plan] or by the return of [finish_task]. *)
Theorem X5_only_console_leaves_loop {env : Environment}
    (reset_context : bool) (tool_calls : list ToolCall) (s : Agent * World) :
  (forall e s',
      for_tool_calls reset_context tool_calls s = (Exn e, s') ->
      exists r w, console_print r w = (Exn e, snd s'))
  /\ ((forall r, returns (console_print r)) ->
      exists f s', for_tool_calls reset_context tool_calls s = (Ok f, s')).
Proof.
  split.
  - intros e s'. apply console_only_for_tool_calls.
  - intros Hconsole.
    destruct (for_tool_calls reset_context tool_calls s) as [[f|e] s'] eqn:E;
      [eauto |].
    apply console_only_for_tool_calls in E as (r & w & E).
    destruct (Hconsole r w) as (u & w2 & E2). congruence.
Qed.

(** X5 on a call whose arguments hold a closing tag: what leaves the loop
    is what the console raised on the line of the call. *)
Lemma X5_witness :
  exists r w,
    @console_print AgentExamples.example_env r w
    = (Exn "closing tag '[/b]' at position 41 doesn't match any open tag",
       ([], [("scroll", JDict [("direction", JStr "down")])])).
Proof.
  apply (proj1 (@X5_only_console_leaves_loop AgentExamples.example_env false
                  [AgentExamples.scroll_call; AgentExamples.markup_call]
                  (start_task "Buy a laptop", ([], [])))
               _
               (with_last_action (Some AgentExamples.scroll_action)
                  (with_history [Tool "call_1" "Done: scroll"]
                     (start_task "Buy a laptop")),
                ([], [("scroll", JDict [("direction", JStr "down")])]))).
  vm_compute. reflexivity.
Defined.

(** X6.  Within a task the goal is never changed, and a committed plan
    stays committed: from a state with the flag set, any number of
    iterations ends with the flag set, so the role is the worker's from
    then on, also when every step has been consumed. *)
Theorem X6_commit_is_final {env : Environment} (n : nat) (i : Z)
    (s s' : Agent * World) (r : result bool) :
  iterations n i s = (r, s') ->
  main_goal (fst s') = main_goal (fst s)
  /\ (has_planned (fst s) = true ->
      has_planned (fst s') = true /\ current_role (fst s') = WORKER).
Proof.
  intros Hrun. split.
  - assert (stable (fun a => main_goal a = main_goal (fst s))) as Hst
      by (intros a Ha; repeat split; intros; exact Ha).
    exact (preserves_iterations _ n i Hst s r s' Hrun eq_refl).
  - intros Hp.
    assert (stable (fun a => has_planned a = true)) as Hst
      by (intros a Ha; repeat split; intros; try exact Ha; reflexivity).
    pose proof (preserves_iterations _ n i Hst s r s' Hrun Hp) as Hp'.
    split; [exact Hp' |]. unfold current_role. rewrite Hp'.
    now rewrite andb_false_r.
Qed.

(** X6 on a task whose plan is committed and used up: one turn of the
    worker, then a failed request. *)
Lemma X6_witness :
  let s := (with_has_planned true (start_task "Buy a laptop"),
            ([(Some "ok", [AgentExamples.mark_done_call;
                           AgentExamples.scroll_call])], [])) in
  let out := @iterations AgentExamples.example_env 2 0 s in
  main_goal (fst (snd out)) = "Buy a laptop"
  /\ has_planned (fst (snd out)) = true
  /\ current_role (fst (snd out)) = WORKER.
Proof.
  cbv zeta.
  destruct (@X6_commit_is_final AgentExamples.example_env 2 0
              (with_has_planned true (start_task "Buy a laptop"),
               ([(Some "ok", [AgentExamples.mark_done_call;
                              AgentExamples.scroll_call])], []))
              _ _ (surjective_pairing _)) as [Hgoal Hflag].
  split; [exact Hgoal |]. apply Hflag. reflexivity.
Defined.

(** X7.  The calls of a turn are answered in their order, one tool entry
    for each: when the loop over the calls ends without a [set_plan], the
    history has grown by the entries of the calls processed.  These are all
    the calls when the loop ran to its end; when it ended the task, they
    are the calls before the [finish_task] call at which it ended. *)
Theorem X7_results_in_call_order {env : Environment}
    (tool_calls : list ToolCall) (s s' : Agent * World) (f : flow) :
  for_tool_calls false tool_calls s = (Ok f, s') ->
  f <> Break ->
  exists processed rest contents,
    tool_calls = processed ++ rest
    /\ length contents = length processed
    /\ history (fst s')
       = history (fst s) ++ tool_entries processed contents
    /\ (f = Next -> rest = [])
    /\ (f = Return ->
        exists tc post, rest = tc :: post /\ fn_name tc = "finish_task").
Proof.
  revert s. induction tool_calls as [|tc tcs IH]; intros s; simpl.
  - intros [= <- <-] _. exists [], [], []. simpl. rewrite app_nil_r.
    repeat split. discriminate.
  - intros H Hf.
    apply bind_inv in H as [(f1 & s1 & Hb & Hrest) | (e & _ & [=])].
    destruct (loop_body_history tc s s1 f1 Hb)
      as [(-> & c & Hh) | [(-> & Hn & Ha) | (-> & _ & _)]].
    + destruct (IH s1 Hrest Hf) as (p & rest & cs & E & L & H & Hnext & Hret).
      exists (tc :: p), rest, (c :: cs). rewrite E. simpl.
      split; [reflexivity |]. split; [now rewrite L |].
      split; [|split; assumption]. rewrite H, Hh. now rewrite <- app_assoc.
    + injection Hrest as <- <-. exists [], (tc :: tcs), [].
      simpl. rewrite app_nil_r, Ha. repeat split; [discriminate |].
      intros _. now exists tc, tcs.
    + injection Hrest as <- <-. now destruct Hf.
Qed.

(** X7 on a turn of a scroll, a [finish_task] and another scroll. *)
Lemma X7_witness :
  let s := (start_task "Buy a laptop", ([], [])) in
  let turn := [AgentExamples.scroll_call; AgentExamples.finish_call;
               AgentExamples.scroll_call_2] in
  let out := @for_tool_calls AgentExamples.example_env false turn s in
  exists processed rest contents,
    turn = processed ++ rest
    /\ length contents = length processed
    /\ history (fst (snd out))
       = history (fst s) ++ tool_entries processed contents
    /\ (Return = Next -> rest = [])
    /\ (Return = Return ->
        exists tc post, rest = tc :: post /\ fn_name tc = "finish_task").
Proof.
  cbv zeta.
  apply (@X7_results_in_call_order AgentExamples.example_env
           [AgentExamples.scroll_call; AgentExamples.finish_call;
            AgentExamples.scroll_call_2]
           (start_task "Buy a laptop", ([], []))).
  - vm_compute. reflexivity.
  - discriminate.
Defined.

(** An iteration whose turn has tool calls. *)
Lemma iteration_of_turn {env : Environment} (i : Z) (s s0 : Agent * World)
    (tool_calls : list ToolCall) :
  turn_head i s = (Ok (Some tool_calls), s0) ->
  iteration i s
  = match for_tool_calls false tool_calls s0 with
    | (Ok Return, s1) => (Ok Return, s1)
    | (Ok _, s1) => (Ok Next, s1)
    | (Exn e, s1) => (Exn e, s1)
    end.
Proof.
  intros H. unfold iteration, bind. rewrite H.
  destruct (for_tool_calls false tool_calls s0) as [[[]|e] s1]; reflexivity.
Qed.

(** X8.  A [finish_task] call whose arguments parse to an object ends the
    task at once, when the console shows its result: the calls before it in
    the turn have been answered, the call itself gets no tool entry, the
    calls after it are not processed, and no further iteration runs,
    however many were left.  When the console raises on the result, the
    task is not ended: the call is answered with an error entry and the
    loop goes on with the calls after it. *)
Theorem X8_finish_task_ends_task {env : Environment}
    (pre post : list ToolCall) (tc : ToolCall) (kv : list (str * json))
    (s s0 s1 : Agent * World) (w2 : World) (i : Z) (n : nat) :
  fn_name tc = "finish_task" ->
  json_loads (fn_arguments tc) = Ok (JDict kv) ->
  turn_head i s = (Ok (Some (pre ++ tc :: post)), s0) ->
  for_tool_calls false pre s0 = (Ok Next, s1) ->
  prints (call_line tc) (snd s1) w2 ->
  (forall w3,
      prints (done_panel (final_result_of kv)) w2 w3 ->
      for_tool_calls false (pre ++ tc :: post) s0 = (Ok Return, (fst s1, w3))
      /\ iterations (S n) i s = (Ok true, (fst s1, w3)))
  /\ (forall e w3 w4 w5,
         console_print (done_panel (final_result_of kv)) w2 = (Exn e, w3) ->
         let result := "Error executing finish_task: " ++ e in
         prints (error_line result) w3 w4 ->
         prints (result_line result) w4 w5 ->
         let s2 :=
           (with_entry (tc_id tc) (stored_result result) (fst s1), w5) in
         loop_body false tc s1 = (Ok Next, s2)
         /\ for_tool_calls false (pre ++ tc :: post) s0
            = for_tool_calls false post s2).
Proof.
  intros Hn Ha Hturn Hpre Hcall.
  pose proof (try_block_finish tc kv (fst s1, w2) Hn Ha) as Htry.
  cbn [fst snd] in Htry.
  split.
  - intros w3 Hdone. rewrite Hdone in Htry.
    pose proof (loop_body_finished tc s1 _ w2 Hcall Htry) as Hbody.
    assert (for_tool_calls false (pre ++ tc :: post) s0
            = (Ok Return, (fst s1, w3))) as Hfor.
    { rewrite (for_tool_calls_app false pre (tc :: post) _ s1 Hpre).
      cbn [for_tool_calls]. unfold bind. now rewrite Hbody. }
    split; [exact Hfor |].
    cbn [iterations]. unfold bind at 1.
    now rewrite (iteration_of_turn i s s0 _ Hturn), Hfor.
  - intros e w3 w4 w5 Hdone. cbv zeta. intros Herr Hres.
    rewrite Hdone in Htry.
    pose proof (loop_body_raised tc e s1 _ w2 w4 w5 Hcall Htry) as Hbody.
    cbn [fst snd] in Hbody. unfold error_result in Hbody. rewrite Hn in Hbody.
    specialize (Hbody Herr Hres).
    split; [exact Hbody |].
    rewrite (for_tool_calls_app false pre (tc :: post) _ s1 Hpre).
    cbn [for_tool_calls]. unfold bind at 1. now rewrite Hbody.
Qed.

(** X8 on a turn of a scroll, a [finish_task] and another scroll, with all
    fifty iterations ahead. *)
Lemma X8_witness :
  let turn := [AgentExamples.scroll_call; AgentExamples.finish_call;
               AgentExamples.scroll_call_2] in
  let s1 :=
    (mkAgent [Assistant None turn; Tool "call_1" "Done: scroll"]
             (JList []) [] "Buy a laptop" false
             (Some AgentExamples.scroll_action) 0,
     ([], [("scroll", JDict [("direction", JStr "down")])])) in
  @iterations AgentExamples.example_env 50 0
    (start_task "Buy a laptop", ([(None, turn)], []))
  = (Ok true, s1).
Proof.
  cbv zeta.
  apply (proj1 (@X8_finish_task_ends_task AgentExamples.example_env
           [AgentExamples.scroll_call] [AgentExamples.scroll_call_2]
           AgentExamples.finish_call
           [("final_result", JStr "Bought")]
           (start_task "Buy a laptop",
            ([(None, [AgentExamples.scroll_call; AgentExamples.finish_call;
                      AgentExamples.scroll_call_2])], []))
           (mkAgent [Assistant None [AgentExamples.scroll_call;
                                     AgentExamples.finish_call;
                                     AgentExamples.scroll_call_2]]
                    (JList []) [] "Buy a laptop" false None 0,
            ([], []))
           (mkAgent [Assistant None [AgentExamples.scroll_call;
                                     AgentExamples.finish_call;
                                     AgentExamples.scroll_call_2];
                     Tool "call_1" "Done: scroll"]
                    (JList []) [] "Buy a laptop" false
                    (Some AgentExamples.scroll_action) 0,
            ([], [("scroll", JDict [("direction", JStr "down")])]))
           ([], [("scroll", JDict [("direction", JStr "down")])])
           0 49 eq_refl eq_refl eq_refl eq_refl eq_refl)
         ([], [("scroll", JDict [("direction", JStr "down")])])).
  reflexivity.
Defined.

(** A [finish_task] call whose result is the number 5 does not end the
    task: the panel cannot be rendered, the call gets an error entry, and
    the scroll after it is carried out. *)
Example finish_task_with_number :
  let turn := [AgentExamples.number_finish_call; AgentExamples.scroll_call] in
  @iteration AgentExamples.example_env 0
    (start_task "Buy a laptop", ([(None, turn)], []))
  = (Ok Next,
     (mkAgent [Assistant None turn;
               Tool "call_9"
                 "Error executing finish_task: Unable to render 5; A str, Segment or object with __rich_console__ method is required";
               Tool "call_1" "Done: scroll"]
              (JList []) [] "Buy a laptop" false
              (Some AgentExamples.scroll_action) 0,
      ([], [("scroll", JDict [("direction", JStr "down")])]))).
Proof. vm_compute. reflexivity. Qed.
(** X9.  A [set_plan] or [finish_task] call whose arguments are JSON but not
    an object commits no plan and finishes nothing: when the console prints
    the lines of the call, it is answered with a tool entry that names the
    tool and the type found, and the loop goes on with the next call. *)
Theorem X9_arguments_not_an_object {env : Environment}
    (tc : ToolCall) (args : json) (rest : list ToolCall) (s : Agent * World)
    (w1 w2 w3 : World) :
  fn_name tc = "set_plan" \/ fn_name tc = "finish_task" ->
  json_loads (fn_arguments tc) = Ok args ->
  (forall kv, args <> JDict kv) ->
  let result :=
    "Error executing " ++ fn_name tc ++ ": '" ++ type_name args
      ++ "' object has no attribute 'get'" in
  prints (call_line tc) (snd s) w1 ->
  prints (error_line result) w1 w2 ->
  prints (result_line result) w2 w3 ->
  let s' := (with_entry (tc_id tc) result (fst s), w3) in
  loop_body false tc s = (Ok Next, s')
  /\ plan (fst s') = plan (fst s)
  /\ has_planned (fst s') = has_planned (fst s)
  /\ for_tool_calls false (tc :: rest) s = for_tool_calls false rest s'.
Proof.
  intros Hn Ha Hobj. cbv zeta. intros Hcall Herr Hres.
  pose proof (try_block_not_object tc args (fst s, w1) Hn Ha Hobj) as Htry.
  pose proof (loop_body_raised tc _ s _ w1 w2 w3 Hcall Htry Herr Hres) as Hb.
  cbn [fst] in Hb.
  assert (stored_result
            (error_result (fn_name tc)
               ("'" ++ type_name args ++ "' object has no attribute 'get'"))
          = "Error executing " ++ fn_name tc ++ ": '" ++ type_name args
              ++ "' object has no attribute 'get'") as Hshort.
  { destruct Hn as [-> | ->]; destruct args; reflexivity. }
  rewrite Hshort in Hb.
  split; [exact Hb |]. split; [reflexivity |]. split; [reflexivity |].
  cbn [for_tool_calls]. unfold bind. now rewrite Hb.
Qed.

(** X9 on a [set_plan] call whose arguments are the list [[1]]. *)
Lemma X9_witness :
  let s := (start_task "Buy a laptop", ([], [])) in
  let s' :=
    (with_entry "call_6"
       "Error executing set_plan: 'list' object has no attribute 'get'"
       (fst s), snd s) in
  @loop_body AgentExamples.example_env false AgentExamples.list_plan_call s
  = (Ok Next, s')
  /\ plan (fst s') = plan (fst s)
  /\ has_planned (fst s') = has_planned (fst s)
  /\ @for_tool_calls AgentExamples.example_env false
       [AgentExamples.list_plan_call; AgentExamples.scroll_call] s
     = @for_tool_calls AgentExamples.example_env false
         [AgentExamples.scroll_call] s'.
Proof.
  cbv zeta.
  apply (@X9_arguments_not_an_object AgentExamples.example_env
           AgentExamples.list_plan_call
           (JList [JInt 1]) [AgentExamples.scroll_call]
           (start_task "Buy a laptop", ([], [])) ([], []) ([], []) ([], [])).
  - left. reflexivity.
  - reflexivity.
  - discriminate.
  - reflexivity.
  - reflexivity.
  - reflexivity.
Defined.

Lemma unknown_tool_names {env : Environment} (fname : str) :
  unknown_tool fname = true ->
  fname <> "set_plan"
  /\ fname <> "finish_task"
  /\ tools_map fname = None
  /\ _get_error_hint fname = fun _ => "".
Proof.
  unfold unknown_tool, BROWSER_TOOLS. cbn [existsb app].
  rewrite negb_true_iff, !orb_false_iff.
  intros (Hsp & Hft & Hmd & Hau & Hou & Hscan & Hclick & Htype & Hscr & Hgt
          & Hsw & Hcl & _).
  split; [now apply eqb_neq |]. split; [now apply eqb_neq |]. split.
  - unfold tools_map, BROWSER_TOOLS. cbn [existsb].
    now rewrite Hmd, Hft, Hau, Hou, Hscan, Hclick, Htype, Hscr, Hgt, Hsw, Hcl.
  - unfold _get_error_hint. now rewrite Hclick, Hscan, Htype.
Qed.

(** X10.  A call to a name that is no tool is answered, unless the loop
    guard overrides it and when the console prints the lines of the call,
    with the entry "Error: Tool <name> not found" and no hint; the browser,
    the plan and the notes are left alone, and the call counts as the last
    action. *)
Theorem X10_unknown_tool {env : Environment}
    (tc : ToolCall) (args : json) (s : Agent * World) (w1 w2 : World) :
  unknown_tool (fn_name tc) = true ->
  json_loads (fn_arguments tc) = Ok args ->
  let current_action := (fn_name tc, py_str args) in
  let result := "Error: Tool " ++ fn_name tc ++ " not found" in
  repeated_action_count (count_repeat current_action (fst s)) < 3 ->
  prints (call_line tc) (snd s) w1 ->
  prints (result_line result) w1 w2 ->
  loop_body false tc s
  = (Ok Next,
     (with_entry (tc_id tc) (stored_result result)
        (with_last_action (Some current_action)
           (count_repeat current_action (fst s))),
      w2)).
Proof.
  intros Hu Ha. cbv zeta. intros Hc Hcall Hres.
  destruct (unknown_tool_names _ Hu) as (Hp & Hf & Hmap & Hhint).
  pose proof (try_block_guarded tc args (fst s, w1) Hp Hf Ha) as Htry.
  cbv zeta in Htry. cbn [fst snd] in Htry.
  apply Z.leb_gt in Hc. rewrite Hc in Htry.
  unfold dispatch in Htry. rewrite Hmap in Htry. unfold ret in Htry.
  cbn [fst snd] in Htry.
  assert (add_hint (fn_name tc) ("Error: Tool " ++ fn_name tc ++ " not found")
          = "Error: Tool " ++ fn_name tc ++ " not found") as Hplain.
  { unfold add_hint. rewrite Hhint.
    change (contains "Error" ("Error: Tool " ++ fn_name tc ++ " not found"))
      with true.
    cbn [orb]. apply app_nil_r. }
  rewrite Hplain in Htry.
  exact (loop_body_result tc _ s _ w1 w2 Hcall Htry Hres).
Qed.

(** X10 on a call to "fly". *)
Lemma X10_witness :
  let s := (start_task "Buy a laptop", ([], [])) in
  @loop_body AgentExamples.example_env false AgentExamples.fly_call s
  = (Ok Next,
     (with_entry "call_7" (stored_result "Error: Tool fly not found")
        (with_last_action (Some ("fly", "{}"))
           (count_repeat ("fly", "{}") (fst s))),
      ([], []))).
Proof.
  cbv zeta.
  apply (@X10_unknown_tool AgentExamples.example_env AgentExamples.fly_call
           (JDict []) (start_task "Buy a laptop", ([], [])) ([], []) ([], [])).
  - reflexivity.
  - reflexivity.
  - reflexivity.
  - reflexivity.
  - reflexivity.
Defined.

Lemma dispatch_mark_done_steps {env : Environment} (summary step : json)
    (rest : list json) (a : Agent) (w : World) :
  plan a = JList (step :: rest) ->
  dispatch "mark_step_done" (JDict [("result_summary", summary)]) (a, w)
  = match console_print (done_line step) w with
    | (Ok _, w') =>
        (Ok "Step marked done.",
         (with_notes (notes a ++ ["Step done: " ++ py_str summary])
                     (with_plan (JList rest) a), w'))
    | (Exn e, w') => (Exn e, (with_plan (JList rest) a, w'))
    end.
Proof.
  intros Hsteps. unfold dispatch, tools_map, call_kw, _tool_mark_done, plan_pop0.
  cbn [eqb N.eqb Pos.eqb andb]. run_eff.
  rewrite Hsteps. cbn [json_truthy fst snd]. rewrite Hsteps. cbn [fst snd].
  destruct (console_print (done_line step) w) as [[u|e] w']; reflexivity.
Qed.

Lemma dispatch_mark_done_empty {env : Environment} (summary : json)
    (a : Agent) (w : World) :
  json_truthy (plan a) = false ->
  dispatch "mark_step_done" (JDict [("result_summary", summary)]) (a, w)
  = (Ok "Step marked done.",
     (with_notes (notes a ++ ["Step done: " ++ py_str summary]) a, w)).
Proof.
  intros Hfalsy. unfold dispatch, tools_map, call_kw, _tool_mark_done.
  cbn [eqb N.eqb Pos.eqb andb]. run_eff. now rewrite Hfalsy.
Qed.

(** X11.  A [mark_step_done] call with the one argument [result_summary],
    not overridden by the loop guard, takes the first step off a plan that
    has steps and leaves an empty plan empty; when the console prints the
    lines of the call it adds the note "Step done: <summary>" and is
    answered "Step marked done.".  When the console raises on the line of
    the step taken off and then on the line of that error, the exception
    leaves the loop: the step stays off the plan, no note is added and the
    call is not answered. *)
Theorem X11_mark_step_done {env : Environment}
    (tc : ToolCall) (summary : json) (s : Agent * World) (w1 : World) :
  fn_name tc = "mark_step_done" ->
  json_loads (fn_arguments tc) = Ok (JDict [("result_summary", summary)]) ->
  let current_action :=
    (fn_name tc, py_str (JDict [("result_summary", summary)])) in
  let a1 := count_repeat current_action (fst s) in
  repeated_action_count a1 < 3 ->
  prints (call_line tc) (snd s) w1 ->
  let done (steps : json) (w : World) :=
    (Ok Next,
     (mkAgent (history (fst s) ++ [Tool (tc_id tc) "Step marked done."])
              steps
              (notes (fst s) ++ ["Step done: " ++ py_str summary])
              (main_goal (fst s)) (has_planned (fst s))
              (Some current_action) (repeated_action_count a1),
      w)) in
  (forall step rest w2 w3,
      plan (fst s) = JList (step :: rest) ->
      prints (done_line step) w1 w2 ->
      prints (result_line "Step marked done.") w2 w3 ->
      loop_body false tc s = done (JList rest) w3)
  /\ (forall w3,
         json_truthy (plan (fst s)) = false ->
         prints (result_line "Step marked done.") w1 w3 ->
         loop_body false tc s = done (plan (fst s)) w3)
  /\ (forall step rest e e' w2 w3,
         plan (fst s) = JList (step :: rest) ->
         console_print (done_line step) w1 = (Exn e, w2) ->
         console_print (error_line ("Error executing mark_step_done: " ++ e))
           w2
         = (Exn e', w3) ->
         loop_body false tc s = (Exn e', (with_plan (JList rest) a1, w3))).
Proof.
  intros Hn Ha. cbv zeta. intros Hc Hcall.
  assert (fn_name tc <> "set_plan") as Hp by now rewrite Hn.
  assert (fn_name tc <> "finish_task") as Hf by now rewrite Hn.
  pose proof (try_block_guarded tc _ (fst s, w1) Hp Hf Ha) as Htry.
  cbv zeta in Htry. cbn [fst snd] in Htry.
  apply Z.leb_gt in Hc. rewrite Hc in Htry.
  set (act := (fn_name tc, py_str (JDict [("result_summary", summary)]))) in *.
  assert (plan (count_repeat act (fst s)) = plan (fst s)) as Hplan
    by (unfold count_repeat; case_decide; reflexivity).
  rewrite Hn in Htry at 1.
  split; [|split].
  - intros step rest w2 w3 Hsteps Hdone Hres. rewrite <- Hplan in Hsteps.
    rewrite (dispatch_mark_done_steps summary step rest _ w1 Hsteps) in Htry.
    rewrite Hdone in Htry. cbn [fst snd] in Htry.
    rewrite Hn in Htry at 1.
    change (add_hint "mark_step_done" "Step marked done.")
      with "Step marked done." in Htry.
    rewrite (loop_body_result tc _ s _ w1 w3 Hcall Htry Hres).
    unfold count_repeat. case_decide; reflexivity.
  - intros w3 Hfalsy Hres. rewrite <- Hplan in Hfalsy.
    rewrite (dispatch_mark_done_empty summary _ w1 Hfalsy) in Htry.
    cbn [fst snd] in Htry. rewrite Hn in Htry at 1.
    change (add_hint "mark_step_done" "Step marked done.")
      with "Step marked done." in Htry.
    rewrite (loop_body_result tc _ s _ w1 w3 Hcall Htry Hres).
    unfold count_repeat. case_decide; reflexivity.
  - intros step rest e e' w2 w3 Hsteps Hdone Herr.
    rewrite <- Hplan in Hsteps.
    rewrite (dispatch_mark_done_steps summary step rest _ w1 Hsteps) in Htry.
    rewrite Hdone in Htry.
    unfold loop_body. run_eff. unfold prints in Hcall.
    rewrite Hcall, Htry. rewrite Hn. cbn [fst snd].
    change (error_result "mark_step_done" e)
      with ("Error executing mark_step_done: " ++ e).
    now rewrite Herr.
Qed.

(** X11 on a plan of two steps. *)
Lemma X11_witness :
  let a :=
    with_plan (JList [JStr "Open the shop"; JStr "Search for a laptop"])
              (start_task "Buy a laptop") in
  @loop_body AgentExamples.example_env false AgentExamples.mark_done_call
    (a, ([], []))
  = (Ok Next,
     (mkAgent [Tool "call_4" "Step marked done."]
              (JList [JStr "Search for a laptop"])
              ["Step done: Shop opened"] "Buy a laptop" false
              (Some ("mark_step_done", "{'result_summary': 'Shop opened'}"))
              0,
      ([], []))).
Proof.
  cbv zeta.
  apply (proj1 (@X11_mark_step_done AgentExamples.example_env
                  AgentExamples.mark_done_call
                  (JStr "Shop opened")
                  (with_plan
                     (JList [JStr "Open the shop"; JStr "Search for a laptop"])
                     (start_task "Buy a laptop"), ([], []))
                  ([], [])
                  eq_refl eq_refl eq_refl eq_refl)
               (JStr "Open the shop") [JStr "Search for a laptop"]
               ([], []) ([], [])).
  - reflexivity.
  - reflexivity.
  - reflexivity.
Defined.

(** A step that holds a closing tag: the console raises on its line after
    the step was taken off the plan, and again on the line of the error,
    which quotes the tag. *)
Example mark_step_done_markup :
  let a := with_plan (JList [JStr "Open [/b]"; JStr "Search for a laptop"])
                     (start_task "Buy a laptop") in
  @loop_body AgentExamples.example_env false AgentExamples.mark_done_call
    (a, ([], []))
  = (Exn "closing tag '[/b]' at position 50 doesn't match any open tag",
     (with_plan (JList [JStr "Search for a laptop"])
                (start_task "Buy a laptop"),
      ([], []))).
Proof. vm_compute. reflexivity. Qed.

(** X12.  While the endpoint fails, nothing is lost and nothing aborts
    early: if every request raises and the console prints the panel of the
    task, the rules of the steps and the lines of the errors, [run] goes
    through its iterations and ends unfinished, with the agent as it was at
    the start of the task. *)
Theorem X12_endpoint_down {env : Environment} (task : str)
    (s : Agent * World) :
  (exists w0, prints (task_panel task) (snd s) w0) ->
  (forall i role, returns (console_rule (rule_title i role))) ->
  (forall role a w,
      exists e w',
        chat_completion role a w = (Exn e, w')
        /\ returns (console_print (api_error_line e))) ->
  exists w', run task s = (Ok false, (start_task task, w')).
Proof.
  intros [w0 Htask] Hrule Hdown. unfold run, bind, modify_agent, print, on_world.
  cbn [fst snd]. rewrite Htask.
  generalize w0. generalize 0. generalize MAX_ITERATIONS.
  induction n as [|n IH]; intros i w; cbn [iterations].
  - now exists w.
  - unfold iteration, turn_head. run_eff.
    match goal with
    | |- context [console_rule (rule_title i ?role) w] =>
        destruct (Hrule i role w) as (u & w1 & ->)
    end.
    cbn [fst snd].
    match goal with
    | |- context [chat_completion ?role ?a w1] =>
        destruct (Hdown role a w1) as (e & w2 & -> & Hline)
    end.
    cbn [fst snd].
    destruct (Hline w2) as (u2 & w3 & ->).
    apply IH.
Qed.

(** X12 on the endpoint that cannot be reached. *)
Lemma X12_witness :
  exists w',
    @run AgentExamples.unreachable_env "Buy a laptop"
      (start_task "An earlier task", [])
    = (Ok false, (start_task "Buy a laptop", w')).
Proof.
  apply (@X12_endpoint_down AgentExamples.unreachable_env "Buy a laptop"
           (start_task "An earlier task", [])).
  - eexists. reflexivity.
  - intros i role w. eexists _, _. reflexivity.
  - intros role a w. exists "Connection error.", w. split; [reflexivity |].
    intros w2. eexists _, _. reflexivity.
Defined.
(** X13.  A turn that commits a plan leaves the history empty: when the
    console prints the line of the [set_plan] call and the panel of the
    plan, the assistant turn that carried the call, which the iteration had
    appended to the pruned history, and the entries of the calls before it
    are wiped with the rest, the calls after it are not processed, and the
    next iteration runs as the worker. *)
Theorem X13_plan_turn_wipes_history {env : Environment}
    (pre post : list ToolCall) (tc : ToolCall) (kv : list (str * json))
    (s s0 s1 : Agent * World) (w2 w3 : World) (i : Z) :
  fn_name tc = "set_plan" ->
  json_loads (fn_arguments tc) = Ok (JDict kv) ->
  turn_head i s = (Ok (Some (pre ++ tc :: post)), s0) ->
  for_tool_calls false pre s0 = (Ok Next, s1) ->
  prints (call_line tc) (snd s1) w2 ->
  prints (plan_panel (steps_of kv)) w2 w3 ->
  (exists content,
      history (fst s0)
      = prune (history (fst s)) ++ [Assistant content (pre ++ tc :: post)])
  /\ exists a',
      iteration i s = (Ok Next, (a', w3))
      /\ history a' = []
      /\ plan a' = steps_of kv
      /\ has_planned a' = true
      /\ current_role a' = WORKER.
Proof.
  intros Hn Ha Hturn Hpre Hcall Hpanel. split.
  - destruct (turn_head_appends i s s0 _ Hturn) as (_ & content & E).
    exists content. now rewrite E.
  - pose proof (try_block_set_plan tc kv (fst s1, w2) Hn Ha) as Htry.
    cbn [fst snd] in Htry. rewrite Hpanel in Htry.
    pose proof (loop_body_plan_set tc s1 _ w2 Hcall Htry) as Hbody.
    assert (for_tool_calls false (pre ++ tc :: post) s0
            = (Ok Break, (plan_committed (steps_of kv) (fst s1), w3))) as Hfor.
    { rewrite (for_tool_calls_app false pre (tc :: post) _ s1 Hpre).
      cbn [for_tool_calls]. unfold bind. now rewrite Hbody. }
    eexists. split.
    + now rewrite (iteration_of_turn i s s0 _ Hturn), Hfor.
    + repeat split. unfold current_role. cbn. now rewrite andb_false_r.
Qed.

(** X13 on a turn of a scroll, a [set_plan] and another scroll. *)
Lemma X13_witness :
  exists a',
    @iteration AgentExamples.example_env 0
      (start_task "Buy a laptop",
       ([(None, [AgentExamples.scroll_call; AgentExamples.set_plan_call;
                 AgentExamples.scroll_call_2])], []))
    = (Ok Next, (a', ([], [("scroll", JDict [("direction", JStr "down")])])))
    /\ history a' = []
    /\ plan a' = JList [JStr "Open the shop"; JStr "Search for a laptop"]
    /\ has_planned a' = true
    /\ current_role a' = WORKER.
Proof.
  apply (proj2 (@X13_plan_turn_wipes_history AgentExamples.example_env
           [AgentExamples.scroll_call] [AgentExamples.scroll_call_2]
           AgentExamples.set_plan_call
           [("steps", JList [JStr "Open the shop"; JStr "Search for a laptop"])]
           (start_task "Buy a laptop",
            ([(None, [AgentExamples.scroll_call; AgentExamples.set_plan_call;
                      AgentExamples.scroll_call_2])], []))
           (mkAgent [Assistant None [AgentExamples.scroll_call;
                                     AgentExamples.set_plan_call;
                                     AgentExamples.scroll_call_2]]
                    (JList []) [] "Buy a laptop" false None 0,
            ([], []))
           (mkAgent [Assistant None [AgentExamples.scroll_call;
                                     AgentExamples.set_plan_call;
                                     AgentExamples.scroll_call_2];
                     Tool "call_1" "Done: scroll"]
                    (JList []) [] "Buy a laptop" false
                    (Some AgentExamples.scroll_action) 0,
            ([], [("scroll", JDict [("direction", JStr "down")])]))
           ([], [("scroll", JDict [("direction", JStr "down")])])
           ([], [("scroll", JDict [("direction", JStr "down")])])
           0 eq_refl eq_refl eq_refl eq_refl eq_refl eq_refl)).
Defined.

(** A plan whose step holds a closing tag: the console raises on the panel
    and again on the line of the error, the plan is set, and neither is the
    history wiped nor the plan committed. *)
Example plan_with_markup :
  @iteration AgentExamples.example_env 0
    (start_task "Buy a laptop", ([(None, [AgentExamples.markup_plan_call])], []))
  = (Exn "closing tag '[/b]' at position 44 doesn't match any open tag",
     (mkAgent [Assistant None [AgentExamples.markup_plan_call]]
              (JList [JStr "Open [/b]"]) [] "Buy a laptop" false None 0,
      ([], []))).
Proof. vm_compute. reflexivity. Qed.
(** X14.  The name shown in a report line is on one line and at most 80
    characters long, whatever the name; a name of at most 80 characters is
    shown whole, its line feeds turned into spaces. *)
Theorem X14_display_name_fits (name : str) :
  len (display_name name) <= 80
  /\ has_char nl_char (display_name name) = false
  /\ (len name <= 80 ->
      display_name name = replace_char nl_char space_char name).
Proof.
  unfold display_name, len, slice_to.
  pose proof (replace_char_length nl_char space_char name) as Hlen.
  pose proof (replace_char_gone nl_char space_char name eq_refl) as Hnl.
  set (flat := replace_char nl_char space_char name) in *.
  destruct (80 <? Z.of_nat (length flat)) eqn:E.
  - apply Z.ltb_lt in E. repeat split.
    + rewrite length_app, length_take. simpl length. lia.
    + rewrite has_char_app.
      change (take (Z.to_nat 77) flat) with (slice_to 77 flat).
      rewrite has_char_slice by exact Hnl. reflexivity.
    + lia.
  - apply Z.ltb_ge in E. repeat split; [exact E | exact Hnl].
Qed.

(** X14 on a name of two lines. *)
Lemma X14_witness :
  display_name ("Add" ++ nl ++ "to cart") = "Add to cart".
Proof.
  apply (proj2 (proj2 (X14_display_name_fits ("Add" ++ nl ++ "to cart")))).
  vm_compute. discriminate.
Defined.

(** X15.  The text collected below a node is empty exactly when no node
    below it has a name that is not blank; so an unnamed interactive node
    stays unnamed only then. *)
Theorem X15_collected_text_empty (children : list RawNode) :
  _collect_text children = "" <-> forallb all_blank children = true.
Proof.
  rewrite collect_text_nearest, <- nearest_names_nil.
  split.
  - intros H. apply join_truthy_nil; [apply nearest_names_clean |].
    now rewrite H.
  - intros ->. reflexivity.
Qed.

(** A name of no-break spaces is blank. *)
Example blank_names :
  _collect_text [Examples.leaf "text" (Examples.nbsp ++ Examples.nbsp)] = ""
  /\ _collect_text [Examples.leaf "text" (Examples.nbsp ++ "Buy")] = "Buy".
Proof. split; reflexivity. Qed.

(** X16.  A scan of a tree answers "No interactive elements found. Try
    scrolling." exactly when no node of the tree has a line of its own:
    none is interactive, none is a heading, and no content node carries a
    currency sign or more than 20 characters.  The elements map is empty
    then. *)
Theorem X16_scan_finds_nothing (prior : gmap Z ElementInfo) (tree : RawNode) :
  (fst (scan prior (SnapTree tree))
   = "No interactive elements found. Try scrolling."
   <-> quiet tree = true)
  /\ (quiet tree = true -> snd (scan prior (SnapTree tree)) = ∅).
Proof.
  unfold scan. split; [split |].
  - intros H. destruct (quiet tree) eqn:Hq; [reflexivity |].
    assert (len_map (∅ : gmap Z ElementInfo) < 800) as Hroom
      by (unfold len_map; rewrite map_size_empty; lia).
    destruct (traverse_not_quiet tree Hq ∅ [] Hroom)
      as (m & line & added & E).
    rewrite E in H. simpl in H. discriminate H.
  - intros Hq. now rewrite (traverse_quiet tree Hq).
  - intros Hq. now rewrite (traverse_quiet tree Hq).
Qed.

(** X16 on a group that holds one short text. *)
Lemma X16_witness :
  snd (scan ∅ (SnapTree (Examples.branch "generic" ""
                           [Examples.leaf "text" "Hello"])))
  = ∅.
Proof.
  apply (proj2 (X16_scan_finds_nothing ∅
                  (Examples.branch "generic" "" [Examples.leaf "text" "Hello"]))).
  reflexivity.
Defined.

(** A text of two characters has no line, whatever it holds: [is_content]
    asks for more than two.  With a third character the currency sign
    gives it one. *)
Example short_texts :
  quiet Examples.short_price = true
  /\ fst (scan ∅ (SnapTree Examples.short_price))
     = "No interactive elements found. Try scrolling."
  /\ fst (scan ∅ (SnapTree (Examples.leaf "text" "₽50")))
     = "Interactive Elements (0 items):" ++ nl ++ "    (txt) ₽50".
Proof. repeat split; vm_compute; reflexivity. Qed.

(** X17.  After a scan that registered no element, because the snapshot
    raised, was empty, or held no interactive node, every id is unknown:
    [click_element] and [type_text] answer with their not-found messages
    and leave the page alone, also for ids an earlier scan had assigned. *)
Theorem X17_nothing_scanned_nothing_found {Page : Type} {api : PageAPI Page}
    (prior : gmap Z ElementInfo) (snapshot : Snapshot)
    (element_id : Z) (text : str) (submit : bool) (page : Page) :
  scanned_nodes snapshot = [] ->
  click_element (snd (scan prior snapshot)) element_id page
  = (Ok ("❌ Error: ID " ++ py_int element_id
           ++ " not found. Suggestion: Call 'scan_page' to refresh IDs."),
     page)
  /\ type_text (snd (scan prior snapshot)) element_id text submit page
     = (Ok ("ID " ++ py_int element_id ++ " not found."), page).
Proof.
  intros Hnone. rewrite scan_registry, Hnone.
  unfold click_element, type_text. change (registry (take 800 [])) with
    (∅ : gmap Z ElementInfo).
  now rewrite lookup_empty.
Qed.

(** X17 on an empty snapshot that follows a scan of [two_buttons]. *)
Lemma X17_witness :
  let prior := snd (scan ∅ (SnapTree Examples.two_buttons)) in
  @click_element _ Examples.obliging_page (snd (scan prior SnapFalsy)) 1 []
  = (Ok "❌ Error: ID 1 not found. Suggestion: Call 'scan_page' to refresh IDs.",
     [])
  /\ @type_text _ Examples.obliging_page (snd (scan prior SnapFalsy)) 1
       "laptop" true []
     = (Ok "ID 1 not found.", []).
Proof.
  cbv zeta.
  apply (@X17_nothing_scanned_nothing_found _ Examples.obliging_page
           (snd (scan ∅ (SnapTree Examples.two_buttons))) SnapFalsy 1
           "laptop" true []).
  reflexivity.
Defined.
(** X18.  [open_url] never raises: a failure to load, to dismiss or to read
    the title ends in a text.  The address the page is sent to starts with
    "http": one that does is taken as it is, any other gets "https://" in
    front; that address is the one loaded and the one named in the answer.
    Without a page the browser is not touched. *)
Theorem X18_open_url {W PageRef : Type} {api : ContextAPI W PageRef}
    (svc : BrowserService PageRef) (url : str) (w : W) :
  (exists text w', open_url svc url w = (Ok text, w'))
  /\ startswith "http" (with_scheme url) = true
  /\ (startswith "http" url = true -> with_scheme url = url)
  /\ (startswith "http" url = false -> with_scheme url = "https://" ++ url)
  /\ (page svc = None -> open_url svc url w = (Ok "Browser not started.", w))
  /\ (forall p e w1,
         page svc = Some p ->
         page_goto p (with_scheme url) w = (Exn e, w1) ->
         open_url svc url w = (Ok ("Error opening url: " ++ e), w1))
  /\ (forall p outcome title w1 w2 w3,
         page svc = Some p ->
         page_goto p (with_scheme url) w = (Ok tt, w1) ->
         _dismiss_overlays svc w1 = (Ok outcome, w2) ->
         page_title p w2 = (Ok title, w3) ->
         open_url svc url w
         = (Ok ("Opened " ++ with_scheme url ++ " - Title: " ++ title), w3)).
Proof.
  split; [|split; [|split; [|split; [|split; [|split]]]]].
  - unfold open_url. destruct (page svc).
    + apply returns_try_except. intros e. apply returns_ret.
    + eexists _, _. reflexivity.
  - unfold with_scheme. destruct (startswith "http" url) eqn:E; [exact E |].
    reflexivity.
  - unfold with_scheme. now intros ->.
  - unfold with_scheme. now intros ->.
  - unfold open_url. now intros ->.
  - intros p e w1 Hp Hgo. unfold open_url. rewrite Hp.
    unfold try_except, bind. now rewrite Hgo.
  - intros p outcome title w1 w2 w3 Hp Hgo Hdis Htitle.
    unfold open_url. rewrite Hp.
    unfold try_except, bind. now rewrite Hgo, Hdis, Htitle.
Qed.

(** X18 on a browser that is offline: the address it was sent to is the
    one with the scheme in front. *)
Lemma X18_witness :
  @open_url _ _ AgentExamples.offline (mkService true (Some 7%nat))
    "shop.example" []
  = (Ok "Error opening url: net::ERR_INTERNET_DISCONNECTED",
     ["https://shop.example"]).
Proof.
  apply (proj1 (proj2 (proj2 (proj2 (proj2 (proj2
           (@X18_open_url _ _ AgentExamples.offline
              (mkService true (Some 7%nat)) "shop.example" [])))))) 7%nat).
  - reflexivity.
  - reflexivity.
Defined.

(** An address with a scheme is loaded as it is, and named so. *)
Example open_url_with_scheme :
  @open_url _ _ AgentExamples.tabs (mkService true (Some 7%nat))
    "http://shop.example" [7; 9; 4]%nat
  = (Ok "Opened http://shop.example - Title: Tab 7", [7; 9; 4]%nat)
  /\ @open_url _ _ AgentExamples.offline (mkService true (Some 7%nat))
       "http://shop.example" []
     = (Ok "Error opening url: net::ERR_INTERNET_DISCONNECTED",
        ["http://shop.example"])
  /\ @open_url _ _ AgentExamples.tabs (mkService true None)
       "shop.example" [7; 9; 4]%nat
     = (Ok "Browser not started.", [7; 9; 4]%nat).
Proof. repeat split; vm_compute; reflexivity. Qed.

(** X19.  Dismissing the overlays never raises, and it gives up at the
    first selector that fails: when the visibility check of the first
    selector raises, the text "Failed: ..." is what it returns and nothing
    more is asked of the page. *)
Theorem X19_dismiss_overlays {W PageRef : Type} {api : ContextAPI W PageRef}
    (svc : BrowserService PageRef) (w : W) :
  (exists outcome w', _dismiss_overlays svc w = (Ok outcome, w'))
  /\ (forall p e w',
         page svc = Some p ->
         first_is_visible p "button[aria-label='Закрыть']" w = (Exn e, w') ->
         _dismiss_overlays svc w = (Ok (Some ("Failed: " ++ e)), w')).
Proof.
  split; [apply dismiss_overlays_returns |].
  intros p e w' Hp Hfail. unfold _dismiss_overlays. rewrite Hp.
  unfold try_except, OVERLAY_SELECTORS. cbn [dismiss_loop].
  unfold bind, try_except.
  now rewrite Hfail.
Qed.

(** X19 on a browser whose visibility check times out. *)
Lemma X19_witness :
  @_dismiss_overlays _ _ AgentExamples.stuck_tabs
    (mkService true (Some 7%nat)) [7; 9; 4]%nat
  = (Ok (Some "Failed: Timeout 500ms exceeded."), [7; 9; 4]%nat).
Proof.
  apply (proj2 (@X19_dismiss_overlays _ _ AgentExamples.stuck_tabs
                  (mkService true (Some 7%nat)) [7; 9; 4]%nat)
               7%nat "Timeout 500ms exceeded." [7; 9; 4]%nat).
  - reflexivity.
  - reflexivity.
Defined.

(** X20.  [switch_tab] refuses an index that is not the index of a tab,
    a negative one included, and [close_tab] refuses to close the only tab;
    both refuse without a context.  A refusal changes neither the active
    page nor the browser. *)
Theorem X20_tab_guards {W PageRef : Type} {api : ContextAPI W PageRef}
    (svc : BrowserService PageRef) (w : W) (idx : Z) :
  (has_context svc = false \/ idx < 0
   \/ Z.of_nat (length (context_pages w)) <= idx ->
   switch_tab idx (svc, w) = (Ok "Invalid tab index.", (svc, w)))
  /\ (has_context svc = false \/ (length (context_pages w) <= 1)%nat ->
      close_tab (svc, w) = (Ok "Cannot close last tab.", (svc, w))).
Proof.
  split; intros H.
  - unfold switch_tab.
    destruct (has_context svc); simpl.
    + destruct H as [H | [H | H]]; [discriminate | |].
      * apply Z.leb_gt in H. now rewrite H.
      * apply Z.ltb_ge in H. rewrite H. now rewrite andb_false_r.
    + reflexivity.
  - unfold close_tab.
    destruct (has_context svc); simpl; [|reflexivity].
    destruct H as [H | H]; [discriminate |].
    assert ((Z.of_nat (length (context_pages w)) <=? 1) = true) as ->
      by (apply Z.leb_le; lia).
    reflexivity.
Qed.

(** X20 on the index 3 with three tabs open. *)
Lemma X20_witness :
  @switch_tab _ _ AgentExamples.tabs 3
    (mkService true (Some 7%nat), [7; 9; 4]%nat)
  = (Ok "Invalid tab index.", (mkService true (Some 7%nat), [7; 9; 4]%nat)).
Proof.
  apply (proj1 (@X20_tab_guards _ _ AgentExamples.tabs
                  (mkService true (Some 7%nat)) [7; 9; 4]%nat 3)).
  right. right. vm_compute. discriminate.
Defined.

(** X21.  An index that [switch_tab] accepts selects that tab: the active
    page becomes the page at the index, whether bringing it to the front
    and reading its title then succeed or raise. *)
Theorem X21_switch_tab_selects {W PageRef : Type} {api : ContextAPI W PageRef}
    (svc : BrowserService PageRef) (w : W) (idx : nat) (p : PageRef) :
  has_context svc = true ->
  context_pages w !! idx = Some p ->
  exists r w',
    switch_tab (Z.of_nat idx) (svc, w)
    = (r, (mkService true (Some p), w')).
Proof.
  intros Hc Hp. unfold switch_tab. rewrite Hc. simpl.
  pose proof (lookup_lt_Some _ _ _ Hp) as Hlt.
  assert ((0 <=? Z.of_nat idx)
          && (Z.of_nat idx <? Z.of_nat (length (context_pages w))) = true)
    as Hin.
  { apply andb_true_iff. split; [apply Z.leb_le | apply Z.ltb_lt]; lia. }
  rewrite Hin. simpl. unfold py_index.
  assert ((Z.of_nat idx <? 0) = false) as -> by (apply Z.ltb_ge; lia).
  rewrite Hin, Nat2Z.id.
  rewrite Hp.
  destruct (page_bring_to_front p w) as [[u|e] w1]; [|eauto].
  destruct (page_title p w1) as [[title|e] w2]; eauto.
Qed.

(** X21 on the second of three tabs. *)
Lemma X21_witness :
  exists r w',
    @switch_tab _ _ AgentExamples.tabs 1
      (mkService true (Some 7%nat), [7; 9; 4]%nat)
    = (r, (mkService true (Some 9%nat), w')).
Proof.
  apply (@X21_switch_tab_selects _ _ AgentExamples.tabs
           (mkService true (Some 7%nat)) [7; 9; 4]%nat 1%nat 9%nat).
  - reflexivity.
  - reflexivity.
Defined.

(** X22.  [type_text] never raises: with an unknown id it answers at once
    and leaves the page alone, and with a known one whatever the page
    raises while clicking, filling or pressing Enter comes back as the text
    "Typing failed: ...". *)
Theorem X22_type_text_never_raises {Page : Type} {api : PageAPI Page}
    (elements_map : gmap Z ElementInfo) (element_id : Z) (text : str)
    (submit : bool) (page : Page) :
  (exists answer page',
      type_text elements_map element_id text submit page = (Ok answer, page'))
  /\ (elements_map !! element_id = None ->
      type_text elements_map element_id text submit page
      = (Ok ("ID " ++ py_int element_id ++ " not found."), page))
  /\ (forall el_info e page',
         elements_map !! element_id = Some el_info ->
         loc_click (type_locator el_info) true page = (Exn e, page') ->
         type_text elements_map element_id text submit page
         = (Ok ("Typing failed: " ++ e), page')).
Proof.
  unfold type_text. split; [|split].
  - destruct (elements_map !! element_id).
    + apply returns_try_except. intros msg. apply returns_ret.
    + eexists _, _. reflexivity.
  - now intros ->.
  - intros el_info e page' -> Hfail. unfold try_except, bind.
    now rewrite Hfail.
Qed.

(** X22 on an id that no scan has assigned. *)
Lemma X22_witness :
  @type_text _ Examples.obliging_page ∅ 1 "laptop" true []
  = (Ok "ID 1 not found.", []).
Proof.
  apply (proj1 (proj2 (@X22_type_text_never_raises _ Examples.obliging_page
                         ∅ 1 "laptop" true []))).
  reflexivity.
Defined.

(** X23.  With a page open, [click_element] raises only when counting the
    matches raises: on a page whose count always returns, every call ends
    in a text, be it the not-found or disappeared message, a success or the
    report of three failed attempts. *)
Theorem X23_click_raises_only_on_count {Page : Type} {api : PageAPI Page}
    (elements_map : gmap Z ElementInfo) (element_id : Z) (page : Page) :
  (forall loc p, exists n p', loc_count loc p = (Ok n, p')) ->
  exists answer page',
    click_element elements_map element_id page = (Ok answer, page').
Proof.
  intros Hcount. unfold click_element.
  destruct (elements_map !! element_id) as [el_info|]; [|eexists _, _; reflexivity].
  unfold bind at 1.
  destruct (Hcount (click_locator el_info) page) as (n1 & p1 & ->).
  unfold bind at 1.
  match goal with
  | |- context [loc_count ?l p1] => destruct (Hcount l p1) as (n2 & p2 & ->)
  end.
  destruct (n2 =? 0); [eexists _, _; reflexivity |].
  apply returns_try_except. intros e1.
  apply returns_try_except. intros e2.
  apply returns_try_except. intros e3.
  apply returns_ret.
Qed.

(** X23 on the page that always finds one match. *)
Lemma X23_witness :
  exists answer page',
    @click_element _ Examples.obliging_page
      (snd (scan ∅ (SnapTree Examples.one_button))) 1 []
    = (Ok answer, page').
Proof.
  apply (@X23_click_raises_only_on_count _ Examples.obliging_page).
  intros loc p. eexists _, _. reflexivity.
Defined.
